(** * Chunked upload subsystem of MyFileHelper (app.py)

    A shallow embedding of the three upload handlers of [app.py]
    ([upload_init], [upload_chunk], [upload_complete]) together with the
    Python primitives they rely on, of [serve_media], and of the socket
    handlers ([handle_register], [handle_message], [handle_disconnect],
    with [emit_clients]), followed by the properties of the upload
    protocol and of the chat.

    Conventions.
    - Text is a [string] whose characters are code points below 256.
    - Python integers are [Z]; byte strings are [list Byte.byte].
    - The two directory roots of [UPLOAD_CONFIG] are finite maps: the
      chunk root maps a sub-directory name to a directory, a directory maps
      a file name to its contents, and the finished-file root maps a file
      name to its contents.  Opening a file for writing raises [OSError]
      when its name is longer than the file system allows ([NAME_MAX]
      bytes); other failures of the file system (a full disk, missing
      permissions) are outside the model.
    - The module-level dictionaries are finite maps with string keys.
    - Values drawn from the environment ([uuid4()], the clock, the Flask
      cookie session) are explicit arguments of the handlers.
    - JSON fields are typed as the handlers use them: text fields are
      optional strings, numeric fields optional integers ([None] stands for
      an absent or null field).  Form fields are optional strings, as
      [request.form] delivers them.  Requests whose fields have other
      types are outside the model.
    - The socket id of an event ([request.sid]) and its session cookie are
      explicit arguments of the socket handlers. *)

From stdpp Require Import gmap strings list fin_maps.
From Stdlib Require Import ZArith NArith Ascii.

Local Open Scope Z_scope.

Abbreviation bytes := (list Byte.byte).

(** ** Python primitives *)

(** [str.isspace] on code points below 256: TAB..CR, FS..US, space, NEL and
    the no-break space. *)
Definition isspace (c : ascii) : bool :=
  let n := N_of_ascii c in
  ((9 <=? n) && (n <=? 13) || (28 <=? n) && (n <=? 32)
   || (n =? 133) || (n =? 160))%N.

Fixpoint lstrip (s : string) : string :=
  match s with
  | String c r => if isspace c then lstrip r else s
  | EmptyString => EmptyString
  end.

Fixpoint rstrip (s : string) : string :=
  match s with
  | String c r =>
      match rstrip r with
      | EmptyString => if isspace c then EmptyString else String c EmptyString
      | r' => String c r'
      end
  | EmptyString => EmptyString
  end.

(** [s.strip()] *)
Definition strip (s : string) : string := rstrip (lstrip s).

(** Truthiness of a [str]: [not s] holds exactly for the empty string. *)
Definition nonempty (s : string) : bool :=
  match s with
  | EmptyString => false
  | String _ _ => true
  end.

Definition digit_of (c : ascii) : option Z :=
  let n := N_of_ascii c in
  if ((48 <=? n) && (n <=? 57))%N then Some (Z.of_N (n - 48)) else None.

(** The digit part of a decimal literal accepted by [int(str)]: digits,
    with single underscores allowed between two digits. *)
Fixpoint int_digits (s : string) (acc : Z) (after_digit : bool) : option Z :=
  match s with
  | EmptyString => if after_digit then Some acc else None
  | String c r =>
      match digit_of c with
      | Some d => int_digits r (10 * acc + d) true
      | None =>
          if Ascii.eqb c "_" && after_digit then int_digits r acc false
          else None
      end
  end.

(** [int(s)] for a [str] argument; [None] stands for [ValueError].  (The
    interpreter's optional cap on the number of digits raises the same
    [ValueError] and is left out.) *)
Definition int_of_str (s : string) : option Z :=
  match strip s with
  | String "-" r => Z.opp <$> int_digits r 0 false
  | String "+" r => int_digits r 0 false
  | t => int_digits t 0 false
  end.

Definition digit_char (d : N) : ascii := ascii_of_N (48 + d).

Fixpoint ndigits_fuel (fuel : nat) (n : N) : nat :=
  match fuel with
  | O => 1%nat
  | S f => if (n <? 10)%N then 1%nat else S (ndigits_fuel f (n / 10)%N)
  end.

(** Number of decimal digits of [n] (1 for 0).  A number of [b] bits has at
    most [b] decimal digits, which bounds the recursion. *)
Definition ndigits (n : N) : nat := ndigits_fuel (N.size_nat n) n.

(** The [k] low decimal digits of [n], most significant first. *)
Fixpoint zdigits (k : nat) (n : N) : string :=
  match k with
  | O => EmptyString
  | S k' => String (digit_char ((n / 10 ^ N.of_nat k') mod 10)%N) (zdigits k' n)
  end.

(** [format(z, "0{width}d")]: decimal, zero-padded to at least [width]
    characters, the sign included in the width. *)
Definition format_0d (width : nat) (z : Z) : string :=
  if z <? 0
  then String "-" (zdigits (Nat.max (width - 1) (ndigits (Z.abs_N z))) (Z.abs_N z))
  else zdigits (Nat.max width (ndigits (Z.to_N z))) (Z.to_N z).

(** [range(n)] *)
Definition range (n : Z) : list Z := Z.of_nat <$> seq 0 (Z.to_nat n).

Fixpoint take_N {A} (n : N) (l : list A) : list A :=
  match l with
  | [] => []
  | x :: l' => if (n =? 0)%N then [] else x :: take_N (N.pred n) l'
  end.

Fixpoint drop_N {A} (n : N) (l : list A) : list A :=
  match l with
  | [] => []
  | x :: l' => if (n =? 0)%N then l else drop_N (N.pred n) l'
  end.

(** The buffer size of both copy loops, [1024 * 1024]. *)
Definition BUFSIZE : N := 1024 * 1024.

(** The copy loop shared by [upload_chunk] and [upload_complete]:
<<
    while True:
        data = f.read(1024 * 1024)
        if not data:
            break
        output.write(data)
>>
    [rest] is what remains to be read of the source, [out] what has been
    written so far.  Every round with data consumes at least one byte. *)
Fixpoint copy_loop (fuel : nat) (rest out : bytes) : bytes :=
  match fuel with
  | O => out
  | S f =>
      match take_N BUFSIZE rest with
      | [] => out
      | data => copy_loop f (drop_N BUFSIZE rest) (out ++ data)
      end
  end.

Definition copy_stream (src out : bytes) : bytes :=
  copy_loop (S (length src)) src out.

Fixpoint startswith (s pre : string) {struct pre} : bool :=
  match pre, s with
  | EmptyString, _ => true
  | String a pre', String b s' => Ascii.eqb a b && startswith s' pre'
  | String _ _, EmptyString => false
  end.

Fixpoint endswith (s suf : string) : bool :=
  String.eqb s suf ||
  match s with
  | String _ r => endswith r suf
  | EmptyString => false
  end.

Fixpoint str_drop (n : nat) (s : string) : string :=
  match n, s with
  | S n', String _ r => str_drop n' r
  | _, _ => s
  end.

(** ** Configuration *)

Record UploadConfig := {
  upload_dir : string;
  chunk_dir : string;
  max_file_size_mb : Z;
  default_chunk_size_mb : Z;
  min_chunk_size_mb : Z;
  max_chunk_size_mb : Z;
  max_concurrency : Z
}.

Definition max_file_size_bytes (c : UploadConfig) : Z :=
  max_file_size_mb c * 1024 * 1024.

Definition default_chunk_size_bytes (c : UploadConfig) : Z :=
  default_chunk_size_mb c * 1024 * 1024.

Definition max_chunk_size_bytes (c : UploadConfig) : Z :=
  max_chunk_size_mb c * 1024 * 1024.

(** The [defaults] of [load_upload_config]. *)
Definition defaults : UploadConfig := {|
  upload_dir := "uploads/files";
  chunk_dir := "uploads/chunks";
  max_file_size_mb := 51200;
  default_chunk_size_mb := 10;
  min_chunk_size_mb := 2;
  max_chunk_size_mb := 32;
  max_concurrency := 3
|}.

(** ** Data model *)

(** A value of [upload_sessions]. *)
Record session_info := {
  si_filename : string;
  si_size : Z;
  si_mime : string;
  si_client_msg_id : string;
  si_created_at : string
}.

(** A value of [uploaded_files]. *)
Record entry := {
  file_id : string;
  original_name : string;
  stored_name : string;
  entry_size : Z;
  entry_mime : string;
  uploaded_at : string;
  entry_client_msg_id : string;
  url : string
}.

Record Message := {
  msg_id : string;
  user : string;
  text : string;
  ts : string;
  kind : string;
  file : option entry;
  client_msg_id : option string
}.

(** An uploaded part as [request.files] delivers it (a werkzeug
    [FileStorage]): the file name of the part and the bytes of its stream.
    Such an object is truthy exactly when its file name is non-empty. *)
Record FileStorage := {
  storage_filename : string;
  storage_stream : bytes
}.

Definition storage_truthy (f : FileStorage) : bool :=
  nonempty (storage_filename f).

Abbreviation directory := (gmap string bytes).

(** The module-level dictionaries and lists, and the two directory roots.
    [terminal_sessions] keeps the user name of each terminal session;
    [emitted] collects the events passed to [socketio.emit]. *)
Record state := {
  upload_sessions : gmap string session_info;
  uploaded_files : gmap string entry;
  terminal_sessions : gmap string string;
  messages : list Message;
  emitted : list Message;
  chunk_root : gmap string directory;
  upload_root : gmap string bytes
}.

Definition with_sessions (r : gmap string session_info) (s : state) : state :=
  {| upload_sessions := r; uploaded_files := uploaded_files s;
     terminal_sessions := terminal_sessions s; messages := messages s;
     emitted := emitted s;
     chunk_root := chunk_root s; upload_root := upload_root s |}.

Definition with_chunk_root (t : gmap string directory) (s : state) : state :=
  {| upload_sessions := upload_sessions s; uploaded_files := uploaded_files s;
     terminal_sessions := terminal_sessions s; messages := messages s;
     emitted := emitted s;
     chunk_root := t; upload_root := upload_root s |}.

Definition with_upload_root (t : gmap string bytes) (s : state) : state :=
  {| upload_sessions := upload_sessions s; uploaded_files := uploaded_files s;
     terminal_sessions := terminal_sessions s; messages := messages s;
     emitted := emitted s;
     chunk_root := chunk_root s; upload_root := t |}.

(** The error texts of the handlers, one constructor per text. *)
Inductive error_msg :=
| FileInfoIncomplete    (* 文件信息不完整 *)
| FileOverLimit         (* 文件超过大小限制 *)
| SessionMissing        (* 上传会话不存在 *)
| ChunkInfoIncomplete   (* 分片信息不完整 *)
| ChunkIndexIllegal     (* 分片序号非法 *)
| ChunkIndexOutOfRange  (* 分片序号越界 *)
| ChunkCountIllegal     (* 分片数量非法 *)
| ChunkDirMissing       (* 分片目录不存在 *)
| ChunksIncomplete      (* 分片不完整 *).

Inductive exn := KeyError | OSError.

(** What a handler hands back: the JSON body and the status code, or an
    exception that escapes the handler. *)
Inductive response :=
| Failure (msg : error_msg) (status : Z)
| InitOk (upload_id : string) (chunk_size max_conc max_file_size : Z)
| ChunkOk
| CompleteOk (f : entry)
| Unhandled (e : exn).

(** The vocabulary of the specification for failures: every error text of
    the handlers belongs to one error kind. *)
Inductive error_kind :=
| InvalidRequest | FileTooLarge | SessionNotFound | InvalidChunkIndex
| IncompleteRequest | IncompleteUpload | StagingDirectoryMissing.

Definition kind_of (m : error_msg) : error_kind :=
  match m with
  | FileInfoIncomplete => InvalidRequest
  | FileOverLimit => FileTooLarge
  | SessionMissing => SessionNotFound
  | ChunkInfoIncomplete => IncompleteRequest
  | ChunkIndexIllegal => InvalidChunkIndex
  | ChunkIndexOutOfRange => InvalidChunkIndex
  | ChunkCountIllegal => InvalidRequest
  | ChunkDirMissing => StagingDirectoryMissing
  | ChunksIncomplete => IncompleteUpload
  end.

Definition error_of (r : response) : option error_kind :=
  match r with
  | Failure m _ => Some (kind_of m)
  | _ => None
  end.

Definition status_of (r : response) : Z :=
  match r with
  | Failure _ st => st
  | Unhandled _ => 500
  | _ => 200
  end.

(** ** Storage layout *)

(** [f"chunk_{index:06d}.part"] *)
Definition chunk_name (index : Z) : string :=
  "chunk_" +:+ format_0d 6 index +:+ ".part".

(** Names matched by the pattern [chunk_*.part]. *)
Definition glob_chunk_part (name : string) : bool :=
  startswith name "chunk_" && endswith (str_drop 6 name) ".part".

(** [path.mkdir(parents=True, exist_ok=True)] below the chunk root. *)
Definition mkdir_p (name : string) (t : gmap string directory)
  : gmap string directory :=
  match t !! name with
  | Some _ => t
  | None => <[name := ∅]> t
  end.

(** [(chunk_dir / name).exists()] *)
Definition chunk_exists (d : directory) (index : Z) : bool :=
  match d !! chunk_name index with
  | Some _ => true
  | None => false
  end.

(** The body of [with final_path.open("wb") as output]: every chunk file in
    turn is copied to the output. *)
Definition assemble (d : directory) (indices : list Z) : bytes :=
  foldl (fun out index => copy_stream (default [] (d !! chunk_name index)) out)
        [] indices.

(** The contents of the chunk files 0, 1, ..., [total - 1] of a staging
    directory, in this order. *)
Definition chunk_contents (d : directory) (total : Z) : list bytes :=
  (fun index => default [] (d !! chunk_name index)) <$> range total.

(** [for chunk_path in chunk_dir.glob("chunk_*.part"): chunk_path.unlink()] *)
Definition unlink_chunks (d : directory) : directory :=
  filter (fun kv => glob_chunk_part kv.1 = false) d.

(** The file system takes file names of at most [NAME_MAX] bytes; beyond
    that [open] raises [OSError] ("File name too long").  A name goes to
    the file system in UTF-8: one byte for a code point below 128, two
    bytes for the others. *)
Definition NAME_MAX : nat := 255.

Fixpoint name_bytes (name : string) : nat :=
  match name with
  | EmptyString => 0%nat
  | String c r =>
      ((if (N_of_ascii c <? 128)%N then 1 else 2) + name_bytes r)%nat
  end.

Definition name_fits (name : string) : bool :=
  (name_bytes name <=? NAME_MAX)%nat.

(** ** Requests *)

(** The JSON body of [POST /api/upload/init]. *)
Record init_request := {
  json_filename : option string;
  json_size : option Z;
  json_mime : option string;
  json_client_msg_id : option string
}.

(** The multipart form of [POST /api/upload/chunk]. *)
Record chunk_request := {
  form_upload_id : option string;
  form_index : option string;
  form_total_chunks : option string;
  files_chunk : option FileStorage
}.

(** The JSON body of [POST /api/upload/complete]. *)
Record complete_request := {
  body_upload_id : option string;
  body_total_chunks : option Z
}.

(** What [upload_complete] reads from its environment: [datetime.utcnow()],
    [int(time.time() * 1000)], [time.strftime("%H:%M:%S")] and
    [session.get("terminal_session_id")]. *)
Record complete_env := {
  utcnow : string;
  time_ms : Z;
  strftime : string;
  cookie_terminal_session_id : option string
}.

(** ** The handlers *)

Section Handlers.

(** [UPLOAD_CONFIG], [werkzeug.utils.secure_filename] and
    [url_for("serve_media", file_id=...)]. *)
Context (UPLOAD_CONFIG : UploadConfig).
Context (secure_filename : string -> string).
Context (url_for_serve_media : string -> string).

(** [upload_init]; [uuid4] is the value of [str(uuid4())] (36 characters,
    well within the file-name limit) and [now] the creation time stamp. *)
Definition upload_init (req : init_request) (uuid4 now : string) (s : state)
  : response * state :=
  let filename := strip (default "" (json_filename req)) in
  let size := default 0 (json_size req) in
  let mime := strip (default "" (json_mime req)) in
  let client_msg_id := strip (default "" (json_client_msg_id req)) in
  if negb (nonempty filename) || (size <=? 0) then
    (Failure FileInfoIncomplete 400, s)
  else if size >? max_file_size_bytes UPLOAD_CONFIG then
    (Failure FileOverLimit 413, s)
  else
    let upload_id := uuid4 in
    let info := {| si_filename := filename; si_size := size; si_mime := mime;
                   si_client_msg_id := client_msg_id; si_created_at := now |} in
    let s1 := with_sessions (<[upload_id := info]> (upload_sessions s)) s in
    let s2 := with_chunk_root (mkdir_p upload_id (chunk_root s1)) s1 in
    (InitOk upload_id (default_chunk_size_bytes UPLOAD_CONFIG)
            (max_concurrency UPLOAD_CONFIG) (max_file_size_bytes UPLOAD_CONFIG),
     s2).

(** [upload_chunk], lines 201-218: everything up to the bounds check.  The
    result is either the response of an early return or the validated
    upload identifier, index and uploaded part. *)
Definition chunk_validate (req : chunk_request) (s : state)
  : response + (string * Z * FileStorage) :=
  let upload_id := strip (default "" (form_upload_id req)) in
  let index_raw := strip (default "" (form_index req)) in
  let total_raw := strip (default "" (form_total_chunks req)) in
  let chunk_file := files_chunk req in
  if negb (nonempty upload_id) then inl (Failure SessionMissing 404)
  else
    match upload_sessions s !! upload_id with
    | None => inl (Failure SessionMissing 404)
    | Some _ =>
        match chunk_file with
        | None => inl (Failure ChunkInfoIncomplete 400)
        | Some cf =>
            if negb (storage_truthy cf) || negb (nonempty index_raw)
               || negb (nonempty total_raw)
            then inl (Failure ChunkInfoIncomplete 400)
            else
              match int_of_str index_raw, int_of_str total_raw with
              | Some index, Some total_chunks =>
                  if (index <? 0) || (total_chunks <=? 0)
                     || (index >=? total_chunks)
                  then inl (Failure ChunkIndexOutOfRange 400)
                  else inr (upload_id, index, cf)
              | _, _ => inl (Failure ChunkIndexIllegal 400)
              end
        end
    end.

(** [upload_chunk], lines 220-232: create the staging directory if needed,
    open the chunk file for writing (truncating it) and copy the stream
    from its start.  [chunk_path.open("wb")] raises [OSError] when the
    name of the chunk file is too long for the file system; the staging
    directory has been created by then and nothing is written. *)
Definition chunk_store (upload_id : string) (index : Z) (cf : FileStorage)
  (s : state) : response * state :=
  let root := mkdir_p upload_id (chunk_root s) in
  if negb (name_fits (chunk_name index)) then
    (Unhandled OSError, with_chunk_root root s)
  else
    let dir := default ∅ (root !! upload_id) in
    let data := copy_stream (storage_stream cf) [] in
    (ChunkOk,
     with_chunk_root (<[upload_id := <[chunk_name index := data]> dir]> root) s).

Definition upload_chunk (req : chunk_request) (s : state) : response * state :=
  match chunk_validate req s with
  | inl r => (r, s)
  | inr (upload_id, index, cf) => chunk_store upload_id index cf s
  end.

(** [upload_complete], lines 237-244: the membership test on
    [upload_sessions] and the check of [total_chunks]. *)
Definition complete_validate (req : complete_request) (s : state)
  : response + (string * Z) :=
  let upload_id := strip (default "" (body_upload_id req)) in
  let total_chunks := default 0 (body_total_chunks req) in
  if negb (nonempty upload_id) then inl (Failure SessionMissing 404)
  else
    match upload_sessions s !! upload_id with
    | None => inl (Failure SessionMissing 404)
    | Some _ =>
        if total_chunks <=? 0 then inl (Failure ChunkCountIllegal 400)
        else inr (upload_id, total_chunks)
    end.

(** The user name attached to the completion message. *)
Definition acting_username (env : complete_env) (s : state) : string :=
  match cookie_terminal_session_id env with
  | Some t =>
      if nonempty t then default "Anonymous" (terminal_sessions s !! t)
      else "Anonymous"
  | None => "Anonymous"
  end.

(** [upload_complete], lines 255-256: the name of the finished file. *)
Definition final_name (upload_id : string) (session_info : session_info)
  : string :=
  let safe_name :=
    let n := secure_filename (si_filename session_info) in
    if nonempty n then n else upload_id +:+ ".bin" in
  upload_id +:+ "_" +:+ safe_name.

(** [upload_complete], lines 246-301: [upload_sessions.pop] (which raises
    [KeyError] on an absent key), the staging checks, the assembly
    ([final_path.open("wb")] raises [OSError] when the stored name is too
    long for the file system: the session is gone by then, the staging
    directory stays), the cleanup ([rmdir] raises [OSError] on a directory
    that is not empty) and the registration of the finished file. *)
Definition complete_consume (upload_id : string) (total_chunks : Z)
  (env : complete_env) (s : state) : response * state :=
  match upload_sessions s !! upload_id with
  | None => (Unhandled KeyError, s)
  | Some session_info =>
      let s1 := with_sessions (delete upload_id (upload_sessions s)) s in
      match chunk_root s1 !! upload_id with
      | None => (Failure ChunkDirMissing 404, s1)
      | Some dir =>
          if negb (forallb (chunk_exists dir) (range total_chunks)) then
            (Failure ChunksIncomplete 400, s1)
          else
            let stored_name := final_name upload_id session_info in
            if negb (name_fits stored_name) then (Unhandled OSError, s1) else
            let output := assemble dir (range total_chunks) in
            let s2 := with_upload_root (<[stored_name := output]> (upload_root s1)) s1 in
            let dir' := unlink_chunks dir in
            if negb (bool_decide (size dir' = 0%nat)) then
              (Unhandled OSError,
               with_chunk_root (<[upload_id := dir']> (chunk_root s2)) s2)
            else
              let s3 := with_chunk_root (delete upload_id (chunk_root s2)) s2 in
              let e := {| file_id := upload_id;
                          original_name := si_filename session_info;
                          stored_name := stored_name;
                          entry_size := si_size session_info;
                          entry_mime := si_mime session_info;
                          uploaded_at := utcnow env;
                          entry_client_msg_id := si_client_msg_id session_info;
                          url := url_for_serve_media upload_id |} in
              let msg := {| msg_id := format_0d 0 (time_ms env) +:+ "-" +:+ upload_id;
                            user := acting_username env s3;
                            text := original_name e;
                            ts := strftime env;
                            kind := "file";
                            file := Some e;
                            client_msg_id :=
                              if nonempty (entry_client_msg_id e)
                              then Some (entry_client_msg_id e) else None |} in
              (CompleteOk e,
               {| upload_sessions := upload_sessions s3;
                  uploaded_files := <[upload_id := e]> (uploaded_files s3);
                  terminal_sessions := terminal_sessions s3;
                  messages := messages s3 ++ [msg];
                  emitted := emitted s3 ++ [msg];
                  chunk_root := chunk_root s3;
                  upload_root := upload_root s3 |})
      end
  end.

Definition upload_complete (req : complete_request) (env : complete_env)
  (s : state) : response * state :=
  match complete_validate req s with
  | inl r => (r, s)
  | inr (upload_id, total_chunks) =>
      complete_consume upload_id total_chunks env s
  end.

(** ** Runs of the server *)

Inductive request :=
| Init (req : init_request) (uuid4 now : string)
| PutChunk (req : chunk_request)
| Complete (req : complete_request) (env : complete_env).

Definition handle (r : request) (s : state) : response * state :=
  match r with
  | Init req uuid4 now => upload_init req uuid4 now s
  | PutChunk req => upload_chunk req s
  | Complete req env => upload_complete req env s
  end.

(** The state after handling the requests one after the other. *)
Definition run (rs : list request) (s : state) : state :=
  foldl (fun s r => (handle r s).2) s rs.

(** ** Handlers running concurrently

    No upload handler takes a lock ([_clients_lock] is only held by
    [handle_register], [handle_disconnect] and [_client_names]), so
    another handler can run between the membership test on
    [upload_sessions] and what follows it.  A thread is a handler
    invocation; it is either about to start, or past its validation, or
    has returned. *)

Inductive thread :=
| ChunkStart (req : chunk_request)
| ChunkValidated (upload_id : string) (index : Z) (cf : FileStorage)
| CompleteStart (req : complete_request) (env : complete_env)
| CompleteValidated (upload_id : string) (total_chunks : Z) (env : complete_env)
| Returned (r : response).

Definition thread_step (th : thread) (s : state) : thread * state :=
  match th with
  | ChunkStart req =>
      match chunk_validate req s with
      | inl r => (Returned r, s)
      | inr (upload_id, index, cf) => (ChunkValidated upload_id index cf, s)
      end
  | ChunkValidated upload_id index cf =>
      let '(r, s') := chunk_store upload_id index cf s in (Returned r, s')
  | CompleteStart req env =>
      match complete_validate req s with
      | inl r => (Returned r, s)
      | inr (upload_id, total_chunks) =>
          (CompleteValidated upload_id total_chunks env, s)
      end
  | CompleteValidated upload_id total_chunks env =>
      let '(r, s') := complete_consume upload_id total_chunks env s in
      (Returned r, s')
  | Returned r => (Returned r, s)
  end.

(** A schedule names the thread that takes the next step. *)
Fixpoint run_schedule (sched : list nat) (ths : list thread) (s : state)
  : list thread * state :=
  match sched with
  | [] => (ths, s)
  | i :: sched' =>
      match ths !! i with
      | Some th =>
          let '(th', s') := thread_step th s in
          run_schedule sched' (<[i := th']> ths) s'
      | None => run_schedule sched' ths s
      end
  end.

End Handlers.

(** The state after [_clean_upload_dirs()] at start-up: no upload session,
    no finished file, two empty directory roots. *)
Definition started (s : state) : Prop :=
  upload_sessions s = ∅ /\ uploaded_files s = ∅ /\
  chunk_root s = ∅ /\ upload_root s = ∅.

Definition initial_state : state :=
  {| upload_sessions := ∅; uploaded_files := ∅; terminal_sessions := ∅;
     messages := []; emitted := []; chunk_root := ∅; upload_root := ∅ |}.

(** Every live session has its staging directory, and staging directories
    hold nothing but chunk files. *)
Definition staging_consistent (s : state) : Prop :=
  (forall upload_id, is_Some (upload_sessions s !! upload_id) ->
     is_Some (chunk_root s !! upload_id)) /\
  (forall upload_id (d : directory) name, chunk_root s !! upload_id = Some d ->
     is_Some (d !! name) -> glob_chunk_part name = true).

(** The request field [raw] names the live session [upload_id]: the
    stripped field is a non-empty key of [upload_sessions]. *)
Definition names_live_session (raw : option string) (s : state)
  (upload_id : string) : Prop :=
  strip (default "" raw) = upload_id /\ nonempty upload_id = true /\
  is_Some (upload_sessions s !! upload_id).

(** The chunk file of [index] exists in the staging directory of
    [upload_id]. *)
Definition chunk_present (s : state) (upload_id : string) (index : Z) : Prop :=
  exists d : directory,
    chunk_root s !! upload_id = Some d /\ is_Some (d !! chunk_name index).

(** The chunk root once the chunk file of [index] holds [data]. *)
Definition write_chunk_file (upload_id : string) (index : Z) (data : bytes)
  (root : gmap string directory) : gmap string directory :=
  <[upload_id := <[chunk_name index := data]> (default ∅ (root !! upload_id))]> root.

(** The chunk root after [chunk_store]: the chunk file holds [data] when
    its name fits the file system, otherwise only the staging directory
    has been made. *)
Definition store_chunk_file (upload_id : string) (index : Z) (data : bytes)
  (root : gmap string directory) : gmap string directory :=
  if name_fits (chunk_name index)
  then write_chunk_file upload_id index data root
  else mkdir_p upload_id root.

(** The state after a series of chunk requests. *)
Definition put_chunks (reqs : list chunk_request) (s : state) : state :=
  foldl (fun s r => (upload_chunk r s).2) s reqs.

(** The session and index a chunk request writes to, when it is accepted. *)
Definition chunk_target (s : state) (r : chunk_request) : option (string * Z) :=
  match chunk_validate r s with
  | inr (upload_id, index, _) => Some (upload_id, index)
  | inl _ => None
  end.

(** What the socket handlers ([handle_register], [handle_message],
    [handle_disconnect]) may change of the state: the terminal sessions and
    the messages. *)
Definition with_chat (ts : gmap string string) (ms es : list Message)
  (s : state) : state :=
  {| upload_sessions := upload_sessions s; uploaded_files := uploaded_files s;
     terminal_sessions := ts; messages := ms; emitted := es;
     chunk_root := chunk_root s; upload_root := upload_root s |}.

(** The states the server reaches from start-up by handling requests. *)
Inductive reachable (cfg : UploadConfig) (secure_filename url_for : string -> string)
  : state -> Prop :=
| reachable_start s : started s -> reachable cfg secure_filename url_for s
| reachable_step s r :
    reachable cfg secure_filename url_for s ->
    reachable cfg secure_filename url_for
      (handle cfg secure_filename url_for r s).2
| reachable_chat s ts ms es :
    reachable cfg secure_filename url_for s ->
    reachable cfg secure_filename url_for (with_chat ts ms es s).

(** ** Serving finished files *)

(** What [serve_media] hands back: the pair ["Not Found", 404], or the
    call of [send_file] with its arguments, together with the bytes of the
    file the call names. *)
Inductive media_response :=
| NotFound
| SendFile (file_path : string) (body : bytes) (mimetype : option string)
           (as_attachment : bool) (download_name : string).

(** [serve_media]; [args_download] is [request.args.get("download")].  An
    entry of [uploaded_files] is a dictionary with eight keys, so it is
    never falsy: [not entry] holds exactly for an absent key. *)
Definition serve_media (file_id : string) (args_download : option string)
  (s : state) : media_response :=
  let download := bool_decide (args_download = Some "1") in
  match uploaded_files s !! file_id with
  | None => NotFound
  | Some entry =>
      match upload_root s !! stored_name entry with
      | None => NotFound
      | Some body =>
          SendFile (stored_name entry) body
                   (if nonempty (entry_mime entry)
                    then Some (entry_mime entry) else None)
                   download (original_name entry)
      end
  end.

(** ** The socket handlers *)

(** [clients] is a [dict] whose values are listed in insertion order by
    [_client_names]: a list of pairs with at most one pair per key.
    Assigning to a key that is present keeps its place, a new key goes to
    the end. *)
Fixpoint dict_get {V} (k : string) (d : list (string * V)) : option V :=
  match d with
  | [] => None
  | (k', v) :: d' => if decide (k = k') then Some v else dict_get k d'
  end.

Fixpoint dict_set {V} (k : string) (v : V) (d : list (string * V))
  : list (string * V) :=
  match d with
  | [] => [(k, v)]
  | (k', v') :: d' =>
      if decide (k = k') then (k, v) :: d' else (k', v') :: dict_set k v d'
  end.

Fixpoint dict_pop {V} (k : string) (d : list (string * V))
  : list (string * V) :=
  match d with
  | [] => []
  | (k', v') :: d' =>
      if decide (k = k') then dict_pop k d' else (k', v') :: dict_pop k d'
  end.

(** [list(d.values())] *)
Definition dict_values {V} (d : list (string * V)) : list V := d.*2.

(** The whole server.  [upload] holds what the upload handlers use.  The
    record of a terminal session, [{"username": ..., "sids": ...}], is kept
    in two maps with the same keys: the user name in [terminal_sessions] of
    [upload], the set of socket ids in [terminal_sids].  Events are kept
    per event name: ["message"] broadcasts in [emitted] of [upload],
    ["clients"] broadcasts in [emitted_clients], and the ["history"] events
    with the socket they are sent to in [emitted_history]. *)
Record server := {
  upload : state;
  terminal_sids : gmap string (gset string);
  sid_to_terminal_session : gmap string string;
  clients : list (string * string);
  emitted_clients : list (list string);
  emitted_history : list (string * list Message)
}.

Definition with_upload (s : state) (sv : server) : server :=
  {| upload := s; terminal_sids := terminal_sids sv;
     sid_to_terminal_session := sid_to_terminal_session sv;
     clients := clients sv; emitted_clients := emitted_clients sv;
     emitted_history := emitted_history sv |}.

(** [_client_names] *)
Definition _client_names (sv : server) : list string :=
  dict_values (clients sv).

(** [emit_clients] *)
Definition emit_clients (sv : server) : server :=
  {| upload := upload sv; terminal_sids := terminal_sids sv;
     sid_to_terminal_session := sid_to_terminal_session sv;
     clients := clients sv;
     emitted_clients := emitted_clients sv ++ [_client_names sv];
     emitted_history := emitted_history sv |}.

(** The payload of a [register] event. *)
Record register_data := {
  data_username : option string
}.

(** The payload of a [message] event.  The handler tells an absent [text]
    ([None]) from one that is present; a value that is present and not a
    string (such as [null]) is [Some None]. *)
Record message_data := {
  data_text : option (option string)
}.

Inductive register_error :=
| NameEmpty     (* 终端名称不能为空 *)
| NameTooLong   (* 终端名称不能超过 24 个字符 *).

(** The acknowledgement of [handle_register]: [{"ok": True}] or
    [{"ok": False, "error": ...}]. *)
Inductive register_reply :=
| RegisterOk
| RegisterError (e : register_error).

(** [handle_register]; [sid] is [request.sid], [cookie] the value of
    [session.get("terminal_session_id")] and [uuid4] the value of
    [str(uuid4())].  The result holds the acknowledgement, the value of
    [session["terminal_session_id"]] afterwards and the new state. *)
Definition handle_register (data : option register_data) (sid : string)
  (cookie : option string) (uuid4 : string) (sv : server)
  : register_reply * option string * server :=
  let username := strip (default "" (data ≫= data_username)) in
  if negb (nonempty username) then (RegisterError NameEmpty, cookie, sv)
  else if (24 <? String.length username)%nat then
    (RegisterError NameTooLong, cookie, sv)
  else
    let terminal_session_id :=
      match cookie with
      | Some t => if nonempty t then t else uuid4
      | None => uuid4
      end in
    let s := upload sv in
    let sids := default ∅ (terminal_sids sv !! terminal_session_id) in
    let sv1 :=
      {| upload := with_chat (<[terminal_session_id := username]>
                                (terminal_sessions s))
                             (messages s) (emitted s) s;
         terminal_sids := <[terminal_session_id := sids ∪ {[sid]}]>
                            (terminal_sids sv);
         sid_to_terminal_session :=
           <[sid := terminal_session_id]> (sid_to_terminal_session sv);
         clients := dict_set sid username (clients sv);
         emitted_clients := emitted_clients sv;
         emitted_history := emitted_history sv ++ [(sid, messages s)] |} in
    (RegisterOk, Some terminal_session_id, emit_clients sv1).

(** [(data or {}).get("text", "")]: the empty string for a payload that
    is falsy or has no [text], otherwise the value of [text]; [None] when
    that value is not a string. *)
Definition message_text (data : option message_data) : option string :=
  match data with
  | Some d => default (Some "") (data_text d)
  | None => Some ""
  end.

(** [handle_message]; [time_ms] is [int(time.time() * 1000)] and
    [strftime] is [time.strftime("%H:%M:%S")].  [None] stands for the
    [AttributeError] of calling [strip] on a [text] that is not a string;
    it is raised before anything is changed. *)
Definition handle_message (data : option message_data) (sid : string)
  (time_ms : Z) (strftime : string) (sv : server) : option server :=
  match message_text data with
  | None => None
  | Some raw =>
      let text := strip raw in
      if negb (nonempty text) then Some sv
      else
        let username := default "Anonymous" (dict_get sid (clients sv)) in
        let msg := {| msg_id := format_0d 0 time_ms +:+ "-" +:+ sid;
                      user := username;
                      text := text;
                      ts := strftime;
                      kind := "text";
                      file := None;
                      client_msg_id := None |} in
        let s := upload sv in
        Some (with_upload
                (with_chat (terminal_sessions s) (messages s ++ [msg])
                           (emitted s ++ [msg]) s) sv)
  end.

(** [handle_disconnect] *)
Definition handle_disconnect (sid : string) (sv : server) : server :=
  let removed := bool_decide (is_Some (dict_get sid (clients sv))) in
  let clients1 := if removed then dict_pop sid (clients sv) else clients sv in
  let terminal_session_id := sid_to_terminal_session sv !! sid in
  let s := upload sv in
  let '(sessions1, sids1) :=
    match terminal_session_id with
    | Some t =>
        if nonempty t && bool_decide (is_Some (terminal_sessions s !! t)) then
          let sids := default ∅ (terminal_sids sv !! t) ∖ {[sid]} in
          if bool_decide (sids = ∅)
          then (delete t (terminal_sessions s), delete t (terminal_sids sv))
          else (terminal_sessions s, <[t := sids]> (terminal_sids sv))
        else (terminal_sessions s, terminal_sids sv)
    | None => (terminal_sessions s, terminal_sids sv)
    end in
  let sv1 :=
    {| upload := with_chat sessions1 (messages s) (emitted s) s;
       terminal_sids := sids1;
       sid_to_terminal_session := delete sid (sid_to_terminal_session sv);
       clients := clients1;
       emitted_clients := emitted_clients sv;
       emitted_history := emitted_history sv |} in
  if removed then emit_clients sv1 else sv1.

(** ** Runs of the whole server *)

Section Server.

Context (UPLOAD_CONFIG : UploadConfig).
Context (secure_filename : string -> string).
Context (url_for_serve_media : string -> string).

(** One event at the server: an upload request or a socket event. *)
Inductive action :=
| Http (r : request)
| Register (data : option register_data) (sid : string)
           (cookie : option string) (uuid4 : string)
| Chat (data : option message_data) (sid : string) (time_ms : Z)
       (strftime : string)
| Disconnect (sid : string).

(** The state after an event; an exception that escapes [handle_message]
    leaves the state as it was. *)
Definition act (a : action) (sv : server) : server :=
  match a with
  | Http r =>
      with_upload
        (handle UPLOAD_CONFIG secure_filename url_for_serve_media r
                (upload sv)).2 sv
  | Register data sid cookie uuid4 =>
      (handle_register data sid cookie uuid4 sv).2
  | Chat data sid time_ms strftime =>
      default sv (handle_message data sid time_ms strftime sv)
  | Disconnect sid => handle_disconnect sid sv
  end.

Definition serve (acts : list action) (sv : server) : server :=
  foldl (fun sv a => act a sv) sv acts.

End Server.

(** The server once the module is loaded: every dictionary and list is
    empty and [_clean_upload_dirs()] has emptied both directory roots. *)
Definition server_start : server :=
  {| upload := initial_state; terminal_sids := ∅;
     sid_to_terminal_session := ∅; clients := [];
     emitted_clients := []; emitted_history := [] |}.

(** The states of the whole server reached from start-up. *)
Inductive server_reachable (cfg : UploadConfig)
  (secure_filename url_for : string -> string) : server -> Prop :=
| server_reachable_start :
    server_reachable cfg secure_filename url_for server_start
| server_reachable_act sv a :
    server_reachable cfg secure_filename url_for sv ->
    server_reachable cfg secure_filename url_for
      (act cfg secure_filename url_for a sv).

(** A name as [handle_register] stores it: not empty, at most 24
    characters, no white space at either end. *)
Definition valid_name (name : string) : Prop :=
  name <> "" /\ (String.length name <= 24)%nat /\ strip name = name.

(** The socket registry is consistent: [clients] and
    [sid_to_terminal_session] have the same keys, every socket is listed
    in the record of its terminal session, every record has a user name
    and at least one socket, and every stored name is a valid one. *)
Definition registry_consistent (sv : server) : Prop :=
  (forall sid, is_Some (dict_get sid (clients sv))
               <-> is_Some (sid_to_terminal_session sv !! sid)) /\
  (forall sid t, sid_to_terminal_session sv !! sid = Some t ->
     is_Some (terminal_sessions (upload sv) !! t) /\
     exists sids : gset string, terminal_sids sv !! t = Some sids /\ sid ∈ sids) /\
  (forall t, is_Some (terminal_sessions (upload sv) !! t)
             <-> is_Some (terminal_sids sv !! t)) /\
  (forall t (sids : gset string), terminal_sids sv !! t = Some sids -> sids <> ∅) /\
  (forall sid name, dict_get sid (clients sv) = Some name -> valid_name name) /\
  (forall t name, terminal_sessions (upload sv) !! t = Some name ->
     valid_name name).

(** Every finished file on record is on disk under its stored name, and
    its record is filed under its own identifier. *)
Definition files_on_record (s : state) : Prop :=
  forall id e, uploaded_files s !! id = Some e ->
    file_id e = id /\ is_Some (upload_root s !! stored_name e).

(** The chunk requests of a client that sends [parts] one after the other
    for the upload [upload_id]: request number [i] carries part [i], its
    index field reads as [i] and its total as some [total] above [i]. *)
Definition sends_parts (upload_id : string) (parts : list bytes)
  (reqs : list chunk_request) : Prop :=
  length reqs = length parts /\
  forall (i : nat) r, reqs !! i = Some r ->
    strip (default "" (form_upload_id r)) = upload_id /\
    int_of_str (strip (default "" (form_index r))) = Some (Z.of_nat i) /\
    (exists total,
       int_of_str (strip (default "" (form_total_chunks r))) = Some total /\
       Z.of_nat i < total) /\
    exists cf, files_chunk r = Some cf /\ storage_truthy cf = true /\
               parts !! i = Some (storage_stream cf).

(** What the upload handlers keep on record was checked by [upload_init]:
    the file name of every live session and of every finished file is not
    empty and has no white space at either end, and the declared size is
    positive and within the limit.  A finished file is filed under its own
    non-empty identifier, which starts its stored name. *)
Definition declared_ok (cfg : UploadConfig) (name : string) (size : Z) : Prop :=
  name <> "" /\ strip name = name /\ 0 < size <= max_file_size_bytes cfg.

Definition records_valid (cfg : UploadConfig) (url_for : string -> string)
  (s : state) : Prop :=
  (forall id info, upload_sessions s !! id = Some info ->
     declared_ok cfg (si_filename info) (si_size info)) /\
  (forall id e, uploaded_files s !! id = Some e ->
     id <> "" /\ file_id e = id /\
     declared_ok cfg (original_name e) (entry_size e) /\
     url e = url_for id /\
     exists safe_name,
       safe_name <> "" /\ stored_name e = id +:+ "_" +:+ safe_name).

(** A message as the handlers store it: its user is a registered name or
    ["Anonymous"], its text is not empty and has no white space at either
    end, and it is either a text message without a file or a file message
    whose text is the original name of its file. *)
Definition message_ok (m : Message) : Prop :=
  (user m = "Anonymous" \/ valid_name (user m)) /\
  text m <> "" /\ strip (text m) = text m /\
  ((kind m = "text" /\ file m = None /\ client_msg_id m = None) \/
   (kind m = "file" /\ exists f, file m = Some f /\ text m = original_name f)).

(** The upload a request is about: the identifier drawn for an init
    request, the stripped [upload_id] field of a chunk or completion
    request. *)
Definition request_target (r : request) : string :=
  match r with
  | Init _ uuid4 _ => uuid4
  | PutChunk req => strip (default "" (form_upload_id req))
  | Complete req _ => strip (default "" (body_upload_id req))
  end.



(** ** Sample data *)

Definition sample_id : string := "6fa459ea-ee8a-4ca4-894e-db77e160355e".

Definition sample_info : session_info :=
  {| si_filename := "report.pdf"; si_size := 3000000;
     si_mime := "application/pdf"; si_client_msg_id := "c1";
     si_created_at := "2024-05-01T10:00:00Z" |}.

(** The state right after a first [upload_init]. *)
Definition sample_state : state :=
  {| upload_sessions := {[ sample_id := sample_info ]};
     uploaded_files := ∅; terminal_sessions := ∅;
     messages := []; emitted := [];
     chunk_root := {[ sample_id := ∅ ]}; upload_root := ∅ |}.

Definition sample_chunk (index total : string) (data : bytes) : chunk_request :=
  {| form_upload_id := Some sample_id; form_index := Some index;
     form_total_chunks := Some total;
     files_chunk := Some {| storage_filename := "blob"; storage_stream := data |} |}.

Definition sample_complete (total : Z) : complete_request :=
  {| body_upload_id := Some sample_id; body_total_chunks := Some total |}.

Definition sample_env : complete_env :=
  {| utcnow := "2024-05-01T10:00:05Z"; time_ms := 1714557605000;
     strftime := "10:00:05"; cookie_terminal_session_id := None |}.

(** The sample session without its staging directory. *)
Definition sample_state_no_staging : state := with_chunk_root ∅ sample_state.

Definition sample_init : init_request :=
  {| json_filename := Some "report.pdf"; json_size := Some 3000000;
     json_mime := Some "application/pdf"; json_client_msg_id := Some "c1" |}.

Definition chunk0 : bytes := [Byte.x25; Byte.x50; Byte.x44; Byte.x46].

Definition chunk1 : bytes := [Byte.x0a; Byte.x45; Byte.x4f; Byte.x46].

(** An upload of two chunks, the second chunk arriving first. *)
Definition sample_requests : list request :=
  [ Init sample_init sample_id "2024-05-01T10:00:00Z";
    PutChunk (sample_chunk "1" "2" chunk1);
    PutChunk (sample_chunk "0" "2" chunk0) ].

(** The record of the finished sample upload. *)
Definition sample_entry : entry :=
  {| file_id := sample_id; original_name := "report.pdf";
     stored_name := sample_id +:+ "_report.pdf"; entry_size := 3000000;
     entry_mime := "application/pdf"; uploaded_at := "2024-05-01T10:00:05Z";
     entry_client_msg_id := "c1"; url := "/media/" +:+ sample_id |}.



(** A chunk request for the sample session that carries no [chunk] part. *)
Definition sample_chunk_without_part (index total : string) : chunk_request :=
  {| form_upload_id := Some sample_id; form_index := Some index;
     form_total_chunks := Some total; files_chunk := None |}.

(** Stand-ins for [secure_filename] and [url_for] in the examples. *)
Definition sample_secure_filename (name : string) : string := name.

Definition sample_url_for (file_id : string) : string := "/media/" +:+ file_id.

Definition sample_uploaded : state :=
  run defaults sample_secure_filename sample_url_for sample_requests
      initial_state.


(** A file name of 219 characters, which [secure_filename] leaves as it
    is: with the 36 characters of the identifier and the underscore, the
    name of the finished file has 256. *)
Definition long_name : string :=
  String.string_of_list_ascii (replicate 215 "a"%char) +:+ ".bin".

Definition long_name_init : init_request :=
  {| json_filename := Some long_name; json_size := Some 4;
     json_mime := None; json_client_msg_id := None |}.

(** An upload of one chunk under the long file name. *)
Definition long_name_requests : list request :=
  [ Init long_name_init sample_id "2024-05-01T10:00:00Z";
    PutChunk (sample_chunk "0" "1" chunk0) ].

Definition long_name_uploaded : state :=
  run defaults sample_secure_filename sample_url_for long_name_requests
      initial_state.


(** The sample upload once it is completed. *)
Definition sample_finished : state :=
  (upload_complete sample_secure_filename sample_url_for (sample_complete 2)
     sample_env sample_uploaded).2.

(** A terminal: its socket, its terminal session and what it sends. *)
Definition sample_sid : string := "Zk3vT0pQx1".

Definition sample_terminal : string := "0b5c1f0e-7d4e-4c58-9a53-2f1d0c6b7a11".

Definition sample_register : option register_data :=
  Some {| data_username := Some " alice " |}.

Definition sample_message : option message_data :=
  Some {| data_text := Some (Some " hello ") |}.

Definition sample_env_terminal : complete_env :=
  {| utcnow := "2024-05-01T10:00:05Z"; time_ms := 1714557605000;
     strftime := "10:00:05";
     cookie_terminal_session_id := Some sample_terminal |}.

(** The terminal registers and posts a message. *)
Definition sample_chat : list action :=
  [ Register sample_register sample_sid (Some sample_terminal) sample_id;
    Chat sample_message sample_sid 1714557600000 "10:00:00" ].

Definition sample_server : server :=
  serve defaults sample_secure_filename sample_url_for sample_chat server_start.

(** The same terminal after it has also staged the two chunks of the
    sample upload. *)
Definition sample_server_uploading : server :=
  serve defaults sample_secure_filename sample_url_for
        (Http <$> sample_requests) sample_server.
(** * Properties *)

(** ** The copy loop *)

Section CopyLoop.
Context {A : Type}.
Implicit Types l : list A.

Lemma take_drop_N n l : take_N n l ++ drop_N n l = l.
Proof.
  revert n; induction l as [|x l IH]; intros n; simpl; [done|].
  destruct (n =? 0)%N; simpl; [done|]. by rewrite IH.
Qed.

Lemma take_N_nil n l : (0 < n)%N -> take_N n l = [] -> l = [].
Proof.
  destruct l as [|x l]; simpl; [done|].
  intros Hn. destruct (N.eqb_spec n 0); [lia | discriminate].
Qed.

Lemma drop_N_shorter n l :
  (0 < n)%N -> l <> [] -> (length (drop_N n l) < length l)%nat.
Proof.
  intros Hn Hl. pose proof (take_drop_N n l) as E.
  assert (take_N n l <> []) as Ht by (intros Ht; by apply take_N_nil in Ht).
  apply (f_equal length) in E. rewrite length_app in E.
  destruct (take_N n l); [done | simpl in E; lia].
Qed.

End CopyLoop.

Lemma BUFSIZE_pos : (0 < BUFSIZE)%N.
Proof. reflexivity. Qed.

Lemma copy_loop_spec fuel (rest out : bytes) :
  (length rest < fuel)%nat -> copy_loop fuel rest out = out ++ rest.
Proof.
  revert rest out; induction fuel as [|fuel IH]; intros rest out Hf; [lia|].
  pose proof BUFSIZE_pos as Hb. simpl.
  destruct (take_N BUFSIZE rest) as [|b data] eqn:E.
  - apply take_N_nil in E; [subst rest | done]. by rewrite app_nil_r.
  - assert (rest <> []) as Hne by (intros ->; discriminate).
    pose proof (drop_N_shorter BUFSIZE rest Hb Hne).
    rewrite IH by lia.
    by rewrite <- app_assoc, <- E, take_drop_N.
Qed.

(** The copy loop transfers the whole source, whatever its length. *)
Lemma copy_stream_spec (src out : bytes) : copy_stream src out = out ++ src.
Proof. apply copy_loop_spec. lia. Qed.

Lemma assemble_from (d : directory) (indices : list Z) (out : bytes) :
  foldl (fun out index => copy_stream (default [] (d !! chunk_name index)) out)
        out indices
  = out ++ concat ((fun index => default [] (d !! chunk_name index)) <$> indices).
Proof.
  revert out; induction indices as [|i indices IH]; intros out; simpl.
  - by rewrite app_nil_r.
  - by rewrite IH, copy_stream_spec, <- app_assoc.
Qed.

Lemma assemble_spec (d : directory) (indices : list Z) :
  assemble d indices
  = concat ((fun index => default [] (d !! chunk_name index)) <$> indices).
Proof. unfold assemble. by rewrite assemble_from. Qed.

(** ** Decimal formatting *)

Lemma pos_size_nat_bound p : (N.pos p < 2 ^ N.of_nat (Pos.size_nat p))%N.
Proof.
  induction p as [p IH|p IH|]; cbn [Pos.size_nat];
    rewrite ?Nat2N.inj_succ, ?N.pow_succ_r'; lia.
Qed.

Lemma size_nat_bound n : (n < 2 ^ N.of_nat (N.size_nat n))%N.
Proof. destruct n as [|p]; [reflexivity | apply pos_size_nat_bound]. Qed.

Lemma ndigits_fuel_bound f n :
  (n < 2 ^ N.of_nat f)%N -> (n < 10 ^ N.of_nat (ndigits_fuel f n))%N.
Proof.
  revert n; induction f as [|f IH]; intros n Hn; cbn [ndigits_fuel].
  - simpl in *. lia.
  - destruct (N.ltb_spec n 10) as [Hlt|Hge]; [simpl; lia|].
    rewrite Nat2N.inj_succ, N.pow_succ_r' in *.
    assert (n / 10 < 2 ^ N.of_nat f)%N as Hq.
    { apply N.Div0.div_lt_upper_bound. lia. }
    specialize (IH _ Hq).
    pose proof (N.div_mod n 10 ltac:(lia)).
    pose proof (N.mod_upper_bound n 10 ltac:(lia)). lia.
Qed.

(** [ndigits] is large enough for every number. *)
Lemma ndigits_bound n : (n < 10 ^ N.of_nat (ndigits n))%N.
Proof. apply ndigits_fuel_bound, size_nat_bound. Qed.

Lemma ndigits_fuel_le f k n :
  (n < 10 ^ N.of_nat k)%N -> (1 <= k)%nat -> (ndigits_fuel f n <= k)%nat.
Proof.
  revert k n; induction f as [|f IH]; intros k n Hn Hk; cbn [ndigits_fuel]; [done|].
  destruct (N.ltb_spec n 10) as [Hlt|Hge]; [done|].
  destruct k as [|k]; [lia|].
  rewrite Nat2N.inj_succ, N.pow_succ_r' in Hn.
  assert (n / 10 < 10 ^ N.of_nat k)%N as Hq.
  { apply N.Div0.div_lt_upper_bound. lia. }
  destruct k as [|k]; [simpl in Hq; lia|].
  apply le_n_S, IH; [done | lia].
Qed.

Lemma zdigits_length k n : String.length (zdigits k n) = k.
Proof. induction k as [|k IH]; simpl; [done | by rewrite IH]. Qed.

Lemma digit_char_compare x y :
  (x < 10)%N -> (y < 10)%N ->
  Ascii.compare (digit_char x) (digit_char y) = (x ?= y)%N.
Proof.
  intros Hx Hy. unfold Ascii.compare, digit_char.
  rewrite !N_ascii_embedding by lia.
  destruct (N.compare_spec x y), (N.compare_spec (48 + x) (48 + y)); done || lia.
Qed.

Lemma string_compare_refl s : String.compare s s = Eq.
Proof.
  induction s as [|c s IH]; simpl; [done|].
  unfold Ascii.compare. by rewrite N.compare_refl.
Qed.

Lemma append_cons c x s : String c x +:+ s = String c (x +:+ s).
Proof. reflexivity. Qed.

Lemma compare_cons c x d y :
  String.compare (String c x) (String d y)
  = match Ascii.compare c d with
    | Eq => String.compare x y
    | Lt => Lt
    | Gt => Gt
    end.
Proof. reflexivity. Qed.

(** On numbers below [10 ^ k] the [k]-digit representation is ordered as
    the numbers are, whatever follows the digits. *)
Lemma zdigits_compare k a b s t :
  (a mod 10 ^ N.of_nat k < b mod 10 ^ N.of_nat k)%N ->
  String.compare (zdigits k a +:+ s) (zdigits k b +:+ t) = Lt.
Proof.
  induction k as [|k IH]; intros Hlt.
  - simpl in Hlt. rewrite !N.mod_1_r in Hlt. lia.
  - rewrite Nat2N.inj_succ, N.pow_succ_r', (N.mul_comm 10) in Hlt.
    rewrite !N.Div0.mod_mul_r in Hlt.
    set (K := (10 ^ N.of_nat k)%N) in *.
    assert (0 < K)%N as HK by (apply N.neq_0_lt_0, N.pow_nonzero; lia).
    pose proof (N.mod_upper_bound a K ltac:(lia)) as Ha.
    pose proof (N.mod_upper_bound b K ltac:(lia)) as Hb.
    pose proof (N.mod_upper_bound (a / K) 10 ltac:(lia)) as Hda.
    pose proof (N.mod_upper_bound (b / K) 10 ltac:(lia)) as Hdb.
    cbn [zdigits]. fold K. rewrite !append_cons, compare_cons.
    clearbody K.
    generalize dependent (a mod K)%N. generalize dependent (b mod K)%N.
    generalize dependent ((a / K) mod 10)%N.
    generalize dependent ((b / K) mod 10)%N. intros db Hdb da Hda rb Hb ra IH Hlt Ha.
    rewrite digit_char_compare by done.
    destruct (N.compare_spec da db) as [E|L|G].
    + apply IH. subst db. lia.
    + done.
    + exfalso.
      assert (K * (db + 1) <= K * da)%N as Hm by (apply N.mul_le_mono_l; lia).
      rewrite N.mul_add_distr_l, N.mul_1_r in Hm. lia.
Qed.

Lemma zdigits_inj k a b :
  (a < 10 ^ N.of_nat k)%N -> (b < 10 ^ N.of_nat k)%N ->
  zdigits k a = zdigits k b -> a = b.
Proof.
  intros Ha Hb E.
  assert (forall x y, (x < 10 ^ N.of_nat k)%N -> (y < 10 ^ N.of_nat k)%N ->
            (x < y)%N -> zdigits k x <> zdigits k y) as Hne.
  { intros x y Hx Hy Hxy Exy.
    pose proof (zdigits_compare k x y "" "") as C.
    rewrite !N.mod_small in C by done. specialize (C Hxy).
    rewrite Exy, string_compare_refl in C. discriminate. }
  destruct (N.lt_total a b) as [L|[->|G]]; [|done|].
  - by destruct (Hne a b).
  - by destruct (Hne b a).
Qed.

(** ** Chunk file names *)

Lemma format_0d_nonneg w z :
  0 <= z ->
  format_0d w z = zdigits (Nat.max w (ndigits (Z.to_N z))) (Z.to_N z).
Proof.
  intros Hz. unfold format_0d. by destruct (Z.ltb_spec z 0); [lia|].
Qed.

Lemma ndigits_le_6 n : (n < 10 ^ 6)%N -> Nat.max 6 (ndigits n) = 6%nat.
Proof.
  intros Hn. apply Nat.max_l. by apply ndigits_fuel_le; [|lia].
Qed.

Lemma append_length s t :
  String.length (s +:+ t) = (String.length s + String.length t)%nat.
Proof. induction s as [|c s IH]; simpl; [done | by rewrite IH]. Qed.

(** Below one million the index is printed with exactly six digits. *)
Lemma chunk_name_small index :
  0 <= index < 10 ^ 6 ->
  chunk_name index = "chunk_" +:+ zdigits 6 (Z.to_N index) +:+ ".part".
Proof.
  intros [H0 H1]. unfold chunk_name. rewrite format_0d_nonneg by done.
  rewrite ndigits_le_6; [done|]. change (10 ^ 6)%N with (Z.to_N (10 ^ 6)). lia.
Qed.

Lemma chunk_name_inj i j :
  0 <= i -> 0 <= j -> chunk_name i = chunk_name j -> i = j.
Proof.
  intros Hi Hj E. unfold chunk_name in E.
  rewrite !format_0d_nonneg in E by done.
  set (a := Z.to_N i) in *. set (b := Z.to_N j) in *.
  assert (a = b) as Hab; [|lia].
  assert (Nat.max 6 (ndigits a) = Nat.max 6 (ndigits b)) as Hk.
  { apply (f_equal String.length) in E.
    rewrite !append_length, !zdigits_length in E. simpl in E. lia. }
  rewrite <- Hk in E. set (k := Nat.max 6 (ndigits a)) in *.
  assert (a < 10 ^ N.of_nat k)%N as Ha.
  { eapply N.lt_le_trans; [apply ndigits_bound|].
    apply N.pow_le_mono_r; lia. }
  assert (b < 10 ^ N.of_nat k)%N as Hb.
  { eapply N.lt_le_trans; [apply ndigits_bound|].
    apply N.pow_le_mono_r; lia. }
  clearbody k a b.
  assert (forall x y, (x < 10 ^ N.of_nat k)%N -> (y < 10 ^ N.of_nat k)%N ->
            (x < y)%N ->
            "chunk_" +:+ zdigits k x +:+ ".part"
            <> "chunk_" +:+ zdigits k y +:+ ".part") as Hne.
  { intros x y Hx Hy Hxy Exy. injection Exy as Exy.
    change (zdigits k x +:+ ".part" = zdigits k y +:+ ".part") in Exy.
    pose proof (zdigits_compare k x y ".part" ".part") as C.
    rewrite !N.mod_small in C by done. specialize (C Hxy).
    rewrite Exy, string_compare_refl in C. discriminate. }
  destruct (N.lt_total a b) as [L|[->|G]]; [|done|].
  - by destruct (Hne a b).
  - by destruct (Hne b a).
Qed.

Lemma endswith_append s suf : endswith (s +:+ suf) suf = true.
Proof.
  induction s as [|c s IH].
  - change ("" +:+ suf) with suf. destruct suf as [|a suf]; [done|].
    cbn [endswith]. by rewrite String.eqb_refl.
  - rewrite append_cons. cbn [endswith]. rewrite IH. apply orb_true_r.
Qed.

(** Every chunk file name matches the pattern of the cleanup loop. *)
Lemma chunk_name_glob index : glob_chunk_part (chunk_name index) = true.
Proof.
  unfold glob_chunk_part, chunk_name.
  generalize (format_0d 6 index); intros x.
  change (str_drop 6 ("chunk_" +:+ x +:+ ".part")) with (x +:+ ".part").
  change (startswith ("chunk_" +:+ x +:+ ".part") "chunk_") with true.
  apply endswith_append.
Qed.

Lemma chunk_name_small_length index :
  0 <= index < 10 ^ 6 -> String.length (chunk_name index) = 17%nat.
Proof.
  intros H. rewrite chunk_name_small by done.
  by rewrite !append_length, zdigits_length.
Qed.

(** C7 (as amended).  For chunk indices below one million the file name
    [chunk_NNNNNN.part] has a fixed width of 17 characters, and for every
    pair of such indices [i < j] the name of [i] comes before the name of
    [j] in the lexical order of strings. *)
Theorem chunk_name_lexical_order i j :
  0 <= i -> i < j -> j < 10 ^ 6 ->
  String.length (chunk_name i) = 17%nat /\
  String.length (chunk_name j) = 17%nat /\
  String.ltb (chunk_name i) (chunk_name j) = true.
Proof.
  intros Hi Hij Hj.
  split; [apply chunk_name_small_length; lia|].
  split; [apply chunk_name_small_length; lia|].
  rewrite !chunk_name_small by lia.
  unfold String.ltb.
  change (String.compare ("chunk_" +:+ zdigits 6 (Z.to_N i) +:+ ".part")
                         ("chunk_" +:+ zdigits 6 (Z.to_N j) +:+ ".part"))
    with (String.compare (zdigits 6 (Z.to_N i) +:+ ".part")
                         (zdigits 6 (Z.to_N j) +:+ ".part")).
  rewrite zdigits_compare; [done|].
  assert (Z.to_N j < 10 ^ 6)%N by (change (10 ^ 6)%N with (Z.to_N (10 ^ 6)); lia).
  change (N.of_nat 6) with 6%N. rewrite !N.mod_small by lia. lia.
Qed.

Lemma chunk_name_lexical_order_witness :
  0 <= 9 /\ 9 < 10 /\ 10 < 10 ^ 6 /\
  String.ltb (chunk_name 9) (chunk_name 10) = true.
Proof.
  split; [lia|]. split; [lia|]. split; [lia|].
  apply (chunk_name_lexical_order 9 10); lia.
Defined.

(** C7 (as stated) fails from index 1000000 on.  Both 999999 and 1000000
    pass the bounds check of [upload_chunk] when [total_chunks] is 1000001,
    yet the name of 1000000 is one character longer and sorts before the
    name of 999999. *)
Lemma chunk_name_order_breaks_at_one_million :
  chunk_target sample_state (sample_chunk "999999" "1000001" [])
    = Some (sample_id, 999999) /\
  chunk_target sample_state (sample_chunk "1000000" "1000001" [])
    = Some (sample_id, 1000000) /\
  chunk_name 999999 = "chunk_999999.part" /\
  chunk_name 1000000 = "chunk_1000000.part" /\
  String.ltb (chunk_name 999999) (chunk_name 1000000) = false /\
  String.ltb (chunk_name 1000000) (chunk_name 999999) = true.
Proof. vm_compute. repeat split; reflexivity. Qed.

(** ** Ranges and presence of chunks *)

Lemma elem_of_range i n : i ∈ range n <-> 0 <= i < n.
Proof.
  unfold range. rewrite list_elem_of_fmap. split.
  - intros (k & -> & Hk). apply elem_of_seq in Hk. lia.
  - intros H. exists (Z.to_nat i). split; [lia|]. apply elem_of_seq. lia.
Qed.

Lemma chunk_exists_true (d : directory) i :
  chunk_exists d i = true <-> is_Some (d !! chunk_name i).
Proof.
  unfold chunk_exists. destruct (d !! chunk_name i); split; done || by intros [? ?].
Qed.

Lemma all_chunks_exist (d : directory) n :
  forallb (chunk_exists d) (range n) = true
  <-> forall i, 0 <= i < n -> is_Some (d !! chunk_name i).
Proof.
  rewrite forallb_forall. split.
  - intros H i Hi. apply chunk_exists_true, H, list_elem_of_In.
    by apply elem_of_range.
  - intros H i Hi. apply chunk_exists_true, H.
    by apply elem_of_range, list_elem_of_In.
Qed.

(** ** Validation of a completion request *)

Lemma complete_validate_live req s upload_id total :
  names_live_session (body_upload_id req) s upload_id ->
  body_total_chunks req = Some total -> 0 < total ->
  complete_validate req s = inr (upload_id, total).
Proof.
  intros (Hid & Hne & [info Hinfo]) Ht Hpos. unfold complete_validate.
  rewrite Hid, Hne, Hinfo, Ht. simpl.
  by destruct (Z.leb_spec total 0); [lia|].
Qed.

Lemma complete_validate_absent req s :
  upload_sessions s !! strip (default "" (body_upload_id req)) = None ->
  complete_validate req s = inl (Failure SessionMissing 404).
Proof.
  intros H. unfold complete_validate. rewrite H.
  by destruct (nonempty _).
Qed.

Section Completion.
Context (secure_filename url_for : string -> string).

Local Abbreviation complete := (upload_complete secure_filename url_for).
Local Abbreviation consume := (complete_consume secure_filename url_for).

(** [upload_sessions.pop] comes first: whatever [complete_consume] answers,
    the session is gone afterwards. *)
Lemma complete_consume_pops upload_id total env s :
  upload_sessions (consume upload_id total env s).2 !! upload_id = None.
Proof.
  unfold complete_consume.
  destruct (upload_sessions s !! upload_id) as [info|] eqn:Hs; [|done].
  cbn [chunk_root with_sessions].
  destruct (chunk_root s !! upload_id) as [d|]; simpl;
    [|by rewrite lookup_delete_eq].
  destruct (forallb _ _); simpl; [|by rewrite lookup_delete_eq].
  destruct (name_fits _); simpl; [|by rewrite lookup_delete_eq].
  destruct (bool_decide _); simpl; by rewrite lookup_delete_eq.
Qed.

Lemma complete_consume_no_directory upload_id total env s info :
  upload_sessions s !! upload_id = Some info ->
  chunk_root s !! upload_id = None ->
  consume upload_id total env s
  = (Failure ChunkDirMissing 404,
     with_sessions (delete upload_id (upload_sessions s)) s).
Proof.
  intros Hs Hd. unfold complete_consume. rewrite Hs.
  cbn [chunk_root with_sessions]. by rewrite Hd.
Qed.

Lemma complete_consume_incomplete upload_id total env s info (d : directory) :
  upload_sessions s !! upload_id = Some info ->
  chunk_root s !! upload_id = Some d ->
  forallb (chunk_exists d) (range total) = false ->
  consume upload_id total env s
  = (Failure ChunksIncomplete 400,
     with_sessions (delete upload_id (upload_sessions s)) s).
Proof.
  intros Hs Hd Hf. unfold complete_consume. rewrite Hs.
  cbn [chunk_root with_sessions]. by rewrite Hd, Hf.
Qed.

Lemma unlink_chunks_all (d : directory) :
  (forall name, is_Some (d !! name) -> glob_chunk_part name = true) ->
  size (unlink_chunks d) = 0%nat.
Proof.
  intros H. apply map_size_empty_iff, map_eq. intros name.
  rewrite lookup_empty. apply map_lookup_filter_None.
  destruct (d !! name) as [x|] eqn:E; [right | by left].
  intros y _. simpl. rewrite H; [done | by rewrite E].
Qed.

Lemma complete_consume_assembles upload_id total env s info (d : directory) :
  upload_sessions s !! upload_id = Some info ->
  chunk_root s !! upload_id = Some d ->
  forallb (chunk_exists d) (range total) = true ->
  name_fits (final_name secure_filename upload_id info) = true ->
  size (unlink_chunks d) = 0%nat ->
  exists f,
    (consume upload_id total env s).1 = CompleteOk f /\
    file_id f = upload_id.
Proof.
  intros Hs Hd Hf Hn Hu. unfold complete_consume. rewrite Hs.
  cbn [chunk_root with_sessions]. rewrite Hd, Hf. cbn [negb]. rewrite Hn.
  cbn [negb chunk_root with_upload_root with_sessions]. rewrite Hu.
  rewrite bool_decide_eq_true_2 by done. cbn [negb fst]. by eexists.
Qed.

Lemma complete_consume_long_name upload_id total env s info (d : directory) :
  upload_sessions s !! upload_id = Some info ->
  chunk_root s !! upload_id = Some d ->
  forallb (chunk_exists d) (range total) = true ->
  name_fits (final_name secure_filename upload_id info) = false ->
  consume upload_id total env s
  = (Unhandled OSError,
     with_sessions (delete upload_id (upload_sessions s)) s).
Proof.
  intros Hs Hd Hf Hn. unfold complete_consume. rewrite Hs.
  cbn [chunk_root with_sessions]. rewrite Hd, Hf. cbn [negb]. by rewrite Hn.
Qed.

(** What a successful completion did. *)
Lemma complete_ok_inv req env s f s' :
  complete req env s = (CompleteOk f, s') ->
  exists info (d : directory),
    let upload_id := strip (default "" (body_upload_id req)) in
    let total := default 0 (body_total_chunks req) in
    0 < total /\
    file_id f = upload_id /\
    upload_sessions s !! upload_id = Some info /\
    chunk_root s !! upload_id = Some d /\
    (forall i, 0 <= i < total -> is_Some (d !! chunk_name i)) /\
    upload_sessions s' = delete upload_id (upload_sessions s) /\
    uploaded_files s' = <[upload_id := f]> (uploaded_files s) /\
    chunk_root s' = delete upload_id (chunk_root s) /\
    upload_root s'
    = <[stored_name f := assemble d (range total)]> (upload_root s).
Proof.
  unfold upload_complete, complete_validate.
  set (upload_id := strip (default "" (body_upload_id req))).
  set (total := default 0 (body_total_chunks req)).
  destruct (nonempty upload_id); [|done]. cbn [negb].
  destruct (upload_sessions s !! upload_id) as [info|] eqn:Hs; [|done].
  destruct (Z.leb_spec total 0) as [|Hpos]; [done|].
  unfold complete_consume. rewrite Hs. cbn [chunk_root with_sessions].
  destruct (chunk_root s !! upload_id) as [d|] eqn:Hd; [|done].
  destruct (forallb (chunk_exists d) (range total)) eqn:Hf; [|done].
  cbn [negb]. destruct (name_fits _); [|done].
  cbn [negb chunk_root with_upload_root with_sessions].
  destruct (bool_decide _); [|done]. cbn [negb].
  intros E. injection E as <- <-. exists info, d.
  pose proof (proj1 (all_chunks_exist d total) Hf). done.
Qed.

(** C3.  A completion request that names a live session with a positive
    [total_chunks] removes the session from [upload_sessions] whatever its
    outcome, so every later completion request for the same identifier is
    answered with "session not found" (404) and changes nothing. *)
Theorem complete_is_single_use req env s upload_id total :
  names_live_session (body_upload_id req) s upload_id ->
  body_total_chunks req = Some total -> 0 < total ->
  upload_sessions (complete req env s).2 !! upload_id = None /\
  forall req' env',
    strip (default "" (body_upload_id req')) = upload_id ->
    complete req' env' (complete req env s).2
    = (Failure SessionMissing 404, (complete req env s).2) /\
    error_of (complete req' env' (complete req env s).2).1
    = Some SessionNotFound.
Proof.
  intros Hlive Ht Hpos.
  assert (upload_sessions (complete req env s).2 !! upload_id = None)
    as Hgone.
  { unfold upload_complete.
    rewrite (complete_validate_live _ _ _ _ Hlive Ht Hpos).
    apply complete_consume_pops. }
  split; [done|]. intros req' env' Hid'.
  assert (complete req' env' (complete req env s).2
          = (Failure SessionMissing 404, (complete req env s).2)) as E.
  { unfold upload_complete at 1.
    rewrite complete_validate_absent; [done|]. by rewrite Hid'. }
  by rewrite E.
Qed.

(** C8 (as amended).  When a completion request names a live session whose
    staging directory does not exist, the caller gets a response of its
    own: status 404 with the text "chunk directory does not exist"
    (kind [StagingDirectoryMissing]).  It differs from the 400 response
    "chunks incomplete" of an incomplete chunk set.  The session is
    consumed and nothing else changes. *)
Theorem missing_staging_directory_response req env s upload_id total :
  names_live_session (body_upload_id req) s upload_id ->
  body_total_chunks req = Some total -> 0 < total ->
  chunk_root s !! upload_id = None ->
  complete req env s
  = (Failure ChunkDirMissing 404,
     with_sessions (delete upload_id (upload_sessions s)) s) /\
  error_of (complete req env s).1 = Some StagingDirectoryMissing /\
  status_of (complete req env s).1 = 404 /\
  (complete req env s).1 <> Failure ChunksIncomplete 400.
Proof.
  intros Hlive Ht Hpos Hd.
  assert (complete req env s
          = (Failure ChunkDirMissing 404,
             with_sessions (delete upload_id (upload_sessions s)) s)) as E.
  { unfold upload_complete.
    rewrite (complete_validate_live _ _ _ _ Hlive Ht Hpos).
    destruct Hlive as (_ & _ & [info Hinfo]).
    by apply complete_consume_no_directory with info. }
  rewrite E. by repeat split.
Qed.

(** C2 (as amended).  In a state where live sessions have their staging
    directory and staging directories hold only chunk files, a completion
    request that names a live session with a positive [total_chunks]
    succeeds if and only if a chunk file exists for every index in
    [[0, total_chunks)] and the name of the finished file is within the
    file-name limit of the file system.  If some index is missing, the
    answer is "chunks incomplete" (400, [IncompleteUpload]) and neither the
    staging area nor the finished files nor the index of finished files
    change. *)
Theorem complete_iff_all_chunks_present req env s upload_id total info :
  staging_consistent s ->
  names_live_session (body_upload_id req) s upload_id ->
  upload_sessions s !! upload_id = Some info ->
  body_total_chunks req = Some total -> 0 < total ->
  ((exists f, (complete req env s).1 = CompleteOk f)
   <-> (forall i, 0 <= i < total -> chunk_present s upload_id i) /\
       name_fits (final_name secure_filename upload_id info) = true) /\
  ((exists i, 0 <= i < total /\ ~ chunk_present s upload_id i) ->
   (complete req env s).1 = Failure ChunksIncomplete 400 /\
   error_of (complete req env s).1 = Some IncompleteUpload /\
   chunk_root (complete req env s).2 = chunk_root s /\
   upload_root (complete req env s).2 = upload_root s /\
   uploaded_files (complete req env s).2 = uploaded_files s).
Proof.
  intros [Hdirs Hnames] Hlive Hinfo Ht Hpos.
  unfold upload_complete.
  rewrite (complete_validate_live _ _ _ _ Hlive Ht Hpos).
  destruct (Hdirs upload_id) as [d Hd]; [by eexists|].
  assert (forall i, chunk_present s upload_id i <-> is_Some (d !! chunk_name i))
    as Hpresent.
  { intros i. unfold chunk_present. split.
    - intros (d' & Hd' & Hi). by simplify_eq.
    - intros Hi. by exists d. }
  destruct (forallb (chunk_exists d) (range total)) eqn:Hall.
  - pose proof (proj1 (all_chunks_exist d total) Hall) as Hex.
    assert (forall i, 0 <= i < total -> chunk_present s upload_id i) as Hchunks.
    { intros i Hi. by apply Hpresent, Hex. }
    split; [|intros (i & Hi & Hmiss); destruct Hmiss; by apply Hchunks].
    destruct (name_fits (final_name secure_filename upload_id info)) eqn:Hfit.
    + destruct (complete_consume_assembles upload_id total env s info d)
        as (f & Hf & _); try done.
      { apply unlink_chunks_all. intros name. by apply Hnames with upload_id. }
      split; [done | by exists f].
    + rewrite (complete_consume_long_name upload_id total env s info d) by done.
      split; [by intros [f Hf] | by intros [_ ?]].
  - rewrite (complete_consume_incomplete upload_id total env s info d) by done.
    split; [|done]. split.
    + by intros [f Hf].
    + intros [Hex _].
      assert (forallb (chunk_exists d) (range total) = true) as Hc.
      { apply all_chunks_exist. intros i Hi. by apply Hpresent, Hex. }
      congruence.
Qed.

End Completion.

Lemma sample_state_live :
  names_live_session (Some sample_id) sample_state sample_id.
Proof. split; [reflexivity|]. split; [reflexivity|]. by eexists. Qed.

Lemma complete_is_single_use_witness :
  upload_sessions
    (upload_complete sample_secure_filename sample_url_for
       (sample_complete 2) sample_env sample_state).2 !! sample_id = None.
Proof.
  apply (complete_is_single_use sample_secure_filename sample_url_for
           (sample_complete 2) sample_env sample_state sample_id 2).
  - apply sample_state_live.
  - reflexivity.
  - lia.
Defined.

(** ** Chunk requests *)

Lemma chunk_validate_ext req s s' :
  upload_sessions s = upload_sessions s' ->
  chunk_validate req s = chunk_validate req s'.
Proof. intros E. unfold chunk_validate. by rewrite E. Qed.

(** What an accepted chunk request looks like. *)
Lemma chunk_validate_inr req s upload_id index cf :
  chunk_validate req s = inr (upload_id, index, cf) ->
  names_live_session (form_upload_id req) s upload_id /\
  files_chunk req = Some cf /\ storage_truthy cf = true /\
  int_of_str (strip (default "" (form_index req))) = Some index /\
  exists total,
    int_of_str (strip (default "" (form_total_chunks req))) = Some total /\
    0 <= index < total.
Proof.
  unfold chunk_validate, names_live_session.
  destruct (nonempty (strip (default "" (form_upload_id req)))) eqn:Hne; [|done].
  cbn [negb].
  destruct (upload_sessions s !! _) as [info|] eqn:Hs; [|done].
  destruct (files_chunk req) as [cf'|]; [|done].
  destruct (storage_truthy cf') eqn:Htr; [|done].
  destruct (nonempty (strip (default "" (form_index req)))); [|done].
  destruct (nonempty (strip (default "" (form_total_chunks req)))); [|done].
  cbn [negb orb].
  destruct (int_of_str (strip (default "" (form_index req)))) as [i|]; [|done].
  destruct (int_of_str (strip (default "" (form_total_chunks req)))) as [t|];
    [|done].
  destruct (Z.ltb_spec i 0); [done|].
  destruct (Z.leb_spec t 0); [done|].
  destruct (Z.geb_spec i t); [done|]. cbn [orb].
  intros E. injection E as <- <- <-.
  repeat split; try done. exists t. split; [done | lia].
Qed.

Lemma mkdir_p_lookup name (root : gmap string directory) :
  mkdir_p name root !! name = Some (default ∅ (root !! name)).
Proof.
  unfold mkdir_p. destruct (root !! name) eqn:E; [done|].
  by rewrite lookup_insert_eq.
Qed.

Lemma chunk_store_spec upload_id index cf s :
  chunk_store upload_id index cf s
  = (if name_fits (chunk_name index) then ChunkOk else Unhandled OSError,
     with_chunk_root
       (store_chunk_file upload_id index (storage_stream cf) (chunk_root s)) s).
Proof.
  unfold chunk_store, store_chunk_file, write_chunk_file.
  destruct (name_fits (chunk_name index)); cbn [negb]; [|done].
  rewrite mkdir_p_lookup, copy_stream_spec. cbn [default from_option id app].
  do 2 f_equal. unfold mkdir_p.
  destruct (chunk_root s !! upload_id); [done|]. by rewrite insert_insert_eq.
Qed.

(** What a chunk request that passes the checks does. *)
Lemma upload_chunk_validated req s upload_id index cf :
  chunk_validate req s = inr (upload_id, index, cf) ->
  upload_chunk req s
  = (if name_fits (chunk_name index) then ChunkOk else Unhandled OSError,
     with_chunk_root
       (store_chunk_file upload_id index (storage_stream cf) (chunk_root s)) s).
Proof.
  intros E. unfold upload_chunk. rewrite E. apply chunk_store_spec.
Qed.

Lemma upload_chunk_accepted req s upload_id index cf :
  chunk_validate req s = inr (upload_id, index, cf) ->
  name_fits (chunk_name index) = true ->
  upload_chunk req s
  = (ChunkOk,
     with_chunk_root
       (write_chunk_file upload_id index (storage_stream cf) (chunk_root s)) s).
Proof.
  intros E Hn. rewrite (upload_chunk_validated _ _ _ _ _ E).
  unfold store_chunk_file. by rewrite Hn.
Qed.

(** A chunk request is answered with [ChunkOk] exactly when it passes the
    checks and the name of its chunk file fits. *)
Lemma upload_chunk_ok req s :
  (upload_chunk req s).1 = ChunkOk <->
  exists upload_id index cf,
    chunk_validate req s = inr (upload_id, index, cf) /\
    name_fits (chunk_name index) = true.
Proof.
  unfold upload_chunk.
  destruct (chunk_validate req s) as [r|[[u i] cf]] eqn:E.
  - split; [|by intros (? & ? & ? & ? & _)]. cbn. intros ->.
    revert E. unfold chunk_validate.
    repeat (match goal with
            | |- context [match ?x with _ => _ end] => destruct x
            end); done.
  - rewrite chunk_store_spec. cbn [fst].
    destruct (name_fits (chunk_name i)) eqn:Hn; split; try done.
    + intros _. by exists u, i, cf.
    + intros (? & ? & ? & [= <- <- <-] & ?). congruence.
Qed.

Lemma upload_chunk_rejected req s r :
  chunk_validate req s = inl r -> upload_chunk req s = (r, s).
Proof. intros E. unfold upload_chunk. by rewrite E. Qed.

Lemma upload_chunk_sessions req s :
  upload_sessions (upload_chunk req s).2 = upload_sessions s.
Proof.
  destruct (chunk_validate req s) as [r|[[u i] cf]] eqn:E.
  - by rewrite (upload_chunk_rejected _ _ _ E).
  - by rewrite (upload_chunk_validated _ _ _ _ _ E).
Qed.

Lemma write_chunk_file_lookup upload_id index data (root : gmap string directory) :
  exists d : directory,
    write_chunk_file upload_id index data root !! upload_id = Some d /\
    d !! chunk_name index = Some data.
Proof.
  unfold write_chunk_file. eexists. rewrite lookup_insert_eq. split; [done|].
  by rewrite lookup_insert_eq.
Qed.

(** Writing the same chunk file again replaces what was there. *)
Lemma write_chunk_file_twice upload_id index data1 data2
  (root : gmap string directory) :
  write_chunk_file upload_id index data2
    (write_chunk_file upload_id index data1 root)
  = write_chunk_file upload_id index data2 root.
Proof.
  unfold write_chunk_file.
  rewrite lookup_insert_eq, insert_insert_eq. cbn [default from_option id].
  by rewrite insert_insert_eq.
Qed.

(** Writes to different chunk files commute. *)
Lemma write_chunk_file_commute u1 i1 data1 u2 i2 data2
  (root : gmap string directory) :
  0 <= i1 -> 0 <= i2 -> (u1, i1) <> (u2, i2) ->
  write_chunk_file u1 i1 data1 (write_chunk_file u2 i2 data2 root)
  = write_chunk_file u2 i2 data2 (write_chunk_file u1 i1 data1 root).
Proof.
  intros H1 H2 Hne. unfold write_chunk_file.
  destruct (decide (u1 = u2)) as [->|Hu].
  - assert (chunk_name i1 <> chunk_name i2) as Hn.
    { intros E. apply chunk_name_inj in E; [|done..]. congruence. }
    rewrite !lookup_insert_eq, !insert_insert_eq. cbn [default from_option id].
    f_equal. by apply insert_insert_ne.
  - rewrite !lookup_insert_ne by done. by apply insert_insert_ne.
Qed.

Lemma mkdir_p_lookup_ne name name' (root : gmap string directory) :
  name <> name' -> mkdir_p name root !! name' = root !! name'.
Proof.
  intros Hne. unfold mkdir_p. destruct (root !! name); [done|].
  by rewrite lookup_insert_ne.
Qed.

Lemma mkdir_p_written upload_id index data (root : gmap string directory) :
  mkdir_p upload_id (write_chunk_file upload_id index data root)
  = write_chunk_file upload_id index data root.
Proof. unfold mkdir_p, write_chunk_file. by rewrite lookup_insert_eq. Qed.

Lemma write_chunk_file_made upload_id index data (root : gmap string directory) :
  write_chunk_file upload_id index data (mkdir_p upload_id root)
  = write_chunk_file upload_id index data root.
Proof.
  unfold write_chunk_file. rewrite mkdir_p_lookup. cbn [default from_option id].
  unfold mkdir_p. destruct (root !! upload_id); [done|].
  by rewrite insert_insert_eq.
Qed.

Lemma mkdir_p_lookup_any name k (root : gmap string directory) :
  mkdir_p name root !! k
  = if decide (name = k) then Some (default ∅ (root !! name)) else root !! k.
Proof.
  destruct (decide (name = k)) as [<-|Hne];
    [apply mkdir_p_lookup | by apply mkdir_p_lookup_ne].
Qed.

Lemma write_chunk_file_lookup_any u i data k (root : gmap string directory) :
  write_chunk_file u i data root !! k
  = if decide (u = k)
    then Some (<[chunk_name i := data]> (default ∅ (root !! u)))
    else root !! k.
Proof.
  unfold write_chunk_file. destruct (decide (u = k)) as [<-|Hne].
  - by rewrite lookup_insert_eq.
  - by rewrite lookup_insert_ne.
Qed.

Lemma mkdir_p_commute u1 u2 (root : gmap string directory) :
  mkdir_p u1 (mkdir_p u2 root) = mkdir_p u2 (mkdir_p u1 root).
Proof.
  apply map_eq. intros k. rewrite !mkdir_p_lookup_any.
  repeat destruct (decide _); by simplify_eq.
Qed.

Lemma write_chunk_file_mkdir_p u1 i1 data u2 (root : gmap string directory) :
  write_chunk_file u1 i1 data (mkdir_p u2 root)
  = mkdir_p u2 (write_chunk_file u1 i1 data root).
Proof.
  apply map_eq. intros k.
  rewrite !mkdir_p_lookup_any, !write_chunk_file_lookup_any, !mkdir_p_lookup_any.
  repeat destruct (decide _); by simplify_eq.
Qed.

(** What two chunk requests for different chunk files leave behind does
    not depend on their order. *)
Lemma store_chunk_file_commute u1 i1 data1 u2 i2 data2
  (root : gmap string directory) :
  0 <= i1 -> 0 <= i2 -> (u1, i1) <> (u2, i2) ->
  store_chunk_file u1 i1 data1 (store_chunk_file u2 i2 data2 root)
  = store_chunk_file u2 i2 data2 (store_chunk_file u1 i1 data1 root).
Proof.
  intros H1 H2 Hne. unfold store_chunk_file.
  destruct (name_fits (chunk_name i1)), (name_fits (chunk_name i2)).
  - by apply write_chunk_file_commute.
  - apply write_chunk_file_mkdir_p.
  - symmetry. apply write_chunk_file_mkdir_p.
  - apply mkdir_p_commute.
Qed.

(** ** Series of chunk requests *)

Lemma assemble_chunk_contents (d : directory) total :
  assemble d (range total) = concat (chunk_contents d total).
Proof. apply assemble_spec. Qed.

Lemma range_lookup i n : 0 <= i < n -> range n !! Z.to_nat i = Some i.
Proof.
  intros H. unfold range. rewrite list_lookup_fmap, lookup_seq_lt by lia.
  simpl. f_equal. lia.
Qed.

Lemma chunk_contents_lookup (d : directory) total i data :
  0 <= i < total -> d !! chunk_name i = Some data ->
  chunk_contents d total !! Z.to_nat i = Some data.
Proof.
  intros Hi Hd. unfold chunk_contents.
  rewrite list_lookup_fmap, range_lookup by done. simpl. by rewrite Hd.
Qed.

Lemma upload_chunk_state req s :
  (upload_chunk req s).2
  = match chunk_validate req s with
    | inl _ => s
    | inr (upload_id, index, cf) =>
        with_chunk_root
          (store_chunk_file upload_id index (storage_stream cf) (chunk_root s)) s
    end.
Proof.
  destruct (chunk_validate req s) as [r|[[u i] cf]] eqn:E.
  - by rewrite (upload_chunk_rejected _ _ _ E).
  - by rewrite (upload_chunk_validated _ _ _ _ _ E).
Qed.

Lemma chunk_validate_after req req' s :
  chunk_validate req (upload_chunk req' s).2 = chunk_validate req s.
Proof. apply chunk_validate_ext, upload_chunk_sessions. Qed.

Lemma chunk_target_after req req' s :
  chunk_target (upload_chunk req' s).2 req = chunk_target s req.
Proof. unfold chunk_target. by rewrite chunk_validate_after. Qed.

Lemma chunk_target_Some req s upload_id index :
  chunk_target s req = Some (upload_id, index) <->
  exists cf, chunk_validate req s = inr (upload_id, index, cf).
Proof.
  unfold chunk_target.
  destruct (chunk_validate req s) as [r|[[u i] cf]]; split.
  - done.
  - by intros [? ?].
  - intros E. injection E as -> ->. by exists cf.
  - intros [cf' E]. by injection E as -> -> ->.
Qed.

(** Two chunk requests that do not write to the same chunk file can be
    handled in either order. *)
Lemma upload_chunk_commute r1 r2 s :
  (forall t, chunk_target s r1 = Some t -> chunk_target s r2 <> Some t) ->
  (upload_chunk r1 (upload_chunk r2 s).2).2
  = (upload_chunk r2 (upload_chunk r1 s).2).2.
Proof.
  intros Hne.
  rewrite (upload_chunk_state r1 (upload_chunk r2 s).2).
  rewrite (upload_chunk_state r2 (upload_chunk r1 s).2).
  rewrite !chunk_validate_after, !upload_chunk_state.
  destruct (chunk_validate r1 s) as [e1|[[u1 i1] cf1]] eqn:E1;
    destruct (chunk_validate r2 s) as [e2|[[u2 i2] cf2]] eqn:E2; try done.
  unfold with_chunk_root; cbn. f_equal.
  apply chunk_validate_inr in E1 as H1. apply chunk_validate_inr in E2 as H2.
  destruct H1 as (_ & _ & _ & _ & t1 & _ & Hi1).
  destruct H2 as (_ & _ & _ & _ & t2 & _ & Hi2).
  apply store_chunk_file_commute; [lia | lia |].
  intros E. apply (Hne (u1, i1)).
  - apply chunk_target_Some. by exists cf1.
  - rewrite E. apply chunk_target_Some. by exists cf2.
Qed.

Lemma put_chunks_app reqs1 reqs2 s :
  put_chunks (reqs1 ++ reqs2) s = put_chunks reqs2 (put_chunks reqs1 s).
Proof. apply foldl_app. Qed.

Lemma put_chunks_sessions reqs s :
  upload_sessions (put_chunks reqs s) = upload_sessions s.
Proof.
  revert s; induction reqs as [|r reqs IH]; intros s; [done|].
  cbn [put_chunks foldl]. fold (put_chunks reqs (upload_chunk r s).2).
  by rewrite IH, upload_chunk_sessions.
Qed.

Lemma chunk_targets_after (reqs : list chunk_request) req' s :
  omap (chunk_target (upload_chunk req' s).2) reqs = omap (chunk_target s) reqs.
Proof.
  induction reqs as [|r reqs IH]; [done|].
  cbn [omap list_omap]. fold (omap (chunk_target (upload_chunk req' s).2) reqs).
  fold (omap (chunk_target s) reqs). by rewrite IH, chunk_target_after.
Qed.

(** Chunk requests for pairwise different chunk files leave the same state
    behind in whatever order they arrive. *)
Lemma put_chunks_permutation reqs reqs' :
  reqs ≡ₚ reqs' ->
  forall s, NoDup (omap (chunk_target s) reqs) ->
    put_chunks reqs s = put_chunks reqs' s.
Proof.
  induction 1 as [|r l l' Hp IH|r1 r2 l|l1 l2 l3 Hp1 IH1 Hp2 IH2]; intros s Hnd.
  - done.
  - change (put_chunks l (upload_chunk r s).2 = put_chunks l' (upload_chunk r s).2).
    apply IH. rewrite chunk_targets_after.
    cbn [omap list_omap] in Hnd. fold (omap (chunk_target s) l) in Hnd.
    destruct (chunk_target s r); [by apply NoDup_cons in Hnd as [_ ?] | done].
  - change (put_chunks l (upload_chunk r1 (upload_chunk r2 s).2).2
            = put_chunks l (upload_chunk r2 (upload_chunk r1 s).2).2).
    f_equal. apply upload_chunk_commute. intros t Ht1 Ht2.
    cbn [omap list_omap] in Hnd. fold (omap (chunk_target s) l) in Hnd.
    rewrite Ht1, Ht2 in Hnd. apply NoDup_cons in Hnd as [Hin _].
    apply Hin. by left.
  - rewrite IH1 by done. apply IH2.
    assert (omap (chunk_target s) l1 ≡ₚ omap (chunk_target s) l2) as Hq
      by (by apply omap_Permutation).
    by rewrite <- Hq.
Qed.

(** After a series of chunk requests for pairwise different chunk files,
    every chunk file holds the stream of the request that named it. *)
Lemma put_chunks_content reqs s r upload_id index cf :
  NoDup (omap (chunk_target s) reqs) ->
  r ∈ reqs -> chunk_validate r s = inr (upload_id, index, cf) ->
  name_fits (chunk_name index) = true ->
  exists d : directory,
    chunk_root (put_chunks reqs s) !! upload_id = Some d /\
    d !! chunk_name index = Some (storage_stream cf).
Proof.
  intros Hnd Hin E Hfit.
  apply elem_of_Permutation in Hin as [l Hl].
  assert (reqs ≡ₚ l ++ [r]) as Hp.
  { rewrite Hl. apply Permutation_cons_append. }
  rewrite (put_chunks_permutation _ _ Hp s Hnd), put_chunks_app.
  cbn [put_chunks foldl]. fold (put_chunks l s).
  rewrite upload_chunk_state.
  rewrite (chunk_validate_ext r (put_chunks l s) s (put_chunks_sessions l s)), E.
  cbn [chunk_root with_chunk_root]. unfold store_chunk_file. rewrite Hfit.
  apply write_chunk_file_lookup.
Qed.

Section Reassembly.
Context (secure_filename url_for : string -> string).

Local Abbreviation complete := (upload_complete secure_filename url_for).

(** C1.  When a completion after a series of chunk requests succeeds, the
    finished file holds the contents of the chunk files 0, 1, ...,
    [total_chunks - 1], concatenated in this order.  If the chunk requests
    were for pairwise different chunk files, the chunk file of every
    request that was accepted (answered with [ChunkOk]; the answer to a
    chunk request does not depend on the chunk requests before it) holds
    the stream of that request, and the same requests arriving in any
    other order lead to the same response and the same final state. *)
Theorem finished_file_is_ordered_concatenation reqs creq env s f s1 :
  complete creq env (put_chunks reqs s) = (CompleteOk f, s1) ->
  exists d : directory,
    chunk_root (put_chunks reqs s) !! file_id f = Some d /\
    upload_root s1 !! stored_name f
    = Some (concat (chunk_contents d (default 0 (body_total_chunks creq)))) /\
    (NoDup (omap (chunk_target s) reqs) ->
     (forall r index cf,
        r ∈ reqs -> chunk_validate r s = inr (file_id f, index, cf) ->
        (upload_chunk r s).1 = ChunkOk ->
        d !! chunk_name index = Some (storage_stream cf)) /\
     (forall reqs',
        reqs ≡ₚ reqs' ->
        complete creq env (put_chunks reqs' s) = (CompleteOk f, s1))).
Proof.
  intros Hc.
  destruct (complete_ok_inv _ _ _ _ _ _ _ Hc)
    as (info & d & _ & Hid & _ & Hd & _ & _ & _ & _ & Hroot).
  exists d. rewrite Hid. split; [done|]. split.
  - by rewrite Hroot, lookup_insert_eq, assemble_chunk_contents.
  - intros Hnd. split.
    + intros r index cf Hin Hv Hok.
      apply upload_chunk_ok in Hok as (u & i & cf' & Hv' & Hfit).
      rewrite Hv in Hv'. injection Hv' as <- <- <-.
      destruct (put_chunks_content _ _ _ _ _ _ Hnd Hin Hv Hfit)
        as (d' & Hd' & Hi).
      by simplify_eq.
    + intros reqs' Hp. by rewrite <- (put_chunks_permutation _ _ Hp s Hnd).
Qed.

(** C4.  When a chunk request for a live session and an index has been
    accepted (answered with [ChunkOk]), a second chunk request that passes
    the checks for the same session and index is accepted as well and
    replaces the chunk file written by the first, leaving the state the
    second request alone would have left.  When the upload is completed
    afterwards, the piece of the finished file that belongs to this index
    is the content of the second request. *)
Theorem resent_chunk_overwrites r1 r2 s upload_id index cf1 cf2 :
  chunk_validate r1 s = inr (upload_id, index, cf1) ->
  chunk_validate r2 s = inr (upload_id, index, cf2) ->
  (upload_chunk r1 s).1 = ChunkOk ->
  (upload_chunk r2 (upload_chunk r1 s).2).1 = ChunkOk /\
  (upload_chunk r2 (upload_chunk r1 s).2).2 = (upload_chunk r2 s).2 /\
  exists d : directory,
    chunk_root (put_chunks [r1; r2] s) !! upload_id = Some d /\
    d !! chunk_name index = Some (storage_stream cf2) /\
    forall creq env f s3,
      complete creq env (put_chunks [r1; r2] s) = (CompleteOk f, s3) ->
      strip (default "" (body_upload_id creq)) = upload_id ->
      index < default 0 (body_total_chunks creq) ->
      upload_root s3 !! stored_name f
      = Some (concat (chunk_contents d (default 0 (body_total_chunks creq)))) /\
      chunk_contents d (default 0 (body_total_chunks creq)) !! Z.to_nat index
      = Some (storage_stream cf2).
Proof.
  intros E1 E2 Hok.
  apply upload_chunk_ok in Hok as (u & i & cf' & Hv' & Hfit).
  rewrite E1 in Hv'. injection Hv' as <- <- <-.
  assert (chunk_validate r2 (upload_chunk r1 s).2 = inr (upload_id, index, cf2))
    as E2' by (by rewrite chunk_validate_after).
  assert ((upload_chunk r2 (upload_chunk r1 s).2).2 = (upload_chunk r2 s).2)
    as Hsame.
  { rewrite (upload_chunk_accepted _ _ _ _ _ E2' Hfit).
    rewrite !(upload_chunk_accepted _ _ _ _ _ E1 Hfit).
    rewrite (upload_chunk_accepted _ _ _ _ _ E2 Hfit).
    unfold with_chunk_root; cbn. f_equal. apply write_chunk_file_twice. }
  split; [by rewrite (upload_chunk_accepted _ _ _ _ _ E2' Hfit)|].
  split; [done|].
  change (put_chunks [r1; r2] s) with (upload_chunk r2 (upload_chunk r1 s).2).2.
  rewrite Hsame, (upload_chunk_accepted _ _ _ _ _ E2 Hfit).
  cbn [snd chunk_root with_chunk_root].
  destruct (write_chunk_file_lookup upload_id index (storage_stream cf2)
              (chunk_root s)) as (d & Hd & Hi).
  exists d. split; [done|]. split; [done|].
  intros creq env f s3 Hc Hid Hlt.
  destruct (complete_ok_inv _ _ _ _ _ _ _ Hc)
    as (info & d' & _ & _ & _ & Hd' & _ & _ & _ & _ & Hroot).
  rewrite Hid in Hd'. cbn [chunk_root with_chunk_root] in Hd'.
  assert (d' = d) as -> by congruence.
  split.
  - by rewrite Hroot, lookup_insert_eq, assemble_chunk_contents.
  - apply chunk_contents_lookup; [|done].
    apply chunk_validate_inr in E2 as (_ & _ & _ & _ & t & _ & ?). lia.
Qed.

End Reassembly.

Lemma sample_chunks_distinct :
  NoDup (omap (chunk_target sample_state)
              [sample_chunk "1" "2" chunk1; sample_chunk "0" "2" chunk0]).
Proof.
  assert (omap (chunk_target sample_state)
               [sample_chunk "1" "2" chunk1; sample_chunk "0" "2" chunk0]
          = [(sample_id, 1); (sample_id, 0)]) as -> by (vm_compute; reflexivity).
  apply NoDup_cons. split; [|apply NoDup_singleton].
  intros H%list_elem_of_singleton. discriminate.
Qed.

Lemma finished_file_is_ordered_concatenation_witness :
  upload_complete sample_secure_filename sample_url_for (sample_complete 2)
    sample_env
    (put_chunks [sample_chunk "1" "2" chunk1; sample_chunk "0" "2" chunk0]
       sample_state)
  = upload_complete sample_secure_filename sample_url_for (sample_complete 2)
      sample_env
      (put_chunks [sample_chunk "0" "2" chunk0; sample_chunk "1" "2" chunk1]
         sample_state).
Proof.
  pose (s1 := (upload_complete sample_secure_filename sample_url_for
                 (sample_complete 2) sample_env
                 (put_chunks [sample_chunk "1" "2" chunk1;
                              sample_chunk "0" "2" chunk0] sample_state)).2).
  assert (upload_complete sample_secure_filename sample_url_for
            (sample_complete 2) sample_env
            (put_chunks [sample_chunk "1" "2" chunk1;
                         sample_chunk "0" "2" chunk0] sample_state)
          = (CompleteOk sample_entry, s1)) as Hc by (vm_compute; reflexivity).
  destruct (finished_file_is_ordered_concatenation
              sample_secure_filename sample_url_for _ _ _ _ _ _ Hc)
    as (d & _ & _ & Hperm).
  destruct (Hperm sample_chunks_distinct) as [_ Hp].
  rewrite Hc. symmetry. apply Hp. apply perm_swap.
Defined.

Lemma resent_chunk_overwrites_witness :
  (upload_chunk (sample_chunk "0" "2" chunk0)
     (upload_chunk (sample_chunk "0" "2" chunk1) sample_state).2).2
  = (upload_chunk (sample_chunk "0" "2" chunk0) sample_state).2.
Proof.
  apply (resent_chunk_overwrites sample_secure_filename sample_url_for
           (sample_chunk "0" "2" chunk1) (sample_chunk "0" "2" chunk0)
           sample_state sample_id 0
           {| storage_filename := "blob"; storage_stream := chunk1 |}
           {| storage_filename := "blob"; storage_stream := chunk0 |});
    vm_compute; reflexivity.
Defined.

(** ** The staging area of reachable states *)

Lemma staging_consistent_started s : started s -> staging_consistent s.
Proof.
  intros (Hs & _ & Hc & _). split.
  - intros id [x Hx]. by rewrite Hs, lookup_empty in Hx.
  - intros id d name Hd. by rewrite Hc, lookup_empty in Hd.
Qed.

Lemma staging_consistent_init cfg req uuid4 now s :
  staging_consistent s -> staging_consistent (upload_init cfg req uuid4 now s).2.
Proof.
  intros [Hdirs Hnames]. unfold upload_init.
  destruct (negb _ || _); [done|]. destruct (_ >? _); [done|].
  cbn [snd]. split; cbn [upload_sessions chunk_root with_sessions with_chunk_root].
  - intros id Hid. destruct (decide (uuid4 = id)) as [<-|Hne].
    + by rewrite mkdir_p_lookup.
    + rewrite mkdir_p_lookup_ne by done. apply Hdirs.
      by rewrite lookup_insert_ne in Hid.
  - intros id d name Hd Hn. destruct (decide (uuid4 = id)) as [<-|Hne].
    + rewrite mkdir_p_lookup in Hd. injection Hd as <-.
      destruct (chunk_root s !! uuid4) as [d0|] eqn:E.
      * by apply Hnames with uuid4 d0.
      * cbn in Hn. rewrite lookup_empty in Hn. by destruct Hn.
    + rewrite mkdir_p_lookup_ne in Hd by done. by apply Hnames with id d.
Qed.

Lemma staging_consistent_chunk req s :
  staging_consistent s -> staging_consistent (upload_chunk req s).2.
Proof.
  intros [Hdirs Hnames]. rewrite upload_chunk_state.
  destruct (chunk_validate req s) as [r|[[u i] cf]]; [done|].
  unfold store_chunk_file. destruct (name_fits (chunk_name i)).
  - unfold write_chunk_file.
    split; cbn [upload_sessions chunk_root with_chunk_root].
    + intros id Hid. destruct (decide (u = id)) as [<-|Hne].
      * by rewrite lookup_insert_eq.
      * rewrite lookup_insert_ne by done. by apply Hdirs.
    + intros id d name Hd Hn. destruct (decide (u = id)) as [<-|Hne].
      * rewrite lookup_insert_eq in Hd. injection Hd as <-.
        destruct (decide (chunk_name i = name)) as [<-|Hname].
        -- apply chunk_name_glob.
        -- rewrite lookup_insert_ne in Hn by done.
           destruct (chunk_root s !! u) as [d0|] eqn:E.
           ++ by apply Hnames with u d0.
           ++ cbn in Hn. rewrite lookup_empty in Hn. by destruct Hn.
      * rewrite lookup_insert_ne in Hd by done. by apply Hnames with id d.
  - split; cbn [upload_sessions chunk_root with_chunk_root].
    + intros id Hid. destruct (decide (u = id)) as [<-|Hne].
      * by rewrite mkdir_p_lookup.
      * rewrite mkdir_p_lookup_ne by done. by apply Hdirs.
    + intros id d name Hd Hn. destruct (decide (u = id)) as [<-|Hne].
      * rewrite mkdir_p_lookup in Hd. injection Hd as <-.
        destruct (chunk_root s !! u) as [d0|] eqn:E.
        -- by apply Hnames with u d0.
        -- cbn in Hn. rewrite lookup_empty in Hn. by destruct Hn.
      * rewrite mkdir_p_lookup_ne in Hd by done. by apply Hnames with id d.
Qed.

Lemma staging_consistent_complete secure_filename url_for req env s :
  staging_consistent s ->
  staging_consistent (upload_complete secure_filename url_for req env s).2.
Proof.
  intros [Hdirs Hnames]. unfold upload_complete.
  destruct (complete_validate req s) as [r|[u total]]; [done|].
  unfold complete_consume.
  destruct (upload_sessions s !! u) as [info|] eqn:Hs; [|done].
  assert (forall id, is_Some (delete u (upload_sessions s) !! id) ->
            id <> u /\ is_Some (chunk_root s !! id)) as Hrest.
  { intros id Hid. destruct (decide (u = id)) as [<-|Hne].
    - rewrite lookup_delete_eq in Hid. by destruct Hid.
    - rewrite lookup_delete_ne in Hid by done. split; [done | by apply Hdirs]. }
  cbn [chunk_root with_sessions].
  destruct (chunk_root s !! u) as [d|] eqn:Hd.
  2:{ split; cbn; [|done]. intros id Hid. by apply Hrest. }
  destruct (forallb _ _); cbn [negb].
  2:{ split; cbn; [|done]. intros id Hid. by apply Hrest. }
  destruct (name_fits _); cbn [negb].
  2:{ split; cbn; [|done]. intros id Hid. by apply Hrest. }
  destruct (bool_decide _); cbn [negb snd];
    (split; cbn [upload_sessions chunk_root with_sessions with_chunk_root
                 with_upload_root]).
  - intros id Hid. destruct (Hrest _ Hid) as [Hne ?].
    by rewrite lookup_delete_ne.
  - intros id d' name Hd' Hn. destruct (decide (u = id)) as [<-|Hne].
    + by rewrite lookup_delete_eq in Hd'.
    + rewrite lookup_delete_ne in Hd' by done. by apply Hnames with id d'.
  - intros id Hid. destruct (Hrest _ Hid) as [Hne ?].
    by rewrite lookup_insert_ne.
  - intros id d' name Hd' Hn. destruct (decide (u = id)) as [<-|Hne].
    + rewrite lookup_insert_eq in Hd'. injection Hd' as <-.
      apply Hnames with u d; [done|]. destruct Hn as [x Hx].
      apply map_lookup_filter_Some in Hx as [Hx _]. by exists x.
    + rewrite lookup_insert_ne in Hd' by done. by apply Hnames with id d'.
Qed.

(** Handling a request keeps the staging area consistent. *)
Lemma staging_consistent_handle cfg secure_filename url_for r s :
  staging_consistent s ->
  staging_consistent (handle cfg secure_filename url_for r s).2.
Proof.
  destruct r as [req uuid4 now|req|req env]; cbn [handle].
  - apply staging_consistent_init.
  - apply staging_consistent_chunk.
  - apply staging_consistent_complete.
Qed.

(** In every state the server reaches, live sessions have their staging
    directory and staging directories hold only chunk files. *)
Lemma reachable_staging_consistent cfg secure_filename url_for s :
  reachable cfg secure_filename url_for s -> staging_consistent s.
Proof.
  induction 1 as [s Hs|s r _ IH|s ts ms es _ IH].
  - by apply staging_consistent_started.
  - by apply staging_consistent_handle.
  - exact IH.
Qed.

Lemma reachable_run cfg secure_filename url_for rs s :
  reachable cfg secure_filename url_for s ->
  reachable cfg secure_filename url_for (run cfg secure_filename url_for rs s).
Proof.
  revert s; induction rs as [|r rs IH]; intros s Hs; [done|].
  cbn [run foldl]. apply IH. by apply reachable_step.
Qed.

Lemma sample_uploaded_reachable :
  reachable defaults sample_secure_filename sample_url_for sample_uploaded.
Proof. apply reachable_run, reachable_start. by repeat split. Qed.

Lemma sample_uploaded_live :
  names_live_session (Some sample_id) sample_uploaded sample_id.
Proof.
  split; [reflexivity|]. split; [reflexivity|].
  exists sample_info. vm_compute. reflexivity.
Qed.

Lemma complete_iff_all_chunks_present_witness :
  (exists f,
     (upload_complete sample_secure_filename sample_url_for (sample_complete 2)
        sample_env sample_uploaded).1 = CompleteOk f)
  <-> (forall i, 0 <= i < 2 -> chunk_present sample_uploaded sample_id i) /\
      name_fits (final_name sample_secure_filename sample_id sample_info)
      = true.
Proof.
  apply (complete_iff_all_chunks_present sample_secure_filename sample_url_for
           (sample_complete 2) sample_env sample_uploaded sample_id 2
           sample_info).
  - apply (reachable_staging_consistent defaults sample_secure_filename
             sample_url_for), sample_uploaded_reachable.
  - apply sample_uploaded_live.
  - vm_compute. reflexivity.
  - reflexivity.
  - lia.
Defined.

(** C2 (as stated) fails.  An init request with a file name of 219
    characters is accepted, and its one chunk is stored.  Every chunk of
    [[0, 1)] is then present, yet the completion request does not succeed:
    the finished file would be named by 256 characters, opening it raises
    [OSError], and the request ends in that exception. *)
Lemma long_file_name_fails_completion :
  String.length long_name = 219%nat /\
  sample_secure_filename long_name = long_name /\
  (upload_init defaults long_name_init sample_id "2024-05-01T10:00:00Z"
     initial_state).1
  = InitOk sample_id (default_chunk_size_bytes defaults)
      (max_concurrency defaults) (max_file_size_bytes defaults) /\
  reachable defaults sample_secure_filename sample_url_for long_name_uploaded /\
  names_live_session (body_upload_id (sample_complete 1)) long_name_uploaded
    sample_id /\
  body_total_chunks (sample_complete 1) = Some 1 /\
  (forall i, 0 <= i < 1 -> chunk_present long_name_uploaded sample_id i) /\
  (upload_complete sample_secure_filename sample_url_for (sample_complete 1)
     sample_env long_name_uploaded).1 = Unhandled OSError /\
  ~ (exists f,
       (upload_complete sample_secure_filename sample_url_for
          (sample_complete 1) sample_env long_name_uploaded).1 = CompleteOk f).
Proof.
  assert ((upload_complete sample_secure_filename sample_url_for
             (sample_complete 1) sample_env long_name_uploaded).1
          = Unhandled OSError) as Hraise by (vm_compute; reflexivity).
  split; [vm_compute; reflexivity|]. split; [reflexivity|].
  split; [vm_compute; reflexivity|].
  split; [apply reachable_run, reachable_start; by repeat split|].
  split.
  { split; [reflexivity|]. split; [reflexivity|]. vm_compute. by eexists. }
  split; [reflexivity|].
  split.
  { intros i Hi. assert (i = 0) as -> by lia.
    eexists. split; [vm_compute; reflexivity|]. vm_compute. by eexists. }
  split; [exact Hraise|]. rewrite Hraise. by intros [f Hf].
Qed.

Lemma sample_state_no_staging_live :
  names_live_session (Some sample_id) sample_state_no_staging sample_id.
Proof. split; [reflexivity|]. split; [reflexivity|]. by eexists. Qed.

Lemma missing_staging_directory_response_witness :
  status_of
    (upload_complete sample_secure_filename sample_url_for (sample_complete 2)
       sample_env sample_state_no_staging).1 = 404.
Proof.
  apply (missing_staging_directory_response sample_secure_filename
           sample_url_for (sample_complete 2) sample_env
           sample_state_no_staging sample_id 2).
  - apply sample_state_no_staging_live.
  - reflexivity.
  - lia.
  - reflexivity.
Defined.

(** C8 (as stated) fails.  For the sample session without its staging
    directory the completion answers 404 "chunk directory does not exist";
    for the same session with an empty staging directory it answers 400
    "chunks incomplete".  The two responses differ in status and text, so
    the missing directory is not surfaced as [IncompleteUpload]. *)
Lemma missing_staging_directory_is_not_incomplete_upload :
  (upload_complete sample_secure_filename sample_url_for (sample_complete 2)
     sample_env sample_state_no_staging).1 = Failure ChunkDirMissing 404 /\
  (upload_complete sample_secure_filename sample_url_for (sample_complete 2)
     sample_env sample_state).1 = Failure ChunksIncomplete 400 /\
  error_of (Failure ChunkDirMissing 404) <> Some IncompleteUpload /\
  Failure ChunkDirMissing 404 <> Failure ChunksIncomplete 400.
Proof. repeat split; try (vm_compute; reflexivity); discriminate. Qed.

(** ** Outcomes of [upload_init] *)

Lemma nonempty_true s : nonempty s = true <-> s <> "".
Proof. destruct s; split; done. Qed.

Lemma nonempty_false s : nonempty s = false <-> s = "".
Proof. destruct s; split; done. Qed.

(** ** Identifiers in use *)

Lemma store_chunk_file_lookup_ne u i data k (root : gmap string directory) :
  u <> k -> store_chunk_file u i data root !! k = root !! k.
Proof.
  intros Hne. unfold store_chunk_file. destruct (name_fits _).
  - rewrite write_chunk_file_lookup_any. by rewrite decide_False.
  - by apply mkdir_p_lookup_ne.
Qed.







(** ** Outcomes of [upload_chunk] *)

(** [int] rejects the empty string. *)
Lemma parsed_field_nonempty x v :
  int_of_str (strip x) = Some v -> nonempty (strip x) = true.
Proof.
  destruct (strip x) eqn:E; [|done]. by vm_compute.
Qed.

(** A chunk request that passes every check. *)
Lemma chunk_validate_accepts req s upload_id cf index total :
  names_live_session (form_upload_id req) s upload_id ->
  files_chunk req = Some cf -> storage_truthy cf = true ->
  int_of_str (strip (default "" (form_index req))) = Some index ->
  int_of_str (strip (default "" (form_total_chunks req))) = Some total ->
  0 <= index < total ->
  chunk_validate req s = inr (upload_id, index, cf).
Proof.
  intros (Hid & Hne & [info Hinfo]) Hcf Htr Hi Ht Hr. unfold chunk_validate.
  rewrite Hid, Hne, Hinfo, Hcf, Htr.
  rewrite (parsed_field_nonempty _ _ Hi), (parsed_field_nonempty _ _ Ht).
  rewrite Hi, Ht. cbn [negb orb].
  destruct (Z.ltb_spec index 0); [lia|].
  destruct (Z.leb_spec total 0); [lia|].
  destruct (Z.geb_spec index total); [lia | done].
Qed.





(** C9 (as amended).  For a live session, a chunk request without a chunk
    part, or with a part that has no file name, fails with
    [IncompleteRequest] (400) and changes nothing.  The stream of the part
    is not inspected: a request that passes the other checks, and whose
    chunk file has a name within the file-name limit of the file system,
    is accepted whatever its stream holds, and an empty stream is written
    as an empty chunk file. *)
Theorem chunk_part_must_be_present req s upload_id :
  names_live_session (form_upload_id req) s upload_id ->
  ((files_chunk req = None \/
    exists cf, files_chunk req = Some cf /\ storage_filename cf = "") ->
   upload_chunk req s = (Failure ChunkInfoIncomplete 400, s) /\
   error_of (upload_chunk req s).1 = Some IncompleteRequest) /\
  (forall cf index total,
     files_chunk req = Some cf -> storage_filename cf <> "" ->
     int_of_str (strip (default "" (form_index req))) = Some index ->
     int_of_str (strip (default "" (form_total_chunks req))) = Some total ->
     0 <= index < total ->
     name_fits (chunk_name index) = true ->
     (upload_chunk req s).1 = ChunkOk /\
     exists d : directory,
       chunk_root (upload_chunk req s).2 !! upload_id = Some d /\
       d !! chunk_name index = Some (storage_stream cf)).
Proof.
  intros Hlive. split.
  - intros Hmiss.
    assert (chunk_validate req s = inl (Failure ChunkInfoIncomplete 400)) as E.
    { destruct Hlive as (Hid & Hne & [info Hinfo]). unfold chunk_validate.
      rewrite Hid, Hne, Hinfo. cbn [negb].
      destruct Hmiss as [-> | (cf & -> & Hname)]; [done|].
      unfold storage_truthy. by rewrite Hname. }
    by rewrite (upload_chunk_rejected _ _ _ E).
  - intros cf index total Hcf Hname Hi Ht Hr Hfit.
    assert (chunk_validate req s = inr (upload_id, index, cf)) as E.
    { apply chunk_validate_accepts with total; try done.
      by apply nonempty_true. }
    rewrite (upload_chunk_accepted _ _ _ _ _ E Hfit). split; [done|].
    apply write_chunk_file_lookup.
Qed.

Lemma chunk_part_must_be_present_witness :
  upload_chunk (sample_chunk_without_part "0" "2") sample_state
  = (Failure ChunkInfoIncomplete 400, sample_state).
Proof.
  apply (chunk_part_must_be_present (sample_chunk_without_part "0" "2")
           sample_state sample_id).
  - apply sample_state_live.
  - by left.
Defined.

(** C9 (as stated) fails for an empty payload.  A chunk part with a file
    name and an empty stream is accepted with [{"ok": true}], and the chunk
    file of index 0 is created empty. *)
Lemma empty_chunk_is_accepted :
  storage_stream <$> files_chunk (sample_chunk "0" "1" []) = Some [] /\
  (upload_chunk (sample_chunk "0" "1" []) sample_state).1 = ChunkOk /\
  chunk_root (upload_chunk (sample_chunk "0" "1" []) sample_state).2 !! sample_id
  = Some ({[ chunk_name 0 := [] ]} : directory) /\
  chunk_name 0 = "chunk_000000.part".
Proof. repeat split; vm_compute; reflexivity. Qed.

(** ** Concurrent handlers *)

(** C10 (code defect).  The handlers take no lock around their accesses to
    [upload_sessions], so the membership test and what follows it are not
    atomic.

    Two completion requests for the same live session: when both pass the
    membership test before either reaches [upload_sessions.pop], the first
    finishes the upload and the second raises [KeyError]; run one after
    the other, the second is answered with 404 "session not found".

    A chunk request and a completion request for the same live session:
    when the chunk request passes the membership test, the completion then
    runs as a whole, and the chunk is stored afterwards, the chunk is
    accepted and written to a staging directory that is created anew for
    an identifier no longer in [upload_sessions]. *)
Theorem registry_accesses_are_not_atomic :
  (run_schedule sample_secure_filename sample_url_for [0; 1; 0; 1]%nat
     [CompleteStart (sample_complete 2) sample_env;
      CompleteStart (sample_complete 2) sample_env] sample_uploaded).1
  = [Returned (CompleteOk sample_entry); Returned (Unhandled KeyError)] /\
  (run_schedule sample_secure_filename sample_url_for [0; 0; 1; 1]%nat
     [CompleteStart (sample_complete 2) sample_env;
      CompleteStart (sample_complete 2) sample_env] sample_uploaded).1
  = [Returned (CompleteOk sample_entry);
     Returned (Failure SessionMissing 404)] /\
  (run_schedule sample_secure_filename sample_url_for [0; 1; 1; 0]%nat
     [ChunkStart (sample_chunk "0" "2" chunk1);
      CompleteStart (sample_complete 2) sample_env] sample_uploaded).1
  = [Returned ChunkOk; Returned (CompleteOk sample_entry)] /\
  upload_sessions
    (run_schedule sample_secure_filename sample_url_for [0; 1; 1; 0]%nat
       [ChunkStart (sample_chunk "0" "2" chunk1);
        CompleteStart (sample_complete 2) sample_env] sample_uploaded).2
    !! sample_id = None /\
  chunk_root
    (run_schedule sample_secure_filename sample_url_for [0; 1; 1; 0]%nat
       [ChunkStart (sample_chunk "0" "2" chunk1);
        CompleteStart (sample_complete 2) sample_env] sample_uploaded).2
    !! sample_id = Some ({[ chunk_name 0 := chunk1 ]} : directory).
Proof. repeat split; vm_compute; reflexivity. Qed.

(** ** Finished files and [serve_media] *)

Section Media.
Context (secure_filename url_for : string -> string).

Local Abbreviation complete := (upload_complete secure_filename url_for).

(** The record a successful completion returns, field by field, and the
    message it posts. *)
Lemma complete_ok_entry req env s f s' :
  complete req env s = (CompleteOk f, s') ->
  exists info,
    let upload_id := strip (default "" (body_upload_id req)) in
    let safe_name :=
      if nonempty (secure_filename (si_filename info))
      then secure_filename (si_filename info) else upload_id +:+ ".bin" in
    upload_sessions s !! upload_id = Some info /\
    f = {| file_id := upload_id;
           original_name := si_filename info;
           stored_name := upload_id +:+ "_" +:+ safe_name;
           entry_size := si_size info;
           entry_mime := si_mime info;
           uploaded_at := utcnow env;
           entry_client_msg_id := si_client_msg_id info;
           url := url_for upload_id |} /\
    terminal_sessions s' = terminal_sessions s /\
    exists msg,
      messages s' = messages s ++ [msg] /\
      emitted s' = emitted s ++ [msg] /\
      user msg = acting_username env s /\
      text msg = si_filename info /\
      kind msg = "file" /\
      file msg = Some f.
Proof.
  unfold upload_complete, complete_validate.
  set (upload_id := strip (default "" (body_upload_id req))).
  set (total := default 0 (body_total_chunks req)).
  destruct (nonempty upload_id); [|done]. cbn [negb].
  destruct (upload_sessions s !! upload_id) as [info|] eqn:Hs; [|done].
  destruct (Z.leb_spec total 0) as [|Hpos]; [done|].
  unfold complete_consume. rewrite Hs. cbn [chunk_root with_sessions].
  destruct (chunk_root s !! upload_id) as [d|] eqn:Hd; [|done].
  destruct (forallb (chunk_exists d) (range total)) eqn:Hf; [|done].
  cbn [negb]. destruct (name_fits _); [|done].
  cbn [negb chunk_root with_upload_root with_sessions].
  destruct (bool_decide _); [|done]. cbn [negb].
  intros E. injection E as <- <-. exists info. unfold final_name.
  split; [done|]. split; [done|]. split; [done|].
  eexists. by repeat split.
Qed.

(** What a completion request does to the finished files: a success files
    one record and writes its file; otherwise the index of finished files
    is as before and at most one file was written. *)
Lemma upload_complete_files req env s :
  (exists f out,
     (complete req env s).1 = CompleteOk f /\
     uploaded_files (complete req env s).2
     = <[file_id f := f]> (uploaded_files s) /\
     upload_root (complete req env s).2
     = <[stored_name f := out]> (upload_root s)) \/
  (uploaded_files (complete req env s).2 = uploaded_files s /\
   (upload_root (complete req env s).2 = upload_root s \/
    exists name out,
      upload_root (complete req env s).2 = <[name := out]> (upload_root s))).
Proof.
  unfold upload_complete.
  destruct (complete_validate req s) as [r|[u total]]; [right; by split; [|left]|].
  unfold complete_consume.
  destruct (upload_sessions s !! u) as [info|]; [|right; by split; [|left]].
  cbn [chunk_root with_sessions].
  destruct (chunk_root s !! u) as [d|]; [|right; by split; [|left]].
  destruct (forallb _ _); cbn [negb]; [|right; by split; [|left]].
  destruct (name_fits _); cbn [negb]; [|right; by split; [|left]].
  destruct (bool_decide _); cbn [negb].
  - left. eexists _, _. by repeat split.
  - right. split; [done|]. right. by eexists _, _.
Qed.

Lemma files_on_record_complete req env s :
  files_on_record s -> files_on_record (complete req env s).2.
Proof.
  intros H.
  destruct (upload_complete_files req env s)
    as [(f & out & Hr & Hu & Hroot)|[Hu Hroot]]; intros id e; rewrite Hu.
  - destruct (complete req env s) as [r s1] eqn:E.
    cbn [fst snd] in *. subst r.
    destruct (complete_ok_inv _ _ _ _ _ _ _ E)
      as (_ & _ & _ & Hid & _ & _ & _ & _ & _ & _ & _).
    rewrite Hroot. intros He.
    destruct (decide (file_id f = id)) as [<-|Hne].
    + rewrite lookup_insert_eq in He. injection He as <-.
      split; [done|]. by rewrite lookup_insert_eq.
    + rewrite lookup_insert_ne in He by done.
      destruct (H _ _ He) as [? [x Hx]]. split; [done|].
      destruct (decide (stored_name f = stored_name e)) as [->|?].
      * by rewrite lookup_insert_eq.
      * rewrite lookup_insert_ne by done. by exists x.
  - intros He. destruct (H _ _ He) as [? [x Hx]]. split; [done|].
    destruct Hroot as [->|(name & out & ->)]; [by exists x|].
    destruct (decide (name = stored_name e)) as [->|?].
    + by rewrite lookup_insert_eq.
    + rewrite lookup_insert_ne by done. by exists x.
Qed.

End Media.

Lemma upload_init_files cfg req uuid4 now s :
  uploaded_files (upload_init cfg req uuid4 now s).2 = uploaded_files s /\
  upload_root (upload_init cfg req uuid4 now s).2 = upload_root s /\
  terminal_sessions (upload_init cfg req uuid4 now s).2 = terminal_sessions s /\
  messages (upload_init cfg req uuid4 now s).2 = messages s /\
  emitted (upload_init cfg req uuid4 now s).2 = emitted s.
Proof.
  unfold upload_init. destruct (negb _ || _); [done|].
  by destruct (_ >? _).
Qed.

Lemma upload_chunk_files req s :
  uploaded_files (upload_chunk req s).2 = uploaded_files s /\
  upload_root (upload_chunk req s).2 = upload_root s /\
  terminal_sessions (upload_chunk req s).2 = terminal_sessions s /\
  messages (upload_chunk req s).2 = messages s /\
  emitted (upload_chunk req s).2 = emitted s.
Proof.
  rewrite upload_chunk_state.
  by destruct (chunk_validate req s) as [r|[[u i] cf]].
Qed.

Lemma files_on_record_handle cfg secure_filename url_for r s :
  files_on_record s ->
  files_on_record (handle cfg secure_filename url_for r s).2.
Proof.
  destruct r as [req uuid4 now|req|req env]; cbn [handle].
  - intros H id e. destruct (upload_init_files cfg req uuid4 now s)
      as (-> & -> & _). apply H.
  - intros H id e. destruct (upload_chunk_files req s) as (-> & -> & _).
    apply H.
  - apply files_on_record_complete.
Qed.

(** In every state the server reaches, every finished file on record is on
    disk. *)
Lemma reachable_files_on_record cfg secure_filename url_for s :
  reachable cfg secure_filename url_for s -> files_on_record s.
Proof.
  induction 1 as [s Hs|s r _ IH|s ts ms es _ IH].
  - destruct Hs as (_ & Hu & _). intros id e. by rewrite Hu, lookup_empty.
  - by apply files_on_record_handle.
  - exact IH.
Qed.

(** X1.  A finished upload can be fetched at once: after a successful
    [upload_complete], [serve_media] for the identifier of the returned
    record sends the file stored under the record's stored name, and its
    bytes are the chunk files 0, 1, ..., [total_chunks - 1] of the staging
    directory, concatenated in this order.  The download name is the
    original file name, the MIME type is the recorded one ([None] when it
    is empty), and the file is sent as an attachment exactly when the
    [download] argument is ["1"]. *)
Theorem completed_upload_is_served secure_filename url_for req env s f s'
    args_download :
  upload_complete secure_filename url_for req env s = (CompleteOk f, s') ->
  exists d : directory,
    chunk_root s !! file_id f = Some d /\
    serve_media (file_id f) args_download s'
    = SendFile (stored_name f)
               (concat (chunk_contents d (default 0 (body_total_chunks req))))
               (if nonempty (entry_mime f) then Some (entry_mime f) else None)
               (bool_decide (args_download = Some "1"))
               (original_name f).
Proof.
  intros Hc.
  destruct (complete_ok_inv _ _ _ _ _ _ _ Hc)
    as (info & d & _ & Hid & _ & Hd & _ & _ & Hu & _ & Hroot).
  exists d. rewrite Hid. split; [done|]. unfold serve_media.
  rewrite Hu, <- Hid, lookup_insert_eq, Hroot, lookup_insert_eq.
  by rewrite assemble_chunk_contents.
Qed.

(** X2.  In every state the server reaches, [serve_media] answers "Not
    Found" exactly for the identifiers that are not keys of
    [uploaded_files]: the file of a record is never missing.  For a key of
    [uploaded_files] it sends the file stored under the record's stored
    name. *)
Theorem serve_media_not_found_iff cfg secure_filename url_for s file_id
    args_download :
  reachable cfg secure_filename url_for s ->
  (serve_media file_id args_download s = NotFound
   <-> uploaded_files s !! file_id = None) /\
  (forall e, uploaded_files s !! file_id = Some e ->
     exists body,
       upload_root s !! stored_name e = Some body /\
       serve_media file_id args_download s
       = SendFile (stored_name e) body
                  (if nonempty (entry_mime e) then Some (entry_mime e) else None)
                  (bool_decide (args_download = Some "1"))
                  (original_name e)).
Proof.
  intros Hr. pose proof (reachable_files_on_record _ _ _ _ Hr) as Hf.
  unfold serve_media.
  destruct (uploaded_files s !! file_id) as [e|] eqn:He.
  - destruct (Hf _ _ He) as [_ [body Hb]]. rewrite Hb. split; [done|].
    intros e' [= <-]. exists body. by rewrite Hb.
  - split; [done|]. by intros e' [=].
Qed.

(** ** Exceptions in sequential runs *)

Ltac in_list :=
  repeat first [apply list_elem_of_here | apply list_elem_of_further].

Ltac json_response := split; [done | cbn; in_list].

Lemma chunk_validate_inl req s r :
  chunk_validate req s = inl r ->
  exists msg status, r = Failure msg status /\ status ∈ [400; 404].
Proof.
  unfold chunk_validate.
  repeat (match goal with
          | |- context [match ?x with _ => _ end] => destruct x
          end); intros [=]; subst; eexists _, _; (split; [done | in_list]).
Qed.

Lemma complete_validate_inl req s r :
  complete_validate req s = inl r ->
  exists msg status, r = Failure msg status /\ status ∈ [400; 404].
Proof.
  unfold complete_validate.
  repeat (match goal with
          | |- context [match ?x with _ => _ end] => destruct x
          end); intros [=]; subst; eexists _, _; (split; [done | in_list]).
Qed.

Lemma complete_validate_inr req s upload_id total :
  complete_validate req s = inr (upload_id, total) ->
  names_live_session (body_upload_id req) s upload_id /\
  default 0 (body_total_chunks req) = total /\ 0 < total.
Proof.
  unfold complete_validate, names_live_session.
  destruct (nonempty (strip (default "" (body_upload_id req)))) eqn:Hn; [|done].
  cbn [negb].
  destruct (upload_sessions s !! _) as [info|] eqn:Hs; [|done].
  destruct (Z.leb_spec (default 0 (body_total_chunks req)) 0); [done|].
  intros [= <- <-]. by rewrite Hs.
Qed.

(** X3.  Handled one after the other, the upload handlers raise nothing
    but the [OSError] of a file name that is too long.  In every state the
    server reaches, no [KeyError] escapes ([upload_sessions.pop] finds its
    key) and [chunk_dir.rmdir()] finds the staging directory empty.  An
    [OSError] escapes exactly from a chunk request that passes every check
    with an index whose chunk file name is beyond the file-name limit, and
    from a completion request that passes every check, finds every chunk
    and would name the finished file beyond the limit.  Every other
    request whose fields have the expected types is answered by a JSON
    body with one of the status codes 200, 400, 404 and 413. *)
Theorem sequential_requests_raise_only_on_long_names cfg secure_filename
    url_for s r :
  reachable cfg secure_filename url_for s ->
  (handle cfg secure_filename url_for r s).1 <> Unhandled KeyError /\
  ((handle cfg secure_filename url_for r s).1 = Unhandled OSError <->
   (exists req upload_id index cf,
      r = PutChunk req /\
      chunk_validate req s = inr (upload_id, index, cf) /\
      name_fits (chunk_name index) = false) \/
   (exists req env upload_id total info,
      r = Complete req env /\
      complete_validate req s = inr (upload_id, total) /\
      upload_sessions s !! upload_id = Some info /\
      (forall i, 0 <= i < total -> chunk_present s upload_id i) /\
      name_fits (final_name secure_filename upload_id info) = false)) /\
  ((handle cfg secure_filename url_for r s).1 <> Unhandled OSError ->
   status_of (handle cfg secure_filename url_for r s).1
   ∈ [200; 400; 404; 413]).
Proof.
  intros Hr.
  destruct (reachable_staging_consistent _ _ _ _ Hr) as [Hdirs Hnames].
  destruct r as [req uuid4 now|req|req env]; cbn [handle].
  - assert (exists st,
              status_of (upload_init cfg req uuid4 now s).1 = st /\
              st ∈ [200; 400; 404; 413] /\
              forall e, (upload_init cfg req uuid4 now s).1 <> Unhandled e)
      as (st & Hst & Hin & Hno).
    { unfold upload_init. destruct (negb _ || _);
        [eexists; split; [done|]; split; [in_list|done]|].
      destruct (_ >? _); eexists; (split; [done|]); (split; [in_list|done]). }
    split; [apply Hno|]. split; [|intros _; by rewrite Hst].
    split; [intros H; by apply Hno in H|].
    intros [(? & ? & ? & ? & [=] & _)|(? & ? & ? & ? & ? & [=] & _)].
  - unfold upload_chunk.
    destruct (chunk_validate req s) as [m|[[u i] cf]] eqn:Hv.
    + apply chunk_validate_inl in Hv as Hm. destruct Hm as (msg & st & -> & Hst).
      cbn [fst status_of]. split; [done|]. split.
      * split; [done|].
        intros [(? & ? & ? & ? & [= <-] & Hv' & _)
               |(? & ? & ? & ? & ? & [=] & _)].
        by rewrite Hv in Hv'.
      * intros _.
        apply elem_of_cons in Hst as [->|Hst%list_elem_of_singleton];
          [|subst st]; in_list.
    + unfold chunk_store.
      destruct (name_fits (chunk_name i)) eqn:Hfit; cbn [negb fst status_of].
      * split; [done|]. split; [|intros _; in_list]. split; [done|].
        intros [(? & ? & ? & ? & [= <-] & Hv' & Hlong)
               |(? & ? & ? & ? & ? & [=] & _)].
        rewrite Hv in Hv'. injection Hv' as <- <- <-.
        by rewrite Hfit in Hlong.
      * split; [done|]. split; [|by intros []]. split; [|done].
        intros _. left. by exists req, u, i, cf.
  - unfold upload_complete.
    destruct (complete_validate req s) as [m|[u total]] eqn:Hv.
    + apply complete_validate_inl in Hv as Hm.
      destruct Hm as (msg & st & -> & Hst).
      cbn [fst status_of]. split; [done|]. split.
      * split; [done|].
        intros [(? & ? & ? & ? & [=] & _)
               |(? & ? & ? & ? & ? & [= <- <-] & Hv' & _)].
        by rewrite Hv in Hv'.
      * intros _.
        apply elem_of_cons in Hst as [->|Hst%list_elem_of_singleton];
          [|subst st]; in_list.
    + apply complete_validate_inr in Hv as Hlive.
      destruct Hlive as ((_ & _ & [info Hi]) & _ & _).
      destruct (Hdirs u) as [d Hd]; [by eexists|].
      assert (forallb (chunk_exists d) (range total) = true
              <-> forall i, 0 <= i < total -> chunk_present s u i) as Hall.
      { rewrite all_chunks_exist. unfold chunk_present.
        split; intros H i Hin.
        - exists d. split; [done|]. by apply H.
        - destruct (H i Hin) as (d' & Hd' & Hex). by simplify_eq. }
      unfold complete_consume. rewrite Hi. cbn [chunk_root with_sessions].
      rewrite Hd.
      destruct (forallb _ _) eqn:Hf; cbn [negb fst status_of].
      * destruct (name_fits (final_name secure_filename u info)) eqn:Hfit;
          cbn [negb fst status_of].
        -- cbn [chunk_root with_upload_root with_sessions].
           rewrite bool_decide_eq_true_2
             by (apply unlink_chunks_all; intros name;
                 by apply Hnames with u).
           cbn [negb fst status_of].
           split; [done|]. split; [|intros _; in_list]. split; [done|].
           intros [(? & ? & ? & ? & [=] & _)
                  |(? & ? & ? & ? & info' & [= <- <-] & Hv' & Hi' & _ & Hlong)].
           rewrite Hv in Hv'. injection Hv' as <- <-.
           rewrite Hi in Hi'. injection Hi' as <-.
           by rewrite Hfit in Hlong.
        -- split; [done|]. split; [|by intros []]. split; [|done].
           intros _. right. exists req, env, u, total, info.
           repeat split; try done. by apply Hall.
      * split; [done|]. split; [|intros _; in_list]. split; [done|].
        intros [(? & ? & ? & ? & [=] & _)
               |(? & ? & ? & ? & info' & [= <- <-] & Hv' & _ & Hpres & _)].
        rewrite Hv in Hv'. injection Hv' as <- <-.
        by apply Hall in Hpres.
Qed.

(** ** [strip] *)

Lemma lstrip_head s :
  lstrip s = "" \/ exists c r, lstrip s = String c r /\ isspace c = false.
Proof.
  induction s as [|c r IH]; [by left|]. cbn [lstrip].
  destruct (isspace c) eqn:E; [done|]. right. by exists c, r.
Qed.

Lemma rstrip_cons c r :
  rstrip (String c r)
  = match rstrip r with
    | EmptyString => if isspace c then EmptyString else String c EmptyString
    | r' => String c r'
    end.
Proof. reflexivity. Qed.

Lemma rstrip_idempotent s : rstrip (rstrip s) = rstrip s.
Proof.
  induction s as [|c r IH]; [done|]. rewrite rstrip_cons.
  destruct (rstrip r) as [|c' r'] eqn:E.
  - destruct (isspace c) eqn:Ec; [done|]. rewrite rstrip_cons. cbn [rstrip].
    by rewrite Ec.
  - by rewrite rstrip_cons, IH.
Qed.

Lemma lstrip_rstrip c r :
  isspace c = false -> lstrip (rstrip (String c r)) = rstrip (String c r).
Proof.
  intros Ec. rewrite rstrip_cons.
  destruct (rstrip r); [rewrite Ec|]; cbn [lstrip]; by rewrite Ec.
Qed.

(** Stripping twice is stripping once. *)
Lemma strip_idempotent s : strip (strip s) = strip s.
Proof.
  unfold strip. destruct (lstrip_head s) as [->|(c & r & -> & Ec)]; [done|].
  by rewrite lstrip_rstrip, rstrip_idempotent.
Qed.

(** ** What is on record *)

Lemma append_nonempty a b : a <> "" -> a +:+ b <> "".
Proof. by destruct a. Qed.

Lemma upload_complete_sessions secure_filename url_for req env s id info :
  upload_sessions (upload_complete secure_filename url_for req env s).2 !! id
  = Some info ->
  upload_sessions s !! id = Some info.
Proof.
  unfold upload_complete.
  destruct (complete_validate req s) as [r|[u total]]; [done|].
  unfold complete_consume.
  destruct (upload_sessions s !! u) as [i|]; [|done].
  cbn [chunk_root with_sessions].
  assert (delete u (upload_sessions s) !! id = Some info ->
          upload_sessions s !! id = Some info) as Hd.
  { intros H. by apply lookup_delete_Some in H as [_ ?]. }
  destruct (chunk_root s !! u) as [d|]; [|done].
  destruct (forallb _ _); cbn [negb]; [|done].
  destruct (name_fits _); cbn [negb]; [|done].
  by destruct (bool_decide _).
Qed.

Lemma records_valid_handle cfg secure_filename url_for r s :
  records_valid cfg url_for s ->
  records_valid cfg url_for (handle cfg secure_filename url_for r s).2.
Proof.
  intros [Hs Hf]. destruct r as [req uuid4 now|req|req env]; cbn [handle].
  - split.
    + unfold upload_init.
      destruct (nonempty _) eqn:Hn; cbn [negb orb]; [|done].
      destruct (Z.leb_spec (default 0 (json_size req)) 0); [done|].
      destruct (Z.gtb_spec (default 0 (json_size req))
                  (max_file_size_bytes cfg)); [done|].
      cbn [snd upload_sessions with_sessions with_chunk_root].
      intros id info Hi. destruct (decide (uuid4 = id)) as [<-|Hne].
      * rewrite lookup_insert_eq in Hi. injection Hi as <-.
        split; [by apply nonempty_true|].
        split; [apply strip_idempotent | cbn; lia].
      * rewrite lookup_insert_ne in Hi by done. by apply Hs with id.
    + intros id e. destruct (upload_init_files cfg req uuid4 now s) as (-> & _).
      apply Hf.
  - split.
    + intros id info. rewrite upload_chunk_sessions. apply Hs.
    + intros id e. destruct (upload_chunk_files req s) as (-> & _). apply Hf.
  - split.
    + intros id info Hi. apply upload_complete_sessions in Hi. by apply Hs with id.
    + destruct (upload_complete secure_filename url_for req env s)
        as [r s1] eqn:E.
      destruct (upload_complete_files secure_filename url_for req env s)
        as [(f & out & Hr & Hu & _)|[Hu _]]; rewrite E in *; cbn [fst snd] in *;
        intros id e; rewrite Hu; [|apply Hf].
      subst r. destruct (complete_ok_entry _ _ _ _ _ _ _ E)
        as (info & Hi & Hfe & _).
      assert (nonempty (strip (default "" (body_upload_id req))) = true) as Hid.
      { destruct (nonempty (strip (default "" (body_upload_id req)))) eqn:Hn;
          [done|]. revert E. unfold upload_complete, complete_validate.
        by rewrite Hn. }
      apply nonempty_true in Hid.
      set (upload_id := strip (default "" (body_upload_id req))) in *.
      assert (file_id f = upload_id) as Hfid by (by rewrite Hfe).
      rewrite Hfid. intros He.
      destruct (decide (upload_id = id)) as [<-|Hne].
      * rewrite lookup_insert_eq in He. injection He as <-.
        split; [done|]. split; [done|]. rewrite Hfe. cbn.
        split; [by apply Hs with upload_id|]. split; [done|].
        destruct (nonempty (secure_filename (si_filename info))) eqn:Hsafe.
        -- exists (secure_filename (si_filename info)).
           split; [by apply nonempty_true | done].
        -- exists (upload_id +:+ ".bin"). split; [|done].
           by apply append_nonempty.
      * rewrite lookup_insert_ne in He by done. by apply Hf.
Qed.

Lemma reachable_records_valid cfg secure_filename url_for s :
  reachable cfg secure_filename url_for s -> records_valid cfg url_for s.
Proof.
  induction 1 as [s Hs|s r _ IH|s ts ms es _ IH].
  - destruct Hs as (Hs & Hu & _). split; intros id x.
    + by rewrite Hs, lookup_empty.
    + by rewrite Hu, lookup_empty.
  - by apply records_valid_handle.
  - exact IH.
Qed.

(** X4.  In every state the server reaches, what is on record went through
    the checks of [upload_init]: every live session and every finished file
    has a file name that is not empty and has no white space at either end,
    and a declared size that is positive and at most [max_file_size_bytes].
    Every record of a finished file is filed under its own non-empty
    identifier, carries the URL of that identifier, and its stored name is
    the identifier, an underscore and a non-empty name. *)
Theorem records_went_through_init cfg secure_filename url_for s :
  reachable cfg secure_filename url_for s ->
  (forall id info, upload_sessions s !! id = Some info ->
     si_filename info <> "" /\ strip (si_filename info) = si_filename info /\
     0 < si_size info <= max_file_size_bytes cfg) /\
  (forall id e, uploaded_files s !! id = Some e ->
     id <> "" /\ file_id e = id /\
     original_name e <> "" /\ strip (original_name e) = original_name e /\
     0 < entry_size e <= max_file_size_bytes cfg /\
     url e = url_for id /\
     exists safe_name,
       safe_name <> "" /\ stored_name e = id +:+ "_" +:+ safe_name).
Proof.
  intros Hr. destruct (reachable_records_valid _ _ _ _ Hr) as [Hs Hf].
  split.
  - intros id info Hi. by apply Hs with id.
  - intros id e He. destruct (Hf _ _ He) as (? & ? & (? & ? & ?) & ? & ?).
    done.
Qed.

(** ** A whole upload, from [upload_init] to [serve_media] *)

Lemma upload_init_accepted cfg req uuid4 now s :
  strip (default "" (json_filename req)) <> "" ->
  0 < default 0 (json_size req) <= max_file_size_bytes cfg ->
  upload_init cfg req uuid4 now s
  = (InitOk uuid4 (default_chunk_size_bytes cfg) (max_concurrency cfg)
            (max_file_size_bytes cfg),
     with_chunk_root (mkdir_p uuid4 (chunk_root s))
       (with_sessions
          (<[uuid4 := {| si_filename := strip (default "" (json_filename req));
                         si_size := default 0 (json_size req);
                         si_mime := strip (default "" (json_mime req));
                         si_client_msg_id :=
                           strip (default "" (json_client_msg_id req));
                         si_created_at := now |}]> (upload_sessions s)) s)).
Proof.
  intros Hn Hs. unfold upload_init.
  apply nonempty_true in Hn. rewrite Hn. cbn [negb orb].
  destruct (Z.leb_spec (default 0 (json_size req)) 0); [lia|].
  destruct (Z.gtb_spec (default 0 (json_size req)) (max_file_size_bytes cfg));
    [lia | done].
Qed.

Lemma run_put_chunks cfg secure_filename url_for reqs s :
  run cfg secure_filename url_for (PutChunk <$> reqs) s = put_chunks reqs s.
Proof.
  revert s. induction reqs as [|r reqs IH]; intros s; [done|].
  cbn [fmap list_fmap run foldl handle]. apply IH.
Qed.

Lemma sends_parts_snoc upload_id parts reqs r :
  sends_parts upload_id parts (reqs ++ [r]) ->
  exists parts' cf,
    parts = parts' ++ [storage_stream cf] /\
    sends_parts upload_id parts' reqs /\
    strip (default "" (form_upload_id r)) = upload_id /\
    int_of_str (strip (default "" (form_index r)))
    = Some (Z.of_nat (length reqs)) /\
    (exists total,
       int_of_str (strip (default "" (form_total_chunks r))) = Some total /\
       Z.of_nat (length reqs) < total) /\
    files_chunk r = Some cf /\ storage_truthy cf = true.
Proof.
  intros [Hlen H]. rewrite length_app in Hlen. cbn in Hlen.
  destruct (H (length reqs) r) as (Hid & Hi & Ht & cf & Hcf & Htr & Hp).
  { by rewrite lookup_app_r, Nat.sub_diag. }
  destruct (decide (parts = [])) as [->|Hne]; [cbn in Hlen; lia|].
  destruct (exists_last Hne) as (parts' & p & ->).
  rewrite length_app in Hlen. cbn in Hlen.
  assert (length parts' = length reqs) as Hl by lia.
  rewrite lookup_app_r, Hl, Nat.sub_diag in Hp by lia. injection Hp as ->.
  exists parts', cf. split; [done|]. split; [|done].
  split; [done|]. intros i r' Hr'.
  assert (i < length reqs)%nat as Hlt by (by apply lookup_lt_Some in Hr').
  destruct (H i r') as (? & ? & ? & cf' & ? & ? & Hp').
  { by rewrite lookup_app_l. }
  rewrite lookup_app_l in Hp' by lia. repeat split; try done. by exists cf'.
Qed.

(** After the chunk requests of a client that sends [parts], the staging
    directory holds every part under the name of its index, as long as
    the file system takes these names. *)
Lemma put_chunks_sends upload_id parts reqs s :
  upload_id <> "" ->
  is_Some (upload_sessions s !! upload_id) ->
  is_Some (chunk_root s !! upload_id) ->
  (forall i : nat, (i < length parts)%nat ->
     name_fits (chunk_name (Z.of_nat i)) = true) ->
  sends_parts upload_id parts reqs ->
  exists d : directory,
    chunk_root (put_chunks reqs s) !! upload_id = Some d /\
    forall (i : nat) data, parts !! i = Some data ->
      d !! chunk_name (Z.of_nat i) = Some data.
Proof.
  intros Hne Hlive [d0 Hd0]. revert parts.
  induction reqs as [|r reqs IH] using rev_ind; intros parts Hfits Hsend.
  - exists d0. split; [done|]. destruct Hsend as [Hlen _].
    destruct parts; [|done]. intros i data. by rewrite lookup_nil.
  - destruct (sends_parts_snoc _ _ _ _ Hsend)
      as (parts' & cf & -> & Hsend' & Hid & Hi & (total & Ht & Hlt) & Hcf & Htr).
    destruct (IH parts') as (d' & Hd' & Hparts); [|done|].
    { intros i Hlt'. apply Hfits. rewrite length_app. lia. }
    assert (name_fits (chunk_name (Z.of_nat (length reqs))) = true) as Hfit.
    { apply Hfits. destruct Hsend' as [Hl _]. rewrite length_app. cbn. lia. }
    rewrite put_chunks_app. cbn [put_chunks foldl]. fold (put_chunks reqs s).
    assert (chunk_validate r (put_chunks reqs s)
            = inr (upload_id, Z.of_nat (length reqs), cf)) as Hv.
    { apply chunk_validate_accepts with total; try done; [|lia].
      split; [done|]. split; [by apply nonempty_true|].
      by rewrite put_chunks_sessions. }
    rewrite (upload_chunk_accepted _ _ _ _ _ Hv Hfit).
    cbn [snd chunk_root with_chunk_root]. unfold write_chunk_file.
    rewrite Hd'. cbn [default from_option id].
    eexists. rewrite lookup_insert_eq. split; [done|].
    intros i data Hp. destruct Hsend' as [Hlen _].
    destruct (decide (i = length reqs)) as [->|Hi'].
    + rewrite lookup_app_r, <- Hlen, Nat.sub_diag in Hp by lia.
      injection Hp as <-. by rewrite lookup_insert_eq.
    + assert (i < length parts')%nat as Hlt'.
      { apply lookup_lt_Some in Hp. rewrite length_app in Hp. cbn in Hp. lia. }
      rewrite lookup_app_l in Hp by done.
      rewrite lookup_insert_ne; [by apply Hparts|].
      intros E. apply chunk_name_inj in E; lia.
Qed.

Lemma chunk_contents_parts (d : directory) parts :
  (forall (i : nat) data, parts !! i = Some data ->
     d !! chunk_name (Z.of_nat i) = Some data) ->
  chunk_contents d (Z.of_nat (length parts)) = parts.
Proof.
  intros H. apply list_eq. intros i. unfold chunk_contents, range.
  rewrite list_lookup_fmap, list_lookup_fmap, Nat2Z.id.
  destruct (parts !! i) as [data|] eqn:Hp.
  - rewrite lookup_seq_lt by (by apply lookup_lt_Some in Hp).
    cbn. by rewrite (H _ _ Hp).
  - rewrite lookup_seq_ge; [done|]. by apply lookup_ge_None.
Qed.

(** X5.  Upload, then download.  From any state the server reaches, let a
    client open an upload with an acceptable file name and size, send the
    parts of the file one chunk request after the other, and complete the
    upload with the number of parts, where the file system takes the names
    of the chunk files and the name of the finished file (at most
    [NAME_MAX] bytes each).  Then [serve_media] for the upload identifier
    sends a file whose bytes are the parts in order, under the stripped
    file name of the init request as download name and with its stripped
    MIME type.  Nothing compares the bytes with the declared size. *)
Theorem upload_then_download cfg secure_filename url_for s ireq uuid4 now
    parts reqs creq env args_download :
  reachable cfg secure_filename url_for s ->
  strip (default "" (json_filename ireq)) <> "" ->
  0 < default 0 (json_size ireq) <= max_file_size_bytes cfg ->
  uuid4 <> "" ->
  parts <> [] ->
  sends_parts uuid4 parts reqs ->
  (forall i : nat, (i < length parts)%nat ->
     name_fits (chunk_name (Z.of_nat i)) = true) ->
  strip (default "" (body_upload_id creq)) = uuid4 ->
  body_total_chunks creq = Some (Z.of_nat (length parts)) ->
  name_fits
    (uuid4 +:+ "_" +:+
     (if nonempty (secure_filename (strip (default "" (json_filename ireq))))
      then secure_filename (strip (default "" (json_filename ireq)))
      else uuid4 +:+ ".bin")) = true ->
  serve_media uuid4 args_download
    (run cfg secure_filename url_for
       (Init ireq uuid4 now :: (PutChunk <$> reqs) ++ [Complete creq env]) s)
  = SendFile
      (uuid4 +:+ "_" +:+
       (if nonempty (secure_filename (strip (default "" (json_filename ireq))))
        then secure_filename (strip (default "" (json_filename ireq)))
        else uuid4 +:+ ".bin"))
      (concat parts)
      (if nonempty (strip (default "" (json_mime ireq)))
       then Some (strip (default "" (json_mime ireq))) else None)
      (bool_decide (args_download = Some "1"))
      (strip (default "" (json_filename ireq))).
Proof.
  intros Hr Hname Hsize Hid Hparts Hsend Hfits Hcid Htotal Hfit.
  cbn [run foldl handle].
  change (foldl _ ?s0 ?l) with (run cfg secure_filename url_for l s0).
  assert (forall l1 l2 s0,
            run cfg secure_filename url_for (l1 ++ l2) s0
            = run cfg secure_filename url_for l2
                (run cfg secure_filename url_for l1 s0)) as Happ.
  { intros. apply foldl_app. }
  rewrite Happ, run_put_chunks. cbn [run foldl handle].
  set (s1 := (upload_init cfg ireq uuid4 now s).2).
  set (s2 := put_chunks reqs s1).
  assert (reachable cfg secure_filename url_for s2) as Hr2.
  { unfold s2. rewrite <- (run_put_chunks cfg secure_filename url_for).
    apply reachable_run. apply (reachable_step _ _ _ s (Init ireq uuid4 now) Hr). }
  destruct (reachable_staging_consistent _ _ _ _ Hr2) as [_ Hnames].
  pose proof (upload_init_accepted cfg ireq uuid4 now s Hname Hsize) as Hinit.
  set (info := {| si_filename := strip (default "" (json_filename ireq));
                  si_size := default 0 (json_size ireq);
                  si_mime := strip (default "" (json_mime ireq));
                  si_client_msg_id :=
                    strip (default "" (json_client_msg_id ireq));
                  si_created_at := now |}) in Hinit.
  assert (upload_sessions s1 !! uuid4 = Some info) as Hs1.
  { unfold s1. rewrite Hinit. cbn. by rewrite lookup_insert_eq. }
  assert (is_Some (chunk_root s1 !! uuid4)) as Hd1.
  { unfold s1. rewrite Hinit. cbn. by rewrite mkdir_p_lookup. }
  destruct (put_chunks_sends uuid4 parts reqs s1 Hid (mk_is_Some _ _ Hs1) Hd1
              Hfits Hsend) as (d & Hd & Hall).
  fold s2 in Hd.
  assert (upload_sessions s2 !! uuid4 = Some info) as Hs2.
  { unfold s2. by rewrite put_chunks_sessions. }
  assert (0 < Z.of_nat (length parts)) as Hpos.
  { destruct parts; [done | cbn; lia]. }
  assert (names_live_session (body_upload_id creq) s2 uuid4) as Hlive.
  { split; [done|]. split; [by apply nonempty_true | by rewrite Hs2]. }
  destruct (upload_complete secure_filename url_for creq env s2)
    as [r s3] eqn:Hc.
  assert (exists f, r = CompleteOk f) as [f ->].
  { revert Hc. unfold upload_complete.
    rewrite (complete_validate_live _ _ _ _ Hlive Htotal Hpos).
    destruct (complete_consume_assembles secure_filename url_for uuid4
                (Z.of_nat (length parts)) env s2 info d Hs2 Hd)
      as (f & Hf & _).
    - apply all_chunks_exist. intros i Hi.
      destruct (lookup_lt_is_Some_2 parts (Z.to_nat i)) as [data Hdata]; [lia|].
      rewrite <- (Z2Nat.id i) by lia. by rewrite (Hall _ _ Hdata).
    - exact Hfit.
    - apply unlink_chunks_all. intros name. by apply Hnames with uuid4.
    - intros E. rewrite E in Hf. cbn in Hf. by exists f. }
  cbn [snd].
  destruct (complete_ok_inv _ _ _ _ _ _ _ Hc)
    as (info' & d' & _ & Hfid & _ & Hd' & _ & _ & Hu & _ & Hroot).
  destruct (complete_ok_entry _ _ _ _ _ _ _ Hc) as (info'' & Hi'' & Hf & _).
  rewrite Hcid in *. rewrite Htotal in Hroot. cbn [default from_option id] in Hroot.
  assert (d' = d) as -> by congruence.
  assert (info'' = info) as -> by congruence.
  unfold serve_media. rewrite Hu, lookup_insert_eq, Hroot, lookup_insert_eq.
  rewrite assemble_chunk_contents, (chunk_contents_parts d parts Hall).
  by rewrite Hf.
Qed.

(** ** The dictionary of clients *)

Section Dict.
Context {V : Type}.
Implicit Types (d : list (string * V)) (k : string) (v : V).

Lemma dict_get_set_eq k v d : dict_get k (dict_set k v d) = Some v.
Proof.
  induction d as [|[k' v'] d IH]; cbn [dict_set dict_get].
  - by rewrite decide_True.
  - destruct (decide (k = k')) as [->|Hne]; cbn [dict_get].
    + by rewrite decide_True.
    + by rewrite decide_False.
Qed.

Lemma dict_get_set_ne k k' v d :
  k <> k' -> dict_get k' (dict_set k v d) = dict_get k' d.
Proof.
  intros Hne. induction d as [|[k0 v0] d IH]; cbn [dict_set dict_get].
  - by rewrite decide_False.
  - destruct (decide (k = k0)) as [->|Hk]; cbn [dict_get]; [|by rewrite IH].
    by rewrite !decide_False.
Qed.

Lemma dict_get_pop_eq k d : dict_get k (dict_pop k d) = None.
Proof.
  induction d as [|[k' v'] d IH]; [done|]. cbn [dict_pop].
  destruct (decide (k = k')) as [->|Hne]; [done|].
  cbn [dict_get]. by rewrite decide_False.
Qed.

Lemma dict_get_pop_ne k k' d :
  k <> k' -> dict_get k' (dict_pop k d) = dict_get k' d.
Proof.
  intros Hne. induction d as [|[k0 v0] d IH]; [done|]. cbn [dict_pop].
  destruct (decide (k = k0)) as [->|Hk]; cbn [dict_get]; [|by rewrite IH].
  by rewrite decide_False.
Qed.

Lemma dict_pop_absent k d : dict_get k d = None -> dict_pop k d = d.
Proof.
  induction d as [|[k' v'] d IH]; [done|]. cbn [dict_pop dict_get].
  destruct (decide (k = k')); [done|]. intros H. by rewrite IH.
Qed.

Lemma dict_pop_set_absent k v d :
  dict_get k d = None -> dict_pop k (dict_set k v d) = d.
Proof.
  induction d as [|[k' v'] d IH]; cbn [dict_set dict_pop dict_get].
  - by rewrite decide_True.
  - destruct (decide (k = k')) as [->|Hne]; [done|]. intros H.
    cbn [dict_pop]. rewrite decide_False by done. by rewrite IH.
Qed.

End Dict.

(** ** The socket handlers *)

Lemma with_chat_same s :
  with_chat (terminal_sessions s) (messages s) (emitted s) s = s.
Proof. by destruct s. Qed.

Lemma with_upload_same sv : with_upload (upload sv) sv = sv.
Proof. by destruct sv. Qed.

Lemma register_name_valid name :
  nonempty (strip name) = true ->
  (24 <? String.length (strip name))%nat = false ->
  valid_name (strip name).
Proof.
  intros Hn Hl. split; [by apply nonempty_true|].
  split; [by apply Nat.ltb_ge | apply strip_idempotent].
Qed.

(** ** The socket registry *)

Lemma upload_complete_chat secure_filename url_for req env s :
  terminal_sessions (upload_complete secure_filename url_for req env s).2
  = terminal_sessions s /\
  exists ms,
    messages (upload_complete secure_filename url_for req env s).2
    = messages s ++ ms /\
    emitted (upload_complete secure_filename url_for req env s).2
    = emitted s ++ ms.
Proof.
  unfold upload_complete.
  destruct (complete_validate req s) as [r|[u total]];
    [split; [done|]; exists []; by rewrite !app_nil_r|].
  unfold complete_consume.
  destruct (upload_sessions s !! u) as [info|];
    [|split; [done|]; exists []; by rewrite !app_nil_r].
  cbn [chunk_root with_sessions].
  destruct (chunk_root s !! u) as [d|];
    [|split; [done|]; exists []; by rewrite !app_nil_r].
  destruct (forallb _ _); cbn [negb];
    [|split; [done|]; exists []; by rewrite !app_nil_r].
  destruct (name_fits _); cbn [negb];
    [|split; [done|]; exists []; by rewrite !app_nil_r].
  destruct (bool_decide _); cbn [negb];
    [|split; [done|]; exists []; by rewrite !app_nil_r].
  split; [done|]. by eexists [_].
Qed.

(** The upload handlers leave the user names of the terminal sessions
    alone and only append to the messages. *)
Lemma handle_chat cfg secure_filename url_for r s :
  terminal_sessions (handle cfg secure_filename url_for r s).2
  = terminal_sessions s /\
  exists ms,
    messages (handle cfg secure_filename url_for r s).2 = messages s ++ ms /\
    emitted (handle cfg secure_filename url_for r s).2 = emitted s ++ ms.
Proof.
  destruct r as [req uuid4 now|req|req env]; cbn [handle].
  - destruct (upload_init_files cfg req uuid4 now s) as (_ & _ & -> & -> & ->).
    split; [done|]. exists []. by rewrite !app_nil_r.
  - destruct (upload_chunk_files req s) as (_ & _ & -> & -> & ->).
    split; [done|]. exists []. by rewrite !app_nil_r.
  - apply upload_complete_chat.
Qed.

Lemma dict_set_keys {V} k (v : V) d x :
  x ∈ (dict_set k v d).*1 -> x = k \/ x ∈ d.*1.
Proof.
  induction d as [|[k' v'] d IH]; cbn [dict_set].
  - intros H%list_elem_of_singleton. by left.
  - destruct (decide (k = k')) as [->|Hne]; cbn [fmap list_fmap fst].
    + intros [->|H]%elem_of_cons; [by left|]. right. by apply list_elem_of_further.
    + intros [->|H]%elem_of_cons; [right; apply list_elem_of_here|].
      destruct (IH H) as [->|?]; [by left|]. right.
      by apply list_elem_of_further.
Qed.

Lemma dict_pop_keys {V} k (d : list (string * V)) x :
  x ∈ (dict_pop k d).*1 -> x ∈ d.*1.
Proof.
  induction d as [|[k' v'] d IH]; [done|]. cbn [dict_pop].
  destruct (decide (k = k')) as [->|Hne]; cbn [fmap list_fmap fst].
  - intros H. by apply list_elem_of_further, IH.
  - intros [->|H]%elem_of_cons; [apply list_elem_of_here|].
    by apply list_elem_of_further, IH.
Qed.

Lemma NoDup_dict_set {V} k (v : V) d :
  NoDup d.*1 -> NoDup (dict_set k v d).*1.
Proof.
  induction d as [|[k' v'] d IH]; cbn [dict_set].
  - intros _. apply NoDup_singleton.
  - cbn [fmap list_fmap fst]. intros [Hk Hd]%NoDup_cons.
    destruct (decide (k = k')) as [->|Hne]; cbn [fmap list_fmap fst].
    + by apply NoDup_cons.
    + apply NoDup_cons. split; [|by apply IH].
      intros [->|H]%dict_set_keys; done.
Qed.

Lemma NoDup_dict_pop {V} k (d : list (string * V)) :
  NoDup d.*1 -> NoDup (dict_pop k d).*1.
Proof.
  induction d as [|[k' v'] d IH]; [done|]. cbn [dict_pop].
  cbn [fmap list_fmap fst]. intros [Hk Hd]%NoDup_cons.
  destruct (decide (k = k')) as [->|Hne]; cbn [fmap list_fmap fst];
    [by apply IH|].
  apply NoDup_cons. split; [|by apply IH]. by intros H%dict_pop_keys.
Qed.

Lemma registry_consistent_ext sv sv' :
  clients sv' = clients sv ->
  sid_to_terminal_session sv' = sid_to_terminal_session sv ->
  terminal_sids sv' = terminal_sids sv ->
  terminal_sessions (upload sv') = terminal_sessions (upload sv) ->
  registry_consistent sv -> registry_consistent sv'.
Proof.
  unfold registry_consistent. by intros -> -> -> ->.
Qed.

Lemma singleton_union_nonempty (X : gset string) sid : X ∪ {[sid]} <> ∅.
Proof.
  intros E. assert (sid ∈ X ∪ {[sid]}) as H.
  { apply elem_of_union. right. by apply elem_of_singleton. }
  rewrite E in H. by apply elem_of_empty in H.
Qed.

Lemma registry_consistent_register data sid cookie uuid4 sv :
  registry_consistent sv ->
  registry_consistent (handle_register data sid cookie uuid4 sv).2.
Proof.
  intros (H1 & H2 & H3 & H4 & H5 & H6). unfold handle_register.
  set (username := strip (default "" (data ≫= data_username))).
  destruct (nonempty username) eqn:Hn; cbn [negb]; [|done].
  destruct (24 <? String.length username)%nat eqn:Hl; [done|].
  set (t := match cookie with
            | Some t => if nonempty t then t else uuid4
            | None => uuid4
            end).
  assert (valid_name username) as Hv by (by apply register_name_valid).
  cbn [snd]. unfold registry_consistent.
  cbn [emit_clients upload clients sid_to_terminal_session terminal_sids
       terminal_sessions with_chat].
  split; [|split; [|split; [|split; [|split]]]].
  - intros sid'. destruct (decide (sid = sid')) as [<-|Hne].
    + rewrite dict_get_set_eq, lookup_insert_eq. split; by eexists.
    + rewrite dict_get_set_ne, lookup_insert_ne by done. apply H1.
  - intros sid' t' Hs. destruct (decide (sid = sid')) as [<-|Hne].
    + rewrite lookup_insert_eq in Hs. injection Hs as <-.
      rewrite !lookup_insert_eq. split; [by eexists|].
      eexists. split; [done|]. apply elem_of_union. right.
      by apply elem_of_singleton.
    + rewrite lookup_insert_ne in Hs by done.
      destruct (H2 _ _ Hs) as [Hts (X & HX & Hin)].
      destruct (decide (t = t')) as [<-|Ht].
      * rewrite !lookup_insert_eq. split; [by eexists|].
        eexists. split; [done|]. rewrite HX. apply elem_of_union. by left.
      * rewrite !lookup_insert_ne by done. split; [done|]. by exists X.
  - intros t'. destruct (decide (t = t')) as [<-|Ht].
    + rewrite !lookup_insert_eq. split; by eexists.
    + rewrite !lookup_insert_ne by done. apply H3.
  - intros t' X. destruct (decide (t = t')) as [<-|Ht].
    + rewrite lookup_insert_eq. intros [= <-]. apply singleton_union_nonempty.
    + rewrite lookup_insert_ne by done. apply H4.
  - intros sid' name. destruct (decide (sid = sid')) as [<-|Hne].
    + rewrite dict_get_set_eq. by intros [= <-].
    + rewrite dict_get_set_ne by done. apply H5.
  - intros t' name. destruct (decide (t = t')) as [<-|Ht].
    + rewrite lookup_insert_eq. by intros [= <-].
    + rewrite lookup_insert_ne by done. apply H6.
Qed.

(** What [handle_disconnect] leaves of the registry. *)
Lemma handle_disconnect_registry sid sv :
  clients (handle_disconnect sid sv) = dict_pop sid (clients sv) /\
  sid_to_terminal_session (handle_disconnect sid sv)
  = delete sid (sid_to_terminal_session sv) /\
  messages (upload (handle_disconnect sid sv)) = messages (upload sv) /\
  emitted (upload (handle_disconnect sid sv)) = emitted (upload sv) /\
  emitted_history (handle_disconnect sid sv) = emitted_history sv /\
  ((exists t (sids : gset string),
      sid_to_terminal_session sv !! sid = Some t /\ t <> "" /\
      is_Some (terminal_sessions (upload sv) !! t) /\
      sids = default ∅ (terminal_sids sv !! t) ∖ {[sid]} /\
      ((sids = ∅ /\
        terminal_sessions (upload (handle_disconnect sid sv))
        = delete t (terminal_sessions (upload sv)) /\
        terminal_sids (handle_disconnect sid sv)
        = delete t (terminal_sids sv)) \/
       (sids <> ∅ /\
        terminal_sessions (upload (handle_disconnect sid sv))
        = terminal_sessions (upload sv) /\
        terminal_sids (handle_disconnect sid sv)
        = <[t := sids]> (terminal_sids sv)))) \/
   ((forall t, sid_to_terminal_session sv !! sid = Some t ->
       t = "" \/ terminal_sessions (upload sv) !! t = None) /\
    terminal_sessions (upload (handle_disconnect sid sv))
    = terminal_sessions (upload sv) /\
    terminal_sids (handle_disconnect sid sv) = terminal_sids sv)).
Proof.
  unfold handle_disconnect.
  assert ((if bool_decide (is_Some (dict_get sid (clients sv)))
           then dict_pop sid (clients sv) else clients sv)
          = dict_pop sid (clients sv)) as Hc.
  { case_bool_decide as Hin; [done|]. symmetry. apply dict_pop_absent.
    destruct (dict_get sid (clients sv)) eqn:E; [|done].
    destruct Hin. by eexists. }
  rewrite Hc. clear Hc.
  set (removed := bool_decide (is_Some (dict_get sid (clients sv)))).
  destruct (sid_to_terminal_session sv !! sid) as [t|] eqn:Ht.
  - destruct (nonempty t) eqn:Hn; cbn [andb].
    + apply nonempty_true in Hn.
      destruct (decide (is_Some (terminal_sessions (upload sv) !! t)))
        as [Hlive|Hlive].
      * rewrite (bool_decide_eq_true_2 _ Hlive).
        destruct (decide (default ∅ (terminal_sids sv !! t) ∖ {[sid]} = ∅))
          as [He|He].
        -- rewrite (bool_decide_eq_true_2 _ He). destruct removed;
             cbn [emit_clients upload clients sid_to_terminal_session
                  terminal_sids terminal_sessions with_chat messages emitted
                  emitted_history];
             repeat (split; [done|]); left; eexists t, _;
             repeat (split; [done|]); left; done.
        -- rewrite (bool_decide_eq_false_2 _ He). destruct removed;
             cbn [emit_clients upload clients sid_to_terminal_session
                  terminal_sids terminal_sessions with_chat messages emitted
                  emitted_history];
             repeat (split; [done|]); left; eexists t, _;
             repeat (split; [done|]); right; done.
      * rewrite (bool_decide_eq_false_2 _ Hlive). destruct removed;
          cbn [emit_clients upload clients sid_to_terminal_session
               terminal_sids terminal_sessions with_chat messages emitted
               emitted_history];
          repeat (split; [done|]); right; (split; [|done]);
          intros t' [= <-]; right;
          (destruct (terminal_sessions (upload sv) !! t) eqn:E; [|done]);
          destruct Hlive; by eexists.
    + apply nonempty_false in Hn. destruct removed;
        cbn [emit_clients upload clients sid_to_terminal_session
             terminal_sids terminal_sessions with_chat messages emitted
             emitted_history];
        repeat (split; [done|]); right; (split; [|done]);
        intros t' [= <-]; by left.
  - destruct removed;
      cbn [emit_clients upload clients sid_to_terminal_session
           terminal_sids terminal_sessions with_chat messages emitted
           emitted_history];
      repeat (split; [done|]); right; (split; [|done]); by intros t' [=].
Qed.

Lemma registry_consistent_disconnect sid sv :
  registry_consistent sv -> registry_consistent (handle_disconnect sid sv).
Proof.
  intros (H1 & H2 & H3 & H4 & H5 & H6).
  destruct (handle_disconnect_registry sid sv)
    as (Hc & Hs & _ & _ & _ & Hcase).
  assert (forall sid', is_Some (dict_get sid' (dict_pop sid (clients sv)))
            <-> is_Some (delete sid (sid_to_terminal_session sv) !! sid'))
    as G1.
  { intros sid'. destruct (decide (sid = sid')) as [<-|Hne].
    - rewrite dict_get_pop_eq, lookup_delete_eq. split; by intros [? ?].
    - rewrite dict_get_pop_ne, lookup_delete_ne by done. apply H1. }
  assert (forall sid' name, dict_get sid' (dict_pop sid (clients sv)) = Some name ->
            valid_name name) as G5.
  { intros sid' name. destruct (decide (sid = sid')) as [<-|Hne].
    - by rewrite dict_get_pop_eq.
    - rewrite dict_get_pop_ne by done. apply H5. }
  unfold registry_consistent. rewrite Hc, Hs.
  destruct Hcase as [(t & sids & Ht & Hne & Hlive & -> & Hcase)|(_ & -> & ->)].
  - destruct Hcase as [(Hempty & -> & ->)|(Hempty & -> & ->)].
    + split; [done|]. split; [|split; [|split; [|split; [done|]]]].
      * intros sid' t' Hs'. apply lookup_delete_Some in Hs' as [Hsid Hs'].
        destruct (H2 _ _ Hs') as [Hts (X & HX & Hin)].
        destruct (decide (t = t')) as [<-|Hne'].
        -- rewrite HX in Hempty. cbn in Hempty.
           assert (sid' ∈ X ∖ {[sid]}) as Hin'.
           { apply elem_of_difference. split; [done|].
             intros Hin'%elem_of_singleton. done. }
           rewrite Hempty in Hin'. by apply elem_of_empty in Hin'.
        -- rewrite !lookup_delete_ne by done. split; [done|]. by exists X.
      * intros t'. destruct (decide (t = t')) as [<-|Hne'].
        -- rewrite !lookup_delete_eq. split; by intros [? ?].
        -- rewrite !lookup_delete_ne by done. apply H3.
      * intros t' X HX. apply lookup_delete_Some in HX as [_ HX].
        by apply H4 with t'.
      * intros t' name Hn. apply lookup_delete_Some in Hn as [_ Hn].
        by apply H6 with t'.
    + split; [done|]. split; [|split; [|split; [|split; [done|done]]]].
      * intros sid' t' Hs'. apply lookup_delete_Some in Hs' as [Hsid Hs'].
        destruct (H2 _ _ Hs') as [Hts (X & HX & Hin)]. split; [done|].
        destruct (decide (t = t')) as [<-|Hne'].
        -- rewrite lookup_insert_eq, HX. eexists. split; [done|]. cbn.
           apply elem_of_difference. split; [done|].
           intros Hin'%elem_of_singleton. done.
        -- rewrite lookup_insert_ne by done. by exists X.
      * intros t'. destruct (decide (t = t')) as [<-|Hne'].
        -- rewrite lookup_insert_eq. split; [by eexists | done].
        -- rewrite lookup_insert_ne by done. apply H3.
      * intros t' X. destruct (decide (t = t')) as [<-|Hne'].
        -- rewrite lookup_insert_eq. by intros [= <-].
        -- rewrite lookup_insert_ne by done. apply H4.
  - split; [done|]. split; [|done].
    intros sid' t' Hs'. apply lookup_delete_Some in Hs' as [Hsid Hs'].
    by apply H2.
Qed.

Lemma handle_message_registry data sid time_ms strftime sv sv' :
  handle_message data sid time_ms strftime sv = Some sv' ->
  clients sv' = clients sv /\
  sid_to_terminal_session sv' = sid_to_terminal_session sv /\
  terminal_sids sv' = terminal_sids sv /\
  terminal_sessions (upload sv') = terminal_sessions (upload sv) /\
  emitted_clients sv' = emitted_clients sv /\
  emitted_history sv' = emitted_history sv.
Proof.
  unfold handle_message.
  destruct (message_text data) as [raw|]; [|done].
  destruct (nonempty (strip raw)); cbn [negb]; by intros [= <-].
Qed.

Section ServerInvariants.
Context (cfg : UploadConfig) (secure_filename url_for : string -> string).

Local Abbreviation step := (act cfg secure_filename url_for).

Lemma registry_consistent_act a sv :
  registry_consistent sv -> registry_consistent (step a sv).
Proof.
  destruct a as [r|data sid cookie uuid4|data sid time_ms strftime|sid];
    cbn [act].
  - apply registry_consistent_ext; try done. cbn [with_upload upload].
    apply handle_chat.
  - apply registry_consistent_register.
  - destruct (handle_message data sid time_ms strftime sv) as [sv'|] eqn:E;
      [|done]. cbn [default from_option id].
    destruct (handle_message_registry _ _ _ _ _ _ E) as (? & ? & ? & ? & _).
    by apply registry_consistent_ext.
  - apply registry_consistent_disconnect.
Qed.

Lemma server_reachable_registry sv :
  server_reachable cfg secure_filename url_for sv -> registry_consistent sv.
Proof.
  induction 1 as [|sv a _ IH]; [|by apply registry_consistent_act].
  repeat split; try done.
  - by intros [? ?].
  - by intros [? ?].
Qed.

Lemma clients_nodup_act a sv :
  NoDup (clients sv).*1 -> NoDup (clients (step a sv)).*1.
Proof.
  destruct a as [r|data sid cookie uuid4|data sid time_ms strftime|sid];
    cbn [act].
  - done.
  - unfold handle_register. destruct (negb _); [done|].
    destruct (_ <? _)%nat; [done|]. cbn. apply NoDup_dict_set.
  - destruct (handle_message data sid time_ms strftime sv) as [sv'|] eqn:E;
      [|done]. cbn [default from_option id].
    by destruct (handle_message_registry _ _ _ _ _ _ E) as (-> & _).
  - destruct (handle_disconnect_registry sid sv) as (-> & _).
    apply NoDup_dict_pop.
Qed.

(** X7.  In every state of the server, the socket registry is consistent.
    [clients] has one entry per socket and the same sockets as
    [sid_to_terminal_session].  Every socket belongs to a terminal session
    that is on record and lists the socket.  Every terminal session on
    record has a valid name and at least one socket.  Every name in
    [clients] is valid: not empty, at most 24 characters, no white space
    at either end. *)
Theorem registry_stays_consistent sv :
  server_reachable cfg secure_filename url_for sv ->
  NoDup (clients sv).*1 /\
  (forall sid, is_Some (dict_get sid (clients sv))
               <-> is_Some (sid_to_terminal_session sv !! sid)) /\
  (forall sid t, sid_to_terminal_session sv !! sid = Some t ->
     is_Some (terminal_sessions (upload sv) !! t) /\
     exists sids : gset string,
       terminal_sids sv !! t = Some sids /\ sid ∈ sids) /\
  (forall t name, terminal_sessions (upload sv) !! t = Some name ->
     valid_name name /\
     exists sids : gset string,
       terminal_sids sv !! t = Some sids /\ sids <> ∅) /\
  (forall t, is_Some (terminal_sids sv !! t) ->
     is_Some (terminal_sessions (upload sv) !! t)) /\
  (forall sid name, dict_get sid (clients sv) = Some name -> valid_name name).
Proof.
  intros Hr.
  destruct (server_reachable_registry sv Hr) as (H1 & H2 & H3 & H4 & H5 & H6).
  split.
  { clear -Hr. induction Hr as [|sv a _ IH]; [|by apply clients_nodup_act].
    apply NoDup_nil_2. }
  split; [done|]. split; [done|]. split; [|split; [|done]].
  - intros t name Hn. split; [by apply H6 with t|].
    destruct (proj1 (H3 t)) as [sids Hs]; [by eexists|].
    exists sids. split; [done|]. by apply H4 with t.
  - intros t. apply H3.
Qed.

End ServerInvariants.

(** ** Messages *)

Lemma handle_disconnect_upload sid sv :
  exists ts,
    upload (handle_disconnect sid sv)
    = with_chat ts (messages (upload sv)) (emitted (upload sv)) (upload sv).
Proof.
  unfold handle_disconnect.
  destruct (match sid_to_terminal_session sv !! sid with
            | Some t => _
            | None => _
            end) as [ts tsids].
  exists ts. by destruct (bool_decide _).
Qed.

Lemma handle_register_upload data sid cookie uuid4 sv :
  exists ts,
    upload (handle_register data sid cookie uuid4 sv).2
    = with_chat ts (messages (upload sv)) (emitted (upload sv)) (upload sv).
Proof.
  unfold handle_register.
  destruct (negb _); [exists (terminal_sessions (upload sv)); by rewrite with_chat_same|].
  destruct (_ <? _)%nat;
    [exists (terminal_sessions (upload sv)); by rewrite with_chat_same|].
  by eexists.
Qed.

(** What an accepted message does. *)
Lemma handle_message_stores data sid time_ms strftime sv raw :
  message_text data = Some raw -> strip raw <> "" ->
  handle_message data sid time_ms strftime sv
  = Some (with_upload
            (with_chat (terminal_sessions (upload sv))
               (messages (upload sv) ++
                [{| msg_id := format_0d 0 time_ms +:+ "-" +:+ sid;
                    user := default "Anonymous" (dict_get sid (clients sv));
                    text := strip raw; ts := strftime; kind := "text";
                    file := None; client_msg_id := None |}])
               (emitted (upload sv) ++
                [{| msg_id := format_0d 0 time_ms +:+ "-" +:+ sid;
                    user := default "Anonymous" (dict_get sid (clients sv));
                    text := strip raw; ts := strftime; kind := "text";
                    file := None; client_msg_id := None |}])
               (upload sv)) sv).
Proof.
  intros Ht Hn. unfold handle_message. rewrite Ht.
  apply nonempty_true in Hn. by rewrite Hn.
Qed.

Lemma handle_message_ignores data sid time_ms strftime sv raw :
  message_text data = Some raw -> strip raw = "" ->
  handle_message data sid time_ms strftime sv = Some sv.
Proof.
  intros Ht Hn. unfold handle_message. rewrite Ht.
  apply nonempty_false in Hn. by rewrite Hn.
Qed.

Section ServerMessages.
Context (cfg : UploadConfig) (secure_filename url_for : string -> string).

Local Abbreviation step := (act cfg secure_filename url_for).

(** The messages and the ["message"] broadcasts after an event: both grow
    by the same messages. *)
Lemma act_messages a sv :
  exists ms,
    messages (upload (step a sv)) = messages (upload sv) ++ ms /\
    emitted (upload (step a sv)) = emitted (upload sv) ++ ms.
Proof.
  destruct a as [r|data sid cookie uuid4|data sid time_ms strftime|sid];
    cbn [act].
  - cbn [with_upload upload]. apply handle_chat.
  - destruct (handle_register_upload data sid cookie uuid4 sv) as [ts ->].
    exists []. by rewrite !app_nil_r.
  - unfold handle_message. destruct (message_text data) as [raw|];
      [|exists []; by rewrite !app_nil_r].
    destruct (negb _); [exists []; by rewrite !app_nil_r|]. by eexists [_].
  - destruct (handle_disconnect_upload sid sv) as [ts ->].
    exists []. by rewrite !app_nil_r.
Qed.

Lemma serve_messages acts sv :
  exists ms,
    messages (upload (serve cfg secure_filename url_for acts sv))
    = messages (upload sv) ++ ms.
Proof.
  revert sv. induction acts as [|a acts IH]; intros sv.
  - exists []. by rewrite app_nil_r.
  - cbn [serve foldl]. destruct (IH (step a sv)) as [ms2 E].
    destruct (act_messages a sv) as (ms1 & E1 & _).
    exists (ms1 ++ ms2). unfold serve in E. by rewrite E, E1, app_assoc.
Qed.

Lemma server_reachable_upload sv :
  server_reachable cfg secure_filename url_for sv ->
  reachable cfg secure_filename url_for (upload sv).
Proof.
  induction 1 as [|sv a _ IH]; [by apply reachable_start|].
  destruct a as [r|data sid cookie uuid4|data sid time_ms strftime|sid];
    cbn [act].
  - by apply reachable_step.
  - destruct (handle_register_upload data sid cookie uuid4 sv) as [ts ->].
    by apply reachable_chat.
  - unfold handle_message. destruct (message_text data) as [raw|]; [|done].
    destruct (negb _); [done|]. by apply reachable_chat.
  - destruct (handle_disconnect_upload sid sv) as [ts ->].
    by apply reachable_chat.
Qed.

(** X8.  Every message in the history was broadcast, and nothing else:
    in every state of the server the list of ["message"] broadcasts is the
    list [messages], in the same order. *)
Theorem broadcasts_match_history sv :
  server_reachable cfg secure_filename url_for sv ->
  emitted (upload sv) = messages (upload sv).
Proof.
  induction 1 as [|sv a _ IH]; [done|].
  destruct (act_messages a sv) as (ms & -> & ->). by rewrite IH.
Qed.

(** X9.  The history is append-only.  Whatever events follow, the messages
    of a state remain, in their order, the beginning of the later list of
    messages; and the history sent to a socket when it registered is the
    beginning of the list of messages of every later state. *)
Theorem history_is_append_only sv :
  server_reachable cfg secure_filename url_for sv ->
  (forall acts,
     messages (upload sv)
     `prefix_of` messages (upload (serve cfg secure_filename url_for acts sv))) /\
  (forall sid history,
     (sid, history) ∈ emitted_history sv ->
     history `prefix_of` messages (upload sv)).
Proof.
  intros Hr. split.
  - intros acts. destruct (serve_messages acts sv) as [ms ->]. by exists ms.
  - induction Hr as [|sv a _ IH]; [by intros ?? ?%elem_of_nil|].
    intros sid history Hin.
    destruct (act_messages a sv) as (ms & E & _).
    assert ((sid, history) ∈ emitted_history sv \/
            history = messages (upload sv)) as [Hold| ->].
    { revert Hin.
      destruct a as [r|data sid' cookie uuid4|data sid' time_ms strftime|sid'];
        cbn [act].
      - by left.
      - unfold handle_register. destruct (negb _); [by left|].
        destruct (_ <? _)%nat; [by left|]. cbn.
        intros [?|[= -> ->]%list_elem_of_singleton]%elem_of_app;
          [by left | by right].
      - destruct (handle_message data sid' time_ms strftime sv) as [sv'|] eqn:Hm;
          [|by left]. cbn [default from_option id].
        destruct (handle_message_registry _ _ _ _ _ _ Hm)
          as (_ & _ & _ & _ & _ & ->). by left.
      - destruct (handle_disconnect_registry sid' sv)
          as (_ & _ & _ & _ & -> & _). by left. }
    + rewrite E. etrans; [apply (IH _ _ Hold)|]. by exists ms.
    + rewrite E. by exists ms.
Qed.

End ServerMessages.

Lemma upload_complete_messages secure_filename url_for req env s :
  messages (upload_complete secure_filename url_for req env s).2 = messages s \/
  exists f,
    upload_complete secure_filename url_for req env s
    = (CompleteOk f, (upload_complete secure_filename url_for req env s).2).
Proof.
  unfold upload_complete.
  destruct (complete_validate req s) as [r|[u total]]; [by left|].
  unfold complete_consume.
  destruct (upload_sessions s !! u) as [info|]; [|by left].
  cbn [chunk_root with_sessions].
  destruct (chunk_root s !! u) as [d|]; [|by left].
  destruct (forallb _ _); cbn [negb]; [|by left].
  destruct (name_fits _); cbn [negb]; [|by left].
  destruct (bool_decide _); cbn [negb]; [|by left].
  right. by eexists.
Qed.

Lemma acting_username_ok env s :
  (forall t name, terminal_sessions s !! t = Some name -> valid_name name) ->
  acting_username env s = "Anonymous" \/ valid_name (acting_username env s).
Proof.
  intros H. unfold acting_username.
  destruct (cookie_terminal_session_id env) as [t|]; [|by left].
  destruct (nonempty t); [|by left].
  destruct (terminal_sessions s !! t) as [name|] eqn:E; [|by left].
  right. by apply H with t.
Qed.

Section ServerChat.
Context (cfg : UploadConfig) (secure_filename url_for : string -> string).

Local Abbreviation step := (act cfg secure_filename url_for).

Lemma act_new_messages a sv :
  server_reachable cfg secure_filename url_for sv ->
  exists ms,
    messages (upload (step a sv)) = messages (upload sv) ++ ms /\
    Forall message_ok ms.
Proof.
  intros Hr.
  destruct (server_reachable_registry cfg secure_filename url_for sv Hr)
    as (_ & _ & _ & _ & Hclients & Hsessions).
  destruct (reachable_records_valid _ _ _ _
              (server_reachable_upload cfg secure_filename url_for sv Hr))
    as [Hrec _].
  destruct a as [r|data sid cookie uuid4|data sid time_ms strftime|sid];
    cbn [act].
  - cbn [with_upload upload].
    destruct r as [req uuid4 now|req|req env]; cbn [handle].
    + destruct (upload_init_files cfg req uuid4 now (upload sv))
        as (_ & _ & _ & -> & _). exists []. by rewrite app_nil_r.
    + destruct (upload_chunk_files req (upload sv)) as (_ & _ & _ & -> & _).
      exists []. by rewrite app_nil_r.
    + destruct (upload_complete_messages secure_filename url_for req env
                  (upload sv)) as [->|[f E]];
        [exists []; by rewrite app_nil_r|].
      destruct (complete_ok_entry _ _ _ _ _ _ _ E)
        as (info & Hi & Hf & _ & msg & Hm & _ & Hu & Ht & Hk & Hfile).
      exists [msg]. split; [done|]. apply Forall_singleton.
      destruct (Hrec _ _ Hi) as (Hne & Hstrip & _).
      split; [rewrite Hu; by apply acting_username_ok|].
      rewrite Ht. split; [done|]. split; [done|]. right.
      split; [done|]. exists f. split; [done|]. by rewrite Hf.
  - destruct (handle_register_upload data sid cookie uuid4 sv) as [ts ->].
    exists []. by rewrite app_nil_r.
  - destruct (message_text data) as [raw|] eqn:Hraw.
    + destruct (decide (strip raw = "")) as [Hblank|Htext].
      * rewrite (handle_message_ignores _ _ _ _ _ _ Hraw Hblank).
        exists []. by rewrite app_nil_r.
      * rewrite (handle_message_stores _ _ _ _ _ _ Hraw Htext).
        eexists [_]. split; [done|]. apply Forall_singleton.
        split; [|split; [done|]; split; [apply strip_idempotent|]; by left].
        cbn [user]. destruct (dict_get sid (clients sv)) as [name|] eqn:E;
          [right; by apply Hclients with sid | by left].
    + unfold handle_message. rewrite Hraw. exists []. by rewrite app_nil_r.
  - destruct (handle_disconnect_upload sid sv) as [ts ->].
    exists []. by rewrite app_nil_r.
Qed.

(** X10.  Every message in the history is well formed.  Its user is
    ["Anonymous"] or a valid name (not empty, at most 24 characters, no
    white space at either end); its text is not empty and has no white
    space at either end; and it is either a text message without a file,
    or a file message whose file is on it and whose text is the original
    name of that file. *)
Theorem stored_messages_are_well_formed sv m :
  server_reachable cfg secure_filename url_for sv ->
  m ∈ messages (upload sv) ->
  (user m = "Anonymous" \/ valid_name (user m)) /\
  text m <> "" /\ strip (text m) = text m /\
  ((kind m = "text" /\ file m = None /\ client_msg_id m = None) \/
   (kind m = "file" /\ exists f, file m = Some f /\ text m = original_name f)).
Proof.
  intros Hr. revert m.
  change (forall m, m ∈ messages (upload sv) -> message_ok m).
  apply Forall_forall.
  induction Hr as [|sv a Hr IH]; [apply Forall_nil_2|].
  destruct (act_new_messages a sv Hr) as (ms & -> & Hms).
  by apply Forall_app.
Qed.

Lemma handle_disconnect_broadcast sid sv :
  emitted_clients (handle_disconnect sid sv)
  = if bool_decide (is_Some (dict_get sid (clients sv)))
    then emitted_clients sv ++ [dict_values (dict_pop sid (clients sv))]
    else emitted_clients sv.
Proof.
  unfold handle_disconnect.
  destruct (match sid_to_terminal_session sv !! sid with
            | Some t => _
            | None => _
            end) as [ts tsids].
  by destruct (bool_decide _).
Qed.

(** X11.  The last ["clients"] broadcast is up to date: in every state of
    the server, the list of names broadcast last (the empty list when
    nothing was broadcast yet) is the list of the names in [clients], in
    the order of the dictionary. *)
Theorem last_clients_broadcast_is_current sv :
  server_reachable cfg secure_filename url_for sv ->
  default [] (last (emitted_clients sv)) = _client_names sv.
Proof.
  induction 1 as [|sv a _ IH]; [done|]. unfold _client_names in *.
  destruct a as [r|data sid cookie uuid4|data sid time_ms strftime|sid];
    cbn [act].
  - done.
  - unfold handle_register. destruct (negb _); [done|].
    destruct (_ <? _)%nat; [done|]. cbn. by rewrite last_snoc.
  - destruct (handle_message data sid time_ms strftime sv) as [sv'|] eqn:E;
      [|done]. cbn [default from_option id].
    by destruct (handle_message_registry _ _ _ _ _ _ E)
      as (-> & _ & _ & _ & -> & _).
  - rewrite handle_disconnect_broadcast.
    destruct (handle_disconnect_registry sid sv) as (-> & _).
    case_bool_decide as Hin; [by rewrite last_snoc|].
    rewrite dict_pop_absent; [done|].
    destruct (dict_get sid (clients sv)) eqn:E; [|done].
    destruct Hin. by eexists.
Qed.

(** X12.  A [disconnect] of a socket that never registered, or that has
    disconnected already, changes nothing and sends nothing. *)
Theorem disconnect_of_unknown_socket sid sv :
  server_reachable cfg secure_filename url_for sv ->
  dict_get sid (clients sv) = None ->
  handle_disconnect sid sv = sv.
Proof.
  intros Hr Hc.
  destruct (server_reachable_registry cfg secure_filename url_for sv Hr)
    as (H1 & _).
  assert (sid_to_terminal_session sv !! sid = None) as Hs.
  { destruct (sid_to_terminal_session sv !! sid) eqn:E; [|done].
    destruct (proj2 (H1 sid)) as [x Hx]; [by eexists | congruence]. }
  unfold handle_disconnect. rewrite Hc, Hs.
  rewrite bool_decide_eq_false_2 by (by intros [? ?]).
  rewrite with_chat_same, delete_id by done. by destruct sv.
Qed.

(** X13.  A [disconnect] of a registered socket whose terminal session has
    a non-empty identifier takes the socket out of [clients] and of
    [sid_to_terminal_session], leaves every other socket as it was, and
    broadcasts the remaining names.  If the socket was the only one listed
    for its terminal session, the terminal session is removed; otherwise
    the terminal session keeps its name and loses just this socket. *)
Theorem disconnect_of_registered_socket sid t sv :
  server_reachable cfg secure_filename url_for sv ->
  sid_to_terminal_session sv !! sid = Some t -> t <> "" ->
  dict_get sid (clients (handle_disconnect sid sv)) = None /\
  sid_to_terminal_session (handle_disconnect sid sv) !! sid = None /\
  (forall sid', sid' <> sid ->
     dict_get sid' (clients (handle_disconnect sid sv))
     = dict_get sid' (clients sv) /\
     sid_to_terminal_session (handle_disconnect sid sv) !! sid'
     = sid_to_terminal_session sv !! sid') /\
  emitted_clients (handle_disconnect sid sv)
  = emitted_clients sv ++ [_client_names (handle_disconnect sid sv)] /\
  exists sids : gset string,
    terminal_sids sv !! t = Some sids /\ sid ∈ sids /\
    (sids = {[sid]} ->
     terminal_sessions (upload (handle_disconnect sid sv))
     = delete t (terminal_sessions (upload sv)) /\
     terminal_sids (handle_disconnect sid sv) = delete t (terminal_sids sv)) /\
    (sids <> {[sid]} ->
     terminal_sessions (upload (handle_disconnect sid sv))
     = terminal_sessions (upload sv) /\
     terminal_sids (handle_disconnect sid sv)
     = <[t := sids ∖ {[sid]}]> (terminal_sids sv)).
Proof.
  intros Hr Hs Hne.
  destruct (server_reachable_registry cfg secure_filename url_for sv Hr)
    as (H1 & H2 & _).
  destruct (H2 _ _ Hs) as (Hlive & sids & Hsids & Hin).
  assert (is_Some (dict_get sid (clients sv))) as Hc.
  { apply H1. by eexists. }
  rewrite handle_disconnect_broadcast, bool_decide_eq_true_2 by done.
  unfold _client_names.
  destruct (handle_disconnect_registry sid sv)
    as (-> & -> & _ & _ & _ & Hcase).
  split; [apply dict_get_pop_eq|]. split; [apply lookup_delete_eq|].
  split.
  { intros sid' Hsid. by rewrite dict_get_pop_ne, lookup_delete_ne. }
  split; [done|]. exists sids. split; [done|]. split; [done|].
  destruct Hcase as [(t' & sids' & Ht' & _ & _ & -> & Hcase)|(Hnone & _)].
  - assert (t' = t) as -> by congruence. rewrite Hsids in Hcase. cbn in Hcase.
    destruct Hcase as [(He & -> & ->)|(He & -> & ->)]; split; try done.
    + intros Hx. destruct Hx. apply set_eq. intros x. split.
      * intros Hx. destruct (decide (x = sid)) as [->|Hxs];
          [by apply elem_of_singleton|].
        assert (x ∈ sids ∖ {[sid]}) as Hx'.
        { apply elem_of_difference. split; [done|].
          by intros ?%elem_of_singleton. }
        rewrite He in Hx'. by apply elem_of_empty in Hx'.
      * by intros ->%elem_of_singleton.
    + intros ->. destruct He. apply set_eq. intros x. split.
      * intros [? ?]%elem_of_difference. done.
      * by intros ?%elem_of_empty.
  - destruct (Hnone _ Hs) as [?|Hn]; [done|].
    rewrite Hn in Hlive. by destruct Hlive.
Qed.

End ServerChat.

(** ** Names on messages *)

Lemma dict_set_absent {V} k (v : V) d :
  dict_get k d = None -> dict_set k v d = d ++ [(k, v)].
Proof.
  induction d as [|[k' v'] d IH]; [done|]. cbn [dict_set dict_get].
  destruct (decide (k = k')); [done|]. intros H. by rewrite IH.
Qed.

Lemma handle_register_accepted data sid cookie uuid4 sv :
  (handle_register data sid cookie uuid4 sv).1.1 = RegisterOk ->
  let username := strip (default "" (data ≫= data_username)) in
  let t := match cookie with
           | Some t => if nonempty t then t else uuid4
           | None => uuid4
           end in
  valid_name username /\
  handle_register data sid cookie uuid4 sv
  = (RegisterOk, Some t,
     {| upload := with_chat (<[t := username]> (terminal_sessions (upload sv)))
                            (messages (upload sv)) (emitted (upload sv))
                            (upload sv);
        terminal_sids :=
          <[t := default ∅ (terminal_sids sv !! t) ∪ {[sid]}]> (terminal_sids sv);
        sid_to_terminal_session := <[sid := t]> (sid_to_terminal_session sv);
        clients := dict_set sid username (clients sv);
        emitted_clients :=
          emitted_clients sv ++ [dict_values (dict_set sid username (clients sv))];
        emitted_history :=
          emitted_history sv ++ [(sid, messages (upload sv))] |}).
Proof.
  unfold handle_register.
  destruct (nonempty _) eqn:Hn; cbn [negb]; [|done].
  destruct (_ <? _)%nat eqn:Hl; [done|]. intros _. cbn zeta.
  split; [by apply register_name_valid | done].
Qed.

Section Names.
Context (cfg : UploadConfig) (secure_filename url_for : string -> string).


(** X14.  Register, then disconnect.  When a socket that is not in
    [clients] registers under a terminal session that is not on record and
    then disconnects, the registry and the upload state are as before:
    [clients], [sid_to_terminal_session], the terminal sessions and
    everything the upload handlers use.  What remains are the events sent
    on the way: the history to the socket, the list of names with the new
    name at its end, and the list of names as it was. *)
Theorem register_then_disconnect data sid cookie uuid4 sv :
  server_reachable cfg secure_filename url_for sv ->
  (handle_register data sid cookie uuid4 sv).1.1 = RegisterOk ->
  dict_get sid (clients sv) = None ->
  (handle_register data sid cookie uuid4 sv).1.2 <> Some "" ->
  (forall t, (handle_register data sid cookie uuid4 sv).1.2 = Some t ->
     terminal_sessions (upload sv) !! t = None) ->
  handle_disconnect sid (handle_register data sid cookie uuid4 sv).2
  = {| upload := upload sv;
       terminal_sids := terminal_sids sv;
       sid_to_terminal_session := sid_to_terminal_session sv;
       clients := clients sv;
       emitted_clients :=
         emitted_clients sv ++
         [_client_names sv ++ [strip (default "" (data ≫= data_username))];
          _client_names sv];
       emitted_history :=
         emitted_history sv ++ [(sid, messages (upload sv))] |}.
Proof.
  intros Hr Hok Hc Hne Hfresh.
  destruct (server_reachable_registry cfg secure_filename url_for sv Hr)
    as (H1 & _ & H3 & _).
  destruct (handle_register_accepted _ _ _ _ _ Hok) as [_ E].
  rewrite E in *. cbn [fst snd] in *. clear E.
  set (t := match cookie with
            | Some t => if nonempty t then t else uuid4
            | None => uuid4
            end) in *.
  set (username := strip (default "" (data ≫= data_username))).
  assert (t <> "") as Ht by (intros E; apply Hne; by rewrite E).
  specialize (Hfresh t eq_refl).
  assert (terminal_sids sv !! t = None) as Hsids.
  { destruct (terminal_sids sv !! t) eqn:E; [|done].
    destruct (proj2 (H3 t)) as [x Hx]; [by eexists | congruence]. }
  assert (sid_to_terminal_session sv !! sid = None) as Hs.
  { destruct (sid_to_terminal_session sv !! sid) eqn:E; [|done].
    destruct (proj2 (H1 sid)) as [x Hx]; [by eexists | congruence]. }
  unfold handle_disconnect.
  cbn [upload clients sid_to_terminal_session terminal_sids terminal_sessions
       with_chat messages emitted emitted_clients emitted_history].
  rewrite dict_get_set_eq, !lookup_insert_eq, Hsids.
  apply nonempty_true in Ht. rewrite Ht. cbn [andb default from_option id].
  assert ((∅ ∪ {[sid]}) ∖ {[sid]} = (∅ : gset string)) as ->.
  { apply set_eq. intros x. split; [|by intros ?%elem_of_empty].
    intros [[?%elem_of_empty|?]%elem_of_union ?]%elem_of_difference; done. }
  rewrite !bool_decide_eq_true_2 by (done || by eexists).
  rewrite dict_pop_set_absent by done.
  rewrite !delete_insert_id by done.
  unfold emit_clients, _client_names, dict_values.
  cbn [upload clients sid_to_terminal_session terminal_sids emitted_clients
       emitted_history].
  rewrite dict_set_absent by done. rewrite fmap_app. cbn [fmap list_fmap snd].
  rewrite <- app_assoc. cbn [app]. f_equal. by destruct (upload sv).
Qed.

(** X15.  A socket posts under the name it registered.  After a successful
    [handle_register], a message with a text that is not blank from the
    same socket is appended to the history and broadcast with the stripped
    user name of the registration and the stripped text.  After the
    socket's [disconnect] such a message is posted as ["Anonymous"]. *)
Theorem message_carries_registered_name data sid cookie uuid4 sv mdata raw
    time_ms strftime :
  (handle_register data sid cookie uuid4 sv).1.1 = RegisterOk ->
  message_text mdata = Some raw -> strip raw <> "" ->
  (exists sv2 msg,
     handle_message mdata sid time_ms strftime
       (handle_register data sid cookie uuid4 sv).2 = Some sv2 /\
     messages (upload sv2) = messages (upload sv) ++ [msg] /\
     emitted (upload sv2) = emitted (upload sv) ++ [msg] /\
     user msg = strip (default "" (data ≫= data_username)) /\
     text msg = strip raw /\ kind msg = "text" /\ file msg = None) /\
  (exists sv3 msg,
     handle_message mdata sid time_ms strftime
       (handle_disconnect sid (handle_register data sid cookie uuid4 sv).2)
     = Some sv3 /\
     messages (upload sv3) = messages (upload sv) ++ [msg] /\
     user msg = "Anonymous" /\ text msg = strip raw).
Proof.
  intros Hok Hraw Htext. split.
  - rewrite (handle_message_stores _ _ _ _ _ _ Hraw Htext).
    destruct (handle_register_accepted _ _ _ _ _ Hok) as [_ ->].
    eexists _, _. split; [done|].
    cbn [snd upload clients with_upload with_chat messages emitted user text
         kind file].
    by rewrite dict_get_set_eq.
  - rewrite (handle_message_stores _ _ _ _ _ _ Hraw Htext).
    destruct (handle_disconnect_registry sid
                (handle_register data sid cookie uuid4 sv).2)
      as (-> & _ & Hm & _).
    eexists _, _. split; [done|].
    cbn [upload with_upload with_chat messages user text]. rewrite Hm.
    rewrite dict_get_pop_eq.
    destruct (handle_register_upload data sid cookie uuid4 sv) as [ts ->].
    done.
Qed.

(** X16.  A finished upload is announced under the name of the terminal
    session.  After a successful [handle_register] that leaves the
    terminal session [t] (not the empty string) in the session cookie, a
    successful [upload_complete] whose cookie names [t] appends a file
    message to the history whose user is the stripped user name of the
    registration and whose text is the original name of the file. *)
Theorem file_message_carries_terminal_name data sid cookie uuid4 sv t req env
    f s' :
  (handle_register data sid cookie uuid4 sv).1 = (RegisterOk, Some t) ->
  t <> "" ->
  cookie_terminal_session_id env = Some t ->
  upload_complete secure_filename url_for req env
    (upload (handle_register data sid cookie uuid4 sv).2) = (CompleteOk f, s') ->
  exists msg,
    messages s' = messages (upload sv) ++ [msg] /\
    user msg = strip (default "" (data ≫= data_username)) /\
    text msg = original_name f /\ kind msg = "file" /\ file msg = Some f.
Proof.
  intros Hreg Ht Hcookie Hc.
  assert ((handle_register data sid cookie uuid4 sv).1.1 = RegisterOk) as Hok
    by (by rewrite Hreg).
  destruct (handle_register_accepted _ _ _ _ _ Hok) as [_ E].
  rewrite E in Hreg, Hc. cbn [fst snd upload] in Hreg, Hc.
  injection Hreg as Hreg.
  destruct (complete_ok_entry _ _ _ _ _ _ _ Hc)
    as (info & _ & Hf & _ & msg & Hm & _ & Hu & Htext & Hk & Hfile).
  exists msg. split; [done|].
  split; [|split; [by rewrite Htext, Hf | done]].
  rewrite Hu. unfold acting_username. rewrite Hcookie.
  apply nonempty_true in Ht. rewrite Ht. cbn [terminal_sessions with_chat].
  by rewrite Hreg, lookup_insert_eq.
Qed.

(** X17.  Once the only socket of a terminal session has disconnected, a
    finished upload of that terminal session is announced as
    ["Anonymous"]: a successful [upload_complete] whose cookie names the
    terminal session appends a file message whose user is ["Anonymous"]. *)
Theorem file_message_after_disconnect sid t sv req env f s' :
  server_reachable cfg secure_filename url_for sv ->
  sid_to_terminal_session sv !! sid = Some t ->
  terminal_sids sv !! t = Some {[sid]} ->
  cookie_terminal_session_id env = Some t ->
  upload_complete secure_filename url_for req env
    (upload (handle_disconnect sid sv)) = (CompleteOk f, s') ->
  exists msg,
    messages s' = messages (upload sv) ++ [msg] /\
    user msg = "Anonymous" /\
    text msg = original_name f /\ kind msg = "file" /\ file msg = Some f.
Proof.
  intros Hr Hs Hsids Hcookie Hc.
  destruct (server_reachable_registry cfg secure_filename url_for sv Hr)
    as (_ & H2 & _).
  destruct (H2 _ _ Hs) as (Hlive & _).
  destruct (complete_ok_entry _ _ _ _ _ _ _ Hc)
    as (info & _ & Hf & _ & msg & Hm & _ & Hu & Htext & Hk & Hfile).
  destruct (handle_disconnect_registry sid sv)
    as (_ & _ & Hmsgs & _ & _ & Hcase).
  exists msg. rewrite <- Hmsgs. split; [done|].
  split; [|split; [by rewrite Htext, Hf | done]].
  rewrite Hu. unfold acting_username. rewrite Hcookie.
  destruct (nonempty t) eqn:Hn; [|done]. apply nonempty_true in Hn.
  destruct Hcase as [(t' & sids' & Ht' & _ & _ & -> & Hcase)|(Hnone & _)].
  - assert (t' = t) as -> by congruence. rewrite Hsids in Hcase.
    cbn in Hcase. destruct Hcase as [(_ & -> & _)|(He & _)].
    + by rewrite lookup_delete_eq.
    + destruct He. apply set_eq. intros x. split; [|by intros ?%elem_of_empty].
      intros [? ?]%elem_of_difference. done.
  - destruct (Hnone _ Hs) as [?|Hnone']; [done|].
    rewrite Hnone' in Hlive. by destruct Hlive.
Qed.

End Names.

(** ** Uploads side by side *)

Lemma handle_other_upload cfg secure_filename url_for r s id :
  request_target r <> id ->
  upload_sessions (handle cfg secure_filename url_for r s).2 !! id
  = upload_sessions s !! id /\
  chunk_root (handle cfg secure_filename url_for r s).2 !! id
  = chunk_root s !! id /\
  uploaded_files (handle cfg secure_filename url_for r s).2 !! id
  = uploaded_files s !! id.
Proof.
  destruct r as [req uuid4 now|req|req env]; cbn [handle request_target];
    intros Hne.
  - unfold upload_init. destruct (negb _ || _); [done|].
    destruct (_ >? _); [done|].
    cbn [snd upload_sessions chunk_root uploaded_files with_sessions
         with_chunk_root].
    by rewrite lookup_insert_ne, mkdir_p_lookup_ne.
  - rewrite upload_chunk_state.
    destruct (chunk_validate req s) as [m|[[u i] cf]] eqn:Hv; [done|].
    apply chunk_validate_inr in Hv as ((Hid & _) & _).
    cbn [upload_sessions chunk_root uploaded_files with_chunk_root].
    by rewrite store_chunk_file_lookup_ne by congruence.
  - unfold upload_complete.
    destruct (complete_validate req s) as [m|[u total]] eqn:Hv; [done|].
    apply complete_validate_inr in Hv as ((Hid & _) & _).
    assert (u <> id) as Hu by congruence.
    unfold complete_consume.
    destruct (upload_sessions s !! u) as [info|]; [|done].
    cbn [chunk_root with_sessions].
    destruct (chunk_root s !! u) as [d|];
      [|cbn; by rewrite lookup_delete_ne].
    destruct (forallb _ _); cbn [negb];
      [|cbn; by rewrite lookup_delete_ne].
    destruct (name_fits _); cbn [negb];
      [|cbn; by rewrite lookup_delete_ne].
    destruct (bool_decide _); cbn [negb]; cbn;
      by rewrite ?lookup_delete_ne, ?lookup_insert_ne.
Qed.

(** X18.  Uploads do not interfere.  Requests that are about other uploads
    (init requests that draw another identifier, chunk and completion
    requests that name another identifier) leave an upload as it is: its
    session, its staging directory with every chunk file in it, and its
    record among the finished files. *)
Theorem uploads_do_not_interfere cfg secure_filename url_for rs s id :
  Forall (fun r => request_target r <> id) rs ->
  upload_sessions (run cfg secure_filename url_for rs s) !! id
  = upload_sessions s !! id /\
  chunk_root (run cfg secure_filename url_for rs s) !! id
  = chunk_root s !! id /\
  uploaded_files (run cfg secure_filename url_for rs s) !! id
  = uploaded_files s !! id.
Proof.
  intros H. revert s. induction H as [|r rs Hr _ IH]; intros s; [done|].
  cbn [run foldl].
  destruct (IH (handle cfg secure_filename url_for r s).2) as (E1 & E2 & E3).
  unfold run in E1, E2, E3. rewrite E1, E2, E3.
  by apply handle_other_upload.
Qed.

(** ** Several sockets of one terminal session *)

(** X19.  The terminal session carries the name registered last.  When two
    different sockets register one after the other with the same non-empty
    session cookie, both are listed for the terminal session of the
    cookie, each socket keeps its own name in [clients], and the user name
    of the terminal session (the one [upload_complete] uses) is the name
    of the second registration. *)
Theorem terminal_name_is_last_registered data1 sid1 data2 sid2 t uuid4 uuid4'
    sv :
  t <> "" -> sid1 <> sid2 ->
  (handle_register data1 sid1 (Some t) uuid4 sv).1.1 = RegisterOk ->
  (handle_register data2 sid2 (Some t) uuid4'
     (handle_register data1 sid1 (Some t) uuid4 sv).2).1.1 = RegisterOk ->
  let sv2 := (handle_register data2 sid2 (Some t) uuid4'
                (handle_register data1 sid1 (Some t) uuid4 sv).2).2 in
  dict_get sid1 (clients sv2) = Some (strip (default "" (data1 ≫= data_username))) /\
  dict_get sid2 (clients sv2) = Some (strip (default "" (data2 ≫= data_username))) /\
  terminal_sessions (upload sv2) !! t
  = Some (strip (default "" (data2 ≫= data_username))) /\
  sid_to_terminal_session sv2 !! sid1 = Some t /\
  sid_to_terminal_session sv2 !! sid2 = Some t /\
  exists sids : gset string,
    terminal_sids sv2 !! t = Some sids /\ sid1 ∈ sids /\ sid2 ∈ sids.
Proof.
  intros Ht Hsid Hok1 Hok2. cbn zeta.
  destruct (handle_register_accepted _ _ _ _ _ Hok2) as [_ ->].
  destruct (handle_register_accepted _ _ _ _ _ Hok1) as [_ ->].
  apply nonempty_true in Ht. rewrite Ht.
  cbn [snd upload clients sid_to_terminal_session terminal_sids
       terminal_sessions with_chat].
  rewrite dict_get_set_ne, !dict_get_set_eq by done.
  rewrite !lookup_insert_eq, lookup_insert_ne, lookup_insert_eq by done.
  repeat (split; [done|]). eexists. split; [done|].
  cbn [default from_option id]. split.
  - apply elem_of_union. left. apply elem_of_union. right.
    by apply elem_of_singleton.
  - apply elem_of_union. right. by apply elem_of_singleton.
Qed.

(** ** Examples *)

Lemma server_reachable_serve cfg secure_filename url_for acts sv :
  server_reachable cfg secure_filename url_for sv ->
  server_reachable cfg secure_filename url_for
    (serve cfg secure_filename url_for acts sv).
Proof.
  revert sv; induction acts as [|a acts IH]; intros sv Hs; [done|].
  cbn [serve foldl]. apply IH. by apply server_reachable_act.
Qed.

Lemma sample_finished_reachable :
  reachable defaults sample_secure_filename sample_url_for sample_finished.
Proof.
  apply (reachable_step _ _ _ sample_uploaded
           (Complete (sample_complete 2) sample_env)).
  apply sample_uploaded_reachable.
Qed.

Lemma sample_server_reachable :
  server_reachable defaults sample_secure_filename sample_url_for
    sample_server.
Proof. apply server_reachable_serve, server_reachable_start. Qed.

Lemma sample_server_uploading_reachable :
  server_reachable defaults sample_secure_filename sample_url_for
    sample_server_uploading.
Proof. apply server_reachable_serve, sample_server_reachable. Qed.

Lemma sample_sends_parts :
  sends_parts sample_id [chunk0; chunk1]
    [sample_chunk "0" "2" chunk0; sample_chunk "1" "2" chunk1].
Proof.
  split; [done|]. intros [|[|i]] r; cbn; intros [= <-]; cbn.
  - split; [vm_compute; reflexivity|]. split; [vm_compute; reflexivity|].
    split; [exists 2; split; [vm_compute; reflexivity | lia]|].
    by eexists.
  - split; [vm_compute; reflexivity|]. split; [vm_compute; reflexivity|].
    split; [exists 2; split; [vm_compute; reflexivity | lia]|].
    by eexists.
Qed.

Lemma completed_upload_is_served_witness :
  exists d : directory,
    chunk_root sample_uploaded !! file_id sample_entry = Some d /\
    serve_media (file_id sample_entry) (Some "1") sample_finished
    = SendFile (stored_name sample_entry)
               (concat (chunk_contents d
                          (default 0 (body_total_chunks (sample_complete 2)))))
               (if nonempty (entry_mime sample_entry)
                then Some (entry_mime sample_entry) else None)
               (bool_decide (Some "1" = Some "1"))
               (original_name sample_entry).
Proof.
  apply (completed_upload_is_served sample_secure_filename sample_url_for
           (sample_complete 2) sample_env sample_uploaded sample_entry
           sample_finished (Some "1")).
  vm_compute. reflexivity.
Defined.

Lemma serve_media_not_found_iff_witness :
  serve_media "no-such-file" None sample_finished = NotFound
  <-> uploaded_files sample_finished !! "no-such-file" = None.
Proof.
  apply (serve_media_not_found_iff defaults sample_secure_filename
           sample_url_for sample_finished "no-such-file" None).
  apply sample_finished_reachable.
Defined.

Lemma sequential_requests_raise_only_on_long_names_witness :
  (handle defaults sample_secure_filename sample_url_for
     (Complete (sample_complete 2) sample_env) sample_finished).1
  <> Unhandled KeyError /\
  status_of
    (handle defaults sample_secure_filename sample_url_for
       (Complete (sample_complete 2) sample_env) sample_finished).1
  ∈ [200; 400; 404; 413].
Proof.
  destruct (sequential_requests_raise_only_on_long_names defaults
              sample_secure_filename sample_url_for sample_finished
              (Complete (sample_complete 2) sample_env)
              sample_finished_reachable) as (Hkey & _ & Hstatus).
  split; [exact Hkey|]. apply Hstatus. vm_compute. discriminate.
Defined.

Lemma sample_finished_record :
  uploaded_files sample_finished !! sample_id = Some sample_entry.
Proof. vm_compute. reflexivity. Qed.

Lemma records_went_through_init_witness :
  sample_id <> "" /\ file_id sample_entry = sample_id /\
  original_name sample_entry <> "" /\
  strip (original_name sample_entry) = original_name sample_entry /\
  0 < entry_size sample_entry <= max_file_size_bytes defaults /\
  url sample_entry = sample_url_for sample_id /\
  exists safe_name,
    safe_name <> "" /\
    stored_name sample_entry = sample_id +:+ "_" +:+ safe_name.
Proof.
  apply (proj2 (records_went_through_init defaults sample_secure_filename
                  sample_url_for sample_finished sample_finished_reachable)
               sample_id sample_entry).
  apply sample_finished_record.
Defined.

Lemma upload_then_download_witness :
  serve_media sample_id None
    (run defaults sample_secure_filename sample_url_for
       (Init sample_init sample_id "2024-05-01T10:00:00Z"
        :: (PutChunk <$> [sample_chunk "0" "2" chunk0;
                          sample_chunk "1" "2" chunk1])
           ++ [Complete (sample_complete 2) sample_env]) initial_state)
  = SendFile (sample_id +:+ "_report.pdf") (chunk0 ++ chunk1)
             (Some "application/pdf") false "report.pdf".
Proof.
  apply (upload_then_download defaults sample_secure_filename sample_url_for
           initial_state sample_init sample_id "2024-05-01T10:00:00Z"
           [chunk0; chunk1]
           [sample_chunk "0" "2" chunk0; sample_chunk "1" "2" chunk1]
           (sample_complete 2) sample_env None).
  - apply reachable_start. by repeat split.
  - vm_compute. discriminate.
  - vm_compute. split; [reflexivity | discriminate].
  - discriminate.
  - discriminate.
  - apply sample_sends_parts.
  - intros [|[|i]] Hi; [reflexivity | reflexivity | cbn in Hi; lia].
  - vm_compute. reflexivity.
  - reflexivity.
  - vm_compute. reflexivity.
Defined.

Lemma sample_client_name :
  dict_get sample_sid (clients sample_server) = Some "alice".
Proof. vm_compute. reflexivity. Qed.

Lemma registry_stays_consistent_witness : valid_name "alice".
Proof.
  destruct (registry_stays_consistent defaults sample_secure_filename
              sample_url_for sample_server sample_server_reachable)
    as (_ & _ & _ & _ & _ & H).
  apply (H sample_sid). apply sample_client_name.
Defined.

Lemma broadcasts_match_history_witness :
  emitted (upload sample_server) = messages (upload sample_server).
Proof.
  apply (broadcasts_match_history defaults sample_secure_filename
           sample_url_for sample_server).
  apply sample_server_reachable.
Defined.

Lemma history_is_append_only_witness :
  messages (upload sample_server)
  `prefix_of` messages
                (upload (serve defaults sample_secure_filename sample_url_for
                           [Chat sample_message sample_sid 1714557601000
                                 "10:00:01"] sample_server)).
Proof.
  apply (proj1 (history_is_append_only defaults sample_secure_filename
                  sample_url_for sample_server sample_server_reachable)).
Defined.

Lemma sample_message_stored :
  {| msg_id := "1714557600000-" +:+ sample_sid; user := "alice";
     text := "hello"; ts := "10:00:00"; kind := "text"; file := None;
     client_msg_id := None |} ∈ messages (upload sample_server).
Proof. vm_compute. apply list_elem_of_here. Qed.

Lemma stored_messages_are_well_formed_witness :
  ("alice" = "Anonymous" \/ valid_name "alice") /\
  "hello" <> "" /\ strip "hello" = "hello" /\
  (("text" = "text" /\ @None entry = None /\ @None string = None) \/
   ("text" = "file" /\
    exists f, @None entry = Some f /\ "hello" = original_name f)).
Proof.
  apply (stored_messages_are_well_formed defaults sample_secure_filename
           sample_url_for sample_server _ sample_server_reachable
           sample_message_stored).
Defined.

Lemma last_clients_broadcast_is_current_witness :
  default [] (last (emitted_clients sample_server))
  = _client_names sample_server.
Proof.
  apply (last_clients_broadcast_is_current defaults sample_secure_filename
           sample_url_for sample_server).
  apply sample_server_reachable.
Defined.

Lemma disconnect_of_unknown_socket_witness :
  handle_disconnect "stranger" sample_server = sample_server.
Proof.
  apply (disconnect_of_unknown_socket defaults sample_secure_filename
           sample_url_for "stranger" sample_server).
  - apply sample_server_reachable.
  - vm_compute. reflexivity.
Defined.

Lemma disconnect_of_registered_socket_witness :
  dict_get sample_sid (clients (handle_disconnect sample_sid sample_server))
  = None.
Proof.
  apply (disconnect_of_registered_socket defaults sample_secure_filename
           sample_url_for sample_sid sample_terminal sample_server).
  - apply sample_server_reachable.
  - vm_compute. reflexivity.
  - discriminate.
Defined.

Lemma register_then_disconnect_witness :
  handle_disconnect "Qm8"
    (handle_register (Some {| data_username := Some "bob" |}) "Qm8" None
       "c0ffee" sample_server).2
  = {| upload := upload sample_server;
       terminal_sids := terminal_sids sample_server;
       sid_to_terminal_session := sid_to_terminal_session sample_server;
       clients := clients sample_server;
       emitted_clients :=
         emitted_clients sample_server ++
         [_client_names sample_server ++ [strip "bob"];
          _client_names sample_server];
       emitted_history :=
         emitted_history sample_server ++
         [("Qm8", messages (upload sample_server))] |}.
Proof.
  apply (register_then_disconnect defaults sample_secure_filename
           sample_url_for (Some {| data_username := Some "bob" |}) "Qm8" None
           "c0ffee" sample_server).
  - apply sample_server_reachable.
  - vm_compute. reflexivity.
  - vm_compute. reflexivity.
  - vm_compute. discriminate.
  - intros t. vm_compute. intros [= <-]. reflexivity.
Defined.

Lemma message_carries_registered_name_witness :
  exists sv2 msg,
    handle_message sample_message sample_sid 1714557600000 "10:00:00"
      (handle_register sample_register sample_sid (Some sample_terminal)
         sample_id server_start).2 = Some sv2 /\
    messages (upload sv2) = messages (upload server_start) ++ [msg] /\
    emitted (upload sv2) = emitted (upload server_start) ++ [msg] /\
    user msg = strip (default "" (sample_register ≫= data_username)) /\
    text msg = strip " hello " /\ kind msg = "text" /\ file msg = None.
Proof.
  apply (message_carries_registered_name sample_register sample_sid
           (Some sample_terminal) sample_id server_start sample_message
           " hello " 1714557600000 "10:00:00").
  - vm_compute. reflexivity.
  - reflexivity.
  - vm_compute. discriminate.
Defined.

Lemma file_message_carries_terminal_name_witness :
  exists msg,
    messages
      (upload_complete sample_secure_filename sample_url_for
         (sample_complete 2) sample_env_terminal
         (upload
            (handle_register sample_register sample_sid (Some sample_terminal)
               sample_id
               (with_upload sample_uploaded server_start)).2)).2
    = messages (upload (with_upload sample_uploaded server_start)) ++ [msg] /\
    user msg = strip (default "" (sample_register ≫= data_username)) /\
    text msg = original_name sample_entry /\ kind msg = "file" /\
    file msg = Some sample_entry.
Proof.
  apply (file_message_carries_terminal_name sample_secure_filename
           sample_url_for sample_register sample_sid (Some sample_terminal)
           sample_id (with_upload sample_uploaded server_start)
           sample_terminal (sample_complete 2) sample_env_terminal
           sample_entry).
  - vm_compute. reflexivity.
  - discriminate.
  - reflexivity.
  - vm_compute. reflexivity.
Defined.

Lemma file_message_after_disconnect_witness :
  exists msg,
    messages
      (upload_complete sample_secure_filename sample_url_for
         (sample_complete 2) sample_env_terminal
         (upload (handle_disconnect sample_sid sample_server_uploading))).2
    = messages (upload sample_server_uploading) ++ [msg] /\
    user msg = "Anonymous" /\
    text msg = original_name sample_entry /\ kind msg = "file" /\
    file msg = Some sample_entry.
Proof.
  apply (file_message_after_disconnect defaults sample_secure_filename
           sample_url_for sample_sid sample_terminal sample_server_uploading
           (sample_complete 2) sample_env_terminal sample_entry).
  - apply sample_server_uploading_reachable.
  - vm_compute. reflexivity.
  - vm_compute. reflexivity.
  - reflexivity.
  - vm_compute. reflexivity.
Defined.

Lemma uploads_do_not_interfere_witness :
  chunk_root
    (run defaults sample_secure_filename sample_url_for
       [Init sample_init "another-upload" "2024-05-01T10:00:01Z";
        Complete {| body_upload_id := Some "another-upload";
                    body_total_chunks := Some 1 |} sample_env]
       sample_uploaded) !! sample_id
  = chunk_root sample_uploaded !! sample_id.
Proof.
  apply (uploads_do_not_interfere defaults sample_secure_filename
           sample_url_for
           [Init sample_init "another-upload" "2024-05-01T10:00:01Z";
            Complete {| body_upload_id := Some "another-upload";
                        body_total_chunks := Some 1 |} sample_env]
           sample_uploaded sample_id).
  repeat apply Forall_cons_2; [vm_compute; discriminate..|apply Forall_nil_2].
Defined.

Lemma terminal_name_is_last_registered_witness :
  terminal_sessions
    (upload
       (handle_register (Some {| data_username := Some "bob" |}) "Qm8"
          (Some sample_terminal) "c0ffee"
          (handle_register sample_register sample_sid (Some sample_terminal)
             sample_id server_start).2).2) !! sample_terminal
  = Some (strip (default "" (Some {| data_username := Some "bob" |}
                             ≫= data_username))).
Proof.
  apply (terminal_name_is_last_registered sample_register sample_sid
           (Some {| data_username := Some "bob" |}) "Qm8" sample_terminal
           sample_id "c0ffee" server_start).
  - discriminate.
  - discriminate.
  - vm_compute. reflexivity.
  - vm_compute. reflexivity.
Defined.
